(** * A/B test analyzer: a shallow embedding of [ab_test_analyzer.py]

    The embedding follows [ABTestAnalyzer]: the data frame is a list of rows,
    numpy's float64 values are exact rationals extended with the IEEE special
    values, Python exceptions are an error monad, and the statsmodels / numpy
    routines the class calls are parameters of the development. *)

From Stdlib Require Import String List Bool Arith ZArith QArith Qabs Qround Qreduction Lia Lqa.
Import ListNotations.

Set Implicit Arguments.

Close Scope Q_scope.
Open Scope string_scope.
Open Scope list_scope.

(** ** Python exceptions *)

(** [KeyError] and [ZeroDivisionError] are the exceptions the analyzer's code
    can run into.  [EmptyGroupError] and [InsufficientDataError] are the error
    names of the design document; no path of the source raises them. *)
Inductive exn : Type :=
| KeyError (label : string)
| ZeroDivisionError
| EmptyGroupError
| InsufficientDataError.

Inductive result (A : Type) : Type :=
| Ok (a : A)
| Raise (e : exn).

Arguments Ok {A} a.
Arguments Raise {A} e.

Definition bind {A B : Type} (c : result A) (k : A -> result B) : result B :=
  match c with
  | Ok a => k a
  | Raise e => Raise e
  end.

Notation "x <- c ;; k" := (bind c (fun x => k))
  (at level 61, c at next level, right associativity).

Definition raises {A : Type} (c : result A) : Prop := exists e, c = Raise e.

(** ** Floating-point values

    A float64 is modelled by its exact rational value, kept in lowest terms,
    or by one of the IEEE special values.  Rounding and the sign of zero are
    abstracted away; the special values are not, because the analyzer's
    behaviour on empty groups and zero rates is decided by them. *)

Inductive num : Type :=
| Fin (q : Q)
| PInf
| NInf
| NaN.

Definition fin (q : Q) : num := Fin (Qred q).

Definition Qltb (a b : Q) : bool := negb (Qle_bool b a).

Definition Q_of_nat (n : nat) : Q := inject_Z (Z.of_nat n).

Definition of_nat (n : nat) : num := fin (Q_of_nat n).

Definition fneg (x : num) : num :=
  match x with
  | Fin a => fin (- a)
  | PInf => NInf
  | NInf => PInf
  | NaN => NaN
  end.

Definition fabs (x : num) : num :=
  match x with
  | Fin a => fin (Qabs a)
  | PInf | NInf => PInf
  | NaN => NaN
  end.

Definition fadd (x y : num) : num :=
  match x, y with
  | NaN, _ | _, NaN => NaN
  | Fin a, Fin b => fin (a + b)
  | PInf, NInf | NInf, PInf => NaN
  | PInf, _ | _, PInf => PInf
  | NInf, _ | _, NInf => NInf
  end.

Definition fsub (x y : num) : num :=
  match x, y with
  | NaN, _ | _, NaN => NaN
  | Fin a, Fin b => fin (a - b)
  | PInf, PInf | NInf, NInf => NaN
  | PInf, _ | _, NInf => PInf
  | NInf, _ | _, PInf => NInf
  end.

(** Sign of a finite factor against an infinite one. *)
Definition scale_inf (pos : bool) (b : Q) : num :=
  if Qeq_bool b 0 then NaN
  else if Bool.eqb pos (Qltb 0 b) then PInf else NInf.

Definition fmul (x y : num) : num :=
  match x, y with
  | NaN, _ | _, NaN => NaN
  | Fin a, Fin b => fin (a * b)
  | PInf, Fin b | Fin b, PInf => scale_inf true b
  | NInf, Fin b | Fin b, NInf => scale_inf false b
  | PInf, PInf | NInf, NInf => PInf
  | PInf, NInf | NInf, PInf => NInf
  end.

(** numpy's true division: a zero divisor gives an infinity or not-a-number
    (with a warning, which the module silences), never an exception. *)
Definition fdiv (x y : num) : num :=
  match x, y with
  | NaN, _ | _, NaN => NaN
  | Fin a, Fin b =>
      if Qeq_bool b 0 then
        if Qeq_bool a 0 then NaN else if Qltb 0 a then PInf else NInf
      else fin (a / b)
  | Fin _, (PInf | NInf) => fin 0
  | (PInf | NInf), (PInf | NInf) => NaN
  | PInf, Fin b => if Qltb b 0 then NInf else PInf
  | NInf, Fin b => if Qltb b 0 then PInf else NInf
  end.

(** Comparisons are false as soon as one side is not-a-number. *)
Definition flt (x y : num) : bool :=
  match x, y with
  | NaN, _ | _, NaN => false
  | Fin a, Fin b => Qltb a b
  | NInf, (Fin _ | PInf) => true
  | Fin _, PInf => true
  | _, _ => false
  end.

Definition fgt (x y : num) : bool := flt y x.

(** Division of a Python [float] by a Python [int]: unlike numpy's, it raises
    on a zero divisor. *)
Definition py_truediv (x : num) (n : nat) : result num :=
  match n with
  | O => Raise ZeroDivisionError
  | S _ => Ok (fdiv x (of_nat n))
  end.

Definition is_nan (x : num) : bool :=
  match x with NaN => true | _ => false end.

Definition finite (x : num) : Prop := exists q, x = Fin q.

(** A value lies in the unit interval: finite and between 0 and 1. *)
Definition in_unit (x : num) : Prop :=
  match x with
  | Fin q => (0 <= q <= 1)%Q
  | _ => False
  end.

(** ** The merged data frame *)

(** One row of the frame obtained by joining the two CSV files on [id].  The
    group, the page and the stratum label are text columns: a cell that is
    empty in the file is read as a missing value.  The identifier and the
    outcome are the integer columns of the data model (the join key and the
    0/1 outcome); rows in which one of them is missing are outside the
    model. *)
Record row : Type := {
  id : Z;
  con_treat : option string;
  page : option string;
  converted : nat;
  country : option string
}.

Definition frame : Type := list row.

(** *** pandas primitives used by the analyzer *)

Section KeepFirst.
Variables (A K : Type) (key : A -> K) (eqb : K -> K -> bool).

(** [drop_duplicates] and [unique] walk the column once and keep the first
    row of every key; [seen] is the set of keys met so far. *)
Fixpoint keep_first (seen : list K) (l : list A) : list A :=
  match l with
  | [] => []
  | x :: t =>
      if existsb (eqb (key x)) seen then keep_first seen t
      else x :: keep_first (key x :: seen) t
  end.

(** [duplicated]: the flag of a row is true when its key was met before. *)
Fixpoint mark_duplicates (seen : list K) (l : list A) : list bool :=
  match l with
  | [] => []
  | x :: t =>
      if existsb (eqb (key x)) seen then true :: mark_duplicates seen t
      else false :: mark_duplicates (key x :: seen) t
  end.
End KeepFirst.

Definition duplicated (d : frame) : list bool := mark_duplicates id Z.eqb [] d.

Definition drop_duplicates (d : frame) : frame := keep_first id Z.eqb [] d.

Definition count_true (l : list bool) : nat := length (filter (fun b => b) l).

(** [Series.unique] treats two missing labels as the same value ... *)
Definition label_same (x y : option string) : bool :=
  match x, y with
  | Some a, Some b => String.eqb a b
  | None, None => true
  | _, _ => false
  end.

(** ... whereas the elementwise [==] is false on a missing label. *)
Definition label_eq (x y : option string) : bool :=
  match x, y with
  | Some a, Some b => String.eqb a b
  | _, _ => false
  end.

Definition unique_labels (l : list (option string)) : list (option string) :=
  keep_first (fun x => x) label_same [] l.

(** [isnull] on one cell. *)
Definition isnull (A : Type) (x : option A) : bool :=
  match x with
  | None => true
  | Some _ => false
  end.

(** The values of a column that are present ([dropna]). *)
Definition names (cs : list (option string)) : list string :=
  flat_map (fun c => match c with Some s => [s] | None => [] end) cs.

Definition unique_strings (l : list string) : list string :=
  keep_first (fun x => x) String.eqb [] l.

Definition mem (g : string) (l : list string) : bool := existsb (String.eqb g) l.

(** [d[d['con_treat'] == g]]: a row whose group is missing is in no group. *)
Definition group_rows (g : string) (d : frame) : frame :=
  filter (fun r => label_eq (con_treat r) (Some g)) d.

Definition country_rows (c : option string) (d : frame) : frame :=
  filter (fun r => label_eq (country r) c) d.

Definition conversions (d : frame) : nat := list_sum (map converted d).

Fixpoint assoc (V : Type) (k : string) (l : list (string * V)) : option V :=
  match l with
  | [] => None
  | (k', v) :: t => if String.eqb k k' then Some v else assoc k t
  end.

(** The result of [pd.crosstab]: one labelled row of counts per group that
    occurs, one column per page that occurs.  (pandas sorts the labels; no
    lookup depends on their order.) *)
Record table : Type := {
  columns : list string;
  rows : list (string * list (string * nat))
}.

(** [pd.crosstab] counts the rows in which both the group and the page are
    present: a row with a missing group or a missing page is left out, and a
    label occurs in the table only if such a row carries it. *)
Definition tabulated (d : frame) : frame :=
  filter (fun r => negb (isnull (con_treat r)) && negb (isnull (page r))) d.

Definition crosstab (d : frame) : table :=
  let t := tabulated d in
  let cols := unique_strings (names (map page t)) in
  {| columns := cols;
     rows :=
       map (fun g =>
              (g, map (fun p =>
                         (p, length (filter (fun r => label_eq (page r) (Some p))
                                            (group_rows g t))))
                      cols))
           (unique_strings (names (map con_treat t))) |}.

(** The row of the cross-tabulation for a group that occurs. *)
Definition crosstab_row (d : frame) (g : string) : list (string * nat) :=
  map (fun p => (p, length (filter (fun r => label_eq (page r) (Some p))
                                   (group_rows g (tabulated d)))))
      (columns (crosstab d)).

Definition has_column (t : table) (p : string) : bool :=
  existsb (String.eqb p) (columns t).

(** [t.loc[g]]: the row labelled [g], a [KeyError] when there is none. *)
Definition loc_row (t : table) (g : string) : result (list (string * nat)) :=
  match assoc g (rows t) with
  | Some r => Ok r
  | None => Raise (KeyError g)
  end.

(** [t.loc[g, p]] *)
Definition loc (t : table) (g p : string) : result nat :=
  r <- loc_row t g ;;
  match assoc p r with
  | Some n => Ok n
  | None => Raise (KeyError p)
  end.

Definition row_sum (r : list (string * nat)) : nat := list_sum (map snd r).

(** [Series.value_counts]: missing values are not counted. *)
Definition value_counts (d : frame) : list (string * nat) :=
  map (fun g => (g, length (group_rows g d)))
      (unique_strings (names (map con_treat d))).

(** [Series.min] and [Series.max] are not-a-number on an empty series. *)
Definition series_min (l : list nat) : num :=
  match l with
  | [] => NaN
  | x :: t => of_nat (fold_left Nat.min t x)
  end.

Definition series_max (l : list nat) : num :=
  match l with
  | [] => NaN
  | x :: t => of_nat (fold_left Nat.max t x)
  end.

(** ** Loading and validation *)

(** What [_data_quality_checks] computes and prints. *)
Record quality_report : Type := {
  missing : list (string * nat);
  assignment_check : table;
  control_error_rate : num;
  treatment_error_rate : num;
  high_misassignment : bool;
  group_sizes : list (string * nat);
  size_ratio : num;
  unbalanced : bool
}.

(** [d.isnull().sum()]: the number of missing cells of every column.  The
    two integer columns have none. *)
Definition isnull_sum (d : frame) : list (string * nat) :=
  [ ("id", 0);
    ("con_treat", length (filter (fun r => isnull (con_treat r)) d));
    ("page", length (filter (fun r => isnull (page r)) d));
    ("converted", 0);
    ("country", length (filter (fun r => isnull (country r)) d)) ].

Definition _data_quality_checks (d : frame) : result quality_report :=
  let missing := isnull_sum d in
  let assignment_check := crosstab d in
  control_with_new <-
    (if has_column assignment_check "new_page"
     then loc assignment_check "control" "new_page" else Ok 0) ;;
  treatment_with_old <-
    (if has_column assignment_check "old_page"
     then loc assignment_check "treatment" "old_page" else Ok 0) ;;
  control_row <- loc_row assignment_check "control" ;;
  let total_control := row_sum control_row in
  treatment_row <- loc_row assignment_check "treatment" ;;
  let total_treatment := row_sum treatment_row in
  let control_error_rate :=
    if (0 <? total_control)%nat
    then fdiv (of_nat control_with_new) (of_nat total_control) else of_nat 0 in
  let treatment_error_rate :=
    if (0 <? total_treatment)%nat
    then fdiv (of_nat treatment_with_old) (of_nat total_treatment) else of_nat 0 in
  let group_sizes := value_counts d in
  let size_ratio :=
    fdiv (series_min (map snd group_sizes)) (series_max (map snd group_sizes)) in
  Ok {| missing := missing;
        assignment_check := assignment_check;
        control_error_rate := control_error_rate;
        treatment_error_rate := treatment_error_rate;
        high_misassignment :=
          fgt control_error_rate (fin (1 # 100))
          || fgt treatment_error_rate (fin (1 # 100));
        group_sizes := group_sizes;
        size_ratio := size_ratio;
        unbalanced := flt size_ratio (fin (8 # 10)) |}.

(** What [load_and_prepare_data] leaves behind: the frame stored in
    [self.data], the number of duplicate identifiers it reported, and the
    quality report. *)
Record preparation : Type := {
  prepared : frame;
  removed_count : nat;
  quality : quality_report
}.

(** The frame passed in is the result of the inner join on [id]. *)
Definition load_and_prepare_data (merged : frame) : result preparation :=
  let duplicates := count_true (duplicated merged) in
  let d := if (0 <? duplicates)%nat then drop_duplicates merged else merged in
  q <- _data_quality_checks d ;;
  Ok {| prepared := d; removed_count := duplicates; quality := q |}.

Record ABTestAnalyzer : Type := {
  data : frame;
  alpha : num
}.

Definition init (merged : frame) : result ABTestAnalyzer :=
  p <- load_and_prepare_data merged ;;
  Ok {| data := prepared p; alpha := fin (5 # 100) |}.

(** ** Result dictionaries *)

(** A Python [dict] with string keys, in insertion order: assigning to a key
    that is present replaces its value in place. *)
Fixpoint dict_set (V : Type) (k : string) (v : V) (d : list (string * V))
  : list (string * V) :=
  match d with
  | [] => [(k, v)]
  | (k', v') :: t =>
      if String.eqb k k' then (k, v) :: t else (k', v') :: dict_set k v t
  end.

(** The inner dictionary written for one scope.  The overall entry has the
    key ['significant'] and no ['p_value_adjusted']; a country entry has
    ['p_value_adjusted'] and no ['significant']. *)
Record TestResult : Type := {
  control_rate : num;
  treatment_rate : num;
  effect_size : num;
  relative_effect : num;
  z_stat : num;
  p_value : num;
  ci_low : num;
  ci_high : num;
  significant : option bool;
  p_value_adjusted : option bool
}.

Definition results_dict : Type := list (string * TestResult).

(** ** Power analysis and statistical tests *)

Section Analysis.

(** The routines of statsmodels and numpy that the analyzer calls.  They are
    total on floats: numpy arithmetic signals no exception. *)
Variable proportions_ztest : list nat -> list nat -> num * num.
Variable confint : nat -> nat -> num -> num * num.
Variable ttest_power : num -> num -> num -> num.
Variables np_arcsin np_sqrt : num -> num.

(** [proportion_confint] on arrays works sample by sample and returns the
    array of lower bounds and the array of upper bounds. *)
Definition proportion_confint (count nobs : list nat) (a : num)
  : list num * list num :=
  let cis := map (fun cn => confint (fst cn) (snd cn) a) (combine count nobs) in
  (map fst cis, map snd cis).

Definition item (l : list num) (i : nat) : num := nth i l NaN.

(** [Series.mean]: not-a-number on an empty series. *)
Definition series_mean (l : list nat) : num :=
  fdiv (of_nat (list_sum l)) (of_nat (length l)).

Definition cohen_h (control_rate treatment_rate : num) : num :=
  fmul (of_nat 2)
       (fsub (np_arcsin (np_sqrt treatment_rate))
             (np_arcsin (np_sqrt control_rate))).

Definition power_analysis (self : ABTestAnalyzer) : num :=
  let control_rate := series_mean (map converted (group_rows "control" (data self))) in
  let treatment_rate := series_mean (map converted (group_rows "treatment" (data self))) in
  let effect_size := cohen_h control_rate treatment_rate in
  let n_control := length (group_rows "control" (data self)) in
  let n_treatment := length (group_rows "treatment" (data self)) in
  let n_avg := fdiv (of_nat (n_control + n_treatment)) (of_nat 2) in
  ttest_power effect_size n_avg (alpha self).

(** The overall test: the value assigned to [results['overall']]. *)
Definition overall_result (self : ABTestAnalyzer) : TestResult :=
  let control_data := group_rows "control" (data self) in
  let treatment_data := group_rows "treatment" (data self) in
  let control_conversions := conversions control_data in
  let treatment_conversions := conversions treatment_data in
  let control_size := length control_data in
  let treatment_size := length treatment_data in
  let '(z_stat, p_value) :=
    proportions_ztest [treatment_conversions; control_conversions]
                      [treatment_size; control_size] in
  let control_rate := fdiv (of_nat control_conversions) (of_nat control_size) in
  let treatment_rate := fdiv (of_nat treatment_conversions) (of_nat treatment_size) in
  let effect_size := fsub treatment_rate control_rate in
  let relative_effect := fmul (fdiv effect_size control_rate) (of_nat 100) in
  let '(ci_low, ci_high) :=
    proportion_confint [treatment_conversions; control_conversions]
                       [treatment_size; control_size] (alpha self) in
  let ci_diff_low := fsub (item ci_low 0) (item ci_high 1) in
  let ci_diff_high := fsub (item ci_high 0) (item ci_low 1) in
  {| control_rate := control_rate;
     treatment_rate := treatment_rate;
     effect_size := effect_size;
     relative_effect := relative_effect;
     z_stat := z_stat;
     p_value := p_value;
     ci_low := ci_diff_low;
     ci_high := ci_diff_high;
     significant := Some (flt p_value (alpha self));
     p_value_adjusted := None |}.

(** The body of the loop over countries: the entry written for [c], or
    [None] when the guard [c_size > 0 and t_size > 0] skips it. *)
Definition country_result (self : ABTestAnalyzer) (bonferroni_alpha : num)
           (c : option string) : option TestResult :=
  let country_data := country_rows c (data self) in
  let country_control := group_rows "control" country_data in
  let country_treatment := group_rows "treatment" country_data in
  let c_conv := conversions country_control in
  let t_conv := conversions country_treatment in
  let c_size := length country_control in
  let t_size := length country_treatment in
  if (0 <? c_size)%nat && (0 <? t_size)%nat then
    let '(z_stat, p_val) := proportions_ztest [t_conv; c_conv] [t_size; c_size] in
    let c_rate := fdiv (of_nat c_conv) (of_nat c_size) in
    let t_rate := fdiv (of_nat t_conv) (of_nat t_size) in
    let effect := fsub t_rate c_rate in
    let rel_effect :=
      if fgt c_rate (of_nat 0)
      then fmul (fdiv effect c_rate) (of_nat 100) else of_nat 0 in
    let '(ci_low, ci_high) :=
      proportion_confint [t_conv; c_conv] [t_size; c_size] bonferroni_alpha in
    let ci_diff_low := fsub (item ci_low 0) (item ci_high 1) in
    let ci_diff_high := fsub (item ci_high 0) (item ci_low 1) in
    Some {| control_rate := c_rate;
            treatment_rate := t_rate;
            effect_size := effect;
            relative_effect := rel_effect;
            z_stat := z_stat;
            p_value := p_val;
            ci_low := ci_diff_low;
            ci_high := ci_diff_high;
            significant := None;
            p_value_adjusted := Some (flt p_val bonferroni_alpha) |}
  else None.

(** One iteration of [for country in countries].  A missing label selects no
    row, so its iteration never reaches the assignment. *)
Definition country_step (self : ABTestAnalyzer) (bonferroni_alpha : num)
           (results : results_dict) (c : option string) : results_dict :=
  match country_result self bonferroni_alpha c, c with
  | Some r, Some name => dict_set name r results
  | _, _ => results
  end.

Definition countries (self : ABTestAnalyzer) : list (option string) :=
  unique_labels (map country (data self)).

Definition n_tests (self : ABTestAnalyzer) : nat := length (countries self).

Definition bonferroni_alpha (self : ABTestAnalyzer) : result num :=
  py_truediv (alpha self) (n_tests self).

Definition statistical_tests (self : ABTestAnalyzer) : result results_dict :=
  let results := dict_set "overall" (overall_result self) [] in
  adjusted <- bonferroni_alpha self ;;
  Ok (fold_left (country_step self adjusted) (countries self) results).

(** The interval of one group of a scope, as [proportion_confint] computes
    it for that sample. *)
Definition group_interval (scope : frame) (g : string) (a : num) : num * num :=
  confint (conversions (group_rows g scope)) (length (group_rows g scope)) a.

(** The z-test of a scope, treatment first. *)
Definition scope_ztest (scope : frame) : num * num :=
  proportions_ztest
    [conversions (group_rows "treatment" scope); conversions (group_rows "control" scope)]
    [length (group_rows "treatment" scope); length (group_rows "control" scope)].

Definition scope_rate (scope : frame) (g : string) : num :=
  fdiv (of_nat (conversions (group_rows g scope))) (of_nat (length (group_rows g scope))).

(** The strata the loop actually tests. *)
Definition tested (self : ABTestAnalyzer) : list (option string) :=
  filter (fun c =>
            (0 <? length (group_rows "control" (country_rows c (data self))))%nat
            && (0 <? length (group_rows "treatment" (country_rows c (data self))))%nat)
         (countries self).

End Analysis.

(** [create_results_visualization] draws its Bonferroni line at 0.05 divided
    by the number of country keys in the results. *)
Definition plotted_countries (results : results_dict) : list string :=
  filter (fun k => negb (String.eqb k "overall")) (map fst results).

Definition plotted_bonferroni (results : results_dict) : result num :=
  py_truediv (fin (5 # 100)) (length (plotted_countries results)).

(** ** The two-proportion z-test *)

(** The reported effect of two samples: the rate of the first minus the rate
    of the second. *)
Definition rate_difference (s1 n1 s2 n2 : nat) : num :=
  fsub (fdiv (of_nat s1) (of_nat n1)) (fdiv (of_nat s2) (of_nat n2)).


Section PooledTest.

(** The numeric primitives: the square root of a positive number and the
    standard normal distribution function at a finite argument. *)
Variable sqrt_pos : Q -> Q.
Variable Phi : Q -> Q.

Definition fsqrt (x : num) : num :=
  match x with
  | Fin q =>
      if Qltb q 0 then NaN
      else if Qeq_bool q 0 then fin 0 else fin (sqrt_pos q)
  | PInf => PInf
  | NInf | NaN => NaN
  end.

Definition fPhi (x : num) : num :=
  match x with
  | Fin q => fin (Phi q)
  | PInf => fin 1
  | NInf => fin 0
  | NaN => NaN
  end.

(** Modelled from the spec: [proportions_ztest] belongs to statsmodels and
    is not part of the repository.  Section 4.3 gives its algorithm: pooled
    rate (s1+s2)/(n1+n2), standard error sqrt(p(1-p)(1/n1+1/n2)),
    z = (p1-p2)/SE, two-sided p-value 2(1-Phi(|z|)). *)
Definition two_proportion_ztest (s1 n1 s2 n2 : nat) : num * num :=
  let p1 := fdiv (of_nat s1) (of_nat n1) in
  let p2 := fdiv (of_nat s2) (of_nat n2) in
  let p_pooled := fdiv (of_nat (s1 + s2)) (of_nat (n1 + n2)) in
  let nobs_fact := fadd (fdiv (of_nat 1) (of_nat n1)) (fdiv (of_nat 1) (of_nat n2)) in
  let var := fmul (fmul p_pooled (fsub (of_nat 1) p_pooled)) nobs_fact in
  let std_diff := fsqrt var in
  let zstat := fdiv (fsub p1 p2) std_diff in
  let pvalue := fmul (of_nat 2) (fsub (of_nat 1) (fPhi (fabs zstat))) in
  (zstat, pvalue).

(** The array interface the analyzer calls, for two samples. *)
Definition pooled_ztest (count nobs : list nat) : num * num :=
  match count, nobs with
  | [s1; s2], [n1; n2] => two_proportion_ztest s1 n1 s2 n2
  | _, _ => (NaN, NaN)
  end.

End PooledTest.

(** ** The power function *)

Section PowerFunction.

(** The distribution functions of scipy that the power function calls: the
    upper and the lower quantile of Student's t distribution, [t.isf(q, df)]
    and [t.ppf(q, df)], and the upper and the lower tail of the noncentral t
    distribution, [nct_sf(x, df, nc)] and [nct_cdf(x, df, nc)]; [np_sqrt] is
    numpy's square root. *)
Variables t_isf t_ppf : num -> num -> num.
Variables nct_sf nct_cdf : num -> num -> num -> num.
Variable np_sqrt : num -> num.

(** Modelled from the spec: [ttest_power] belongs to statsmodels and is not
    part of the repository.  Section 4.2 asks for the noncentral-distribution
    based power function at a two-sided alpha; the definition follows the
    library function the analyzer calls: df = nobs - 1, the critical values
    of the t distribution at alpha/2, and as power the upper tail beyond the
    upper critical value plus the lower tail below the lower one, of the
    noncentral t distribution with noncentrality d * sqrt(nobs); the power
    is not-a-number as soon as a critical value is. *)
Definition ttest_power (effect_size nobs alpha : num) : num :=
  let d := effect_size in
  let df := fsub nobs (of_nat 1) in
  let alpha_ := fdiv alpha (of_nat 2) in
  let crit_upp := t_isf alpha_ df in
  let pow_ :=
    if is_nan crit_upp then NaN
    else nct_sf crit_upp df (fmul d (np_sqrt nobs)) in
  let crit_low := t_ppf alpha_ df in
  if is_nan crit_low then NaN
  else fadd pow_ (nct_cdf crit_low df (fmul d (np_sqrt nobs))).

End PowerFunction.

(** ** A reference instance of the numeric primitives

    Rational stand-ins that make the model run on concrete data: Heron's
    iteration for the square root, the Abramowitz-Stegun rational
    approximation 26.2.18 of the normal distribution function, bisection for
    its upper quantile, and the normal-approximation interval for one
    proportion. *)

(** Intermediate values are rounded to 32 fractional bits. *)
Definition grid : positive := 4294967296.

Definition round_up (q : Q) : Q := Qceiling (q * inject_Z (Zpos grid)) # grid.

Definition round_down (q : Q) : Q := Qfloor (q * inject_Z (Zpos grid)) # grid.

Fixpoint heron (fuel : nat) (q x : Q) : Q :=
  match fuel with
  | O => x
  | S k => heron k q (round_up ((x + q / x) / 2))
  end.

Definition sqrt_heron (q : Q) : Q := heron 20 q (round_up (1 + q)).

Definition as_poly (x : Q) : Q :=
  (1 + (196854 # 1000000) * x + (115194 # 1000000) * (x * x)
   + (344 # 1000000) * (x * x * x) + (19527 # 1000000) * (x * x * x * x))%Q.

Definition Phi_as (x : Q) : Q :=
  let t := Qabs (round_down x) in
  let d2 := (as_poly t * as_poly t)%Q in
  let tail := ((1 # 2) / (d2 * d2))%Q in
  if Qltb x 0 then tail else (1 - tail)%Q.

(** Upper quantile by bisection on [lo, hi]. *)
Fixpoint isf_bisect (fuel : nat) (a lo hi : Q) : Q :=
  match fuel with
  | O => Qred ((lo + hi) / 2)
  | S k =>
      let mid := Qred ((lo + hi) / 2) in
      if Qltb a (1 - Phi_as mid) then isf_bisect k a mid hi
      else isf_bisect k a lo mid
  end.

Definition norm_isf (x : num) : num :=
  match x with
  | Fin a => fin (isf_bisect 16 a (-(8)) 8)
  | _ => NaN
  end.

Definition normal_confint (count nobs : nat) (a : num) : num * num :=
  let q := fdiv (of_nat count) (of_nat nobs) in
  let std := fsqrt sqrt_heron (fdiv (fmul q (fsub (of_nat 1) q)) (of_nat nobs)) in
  let dist := fmul (norm_isf (fdiv a (of_nat 2))) std in
  (fsub q dist, fadd q dist).

Definition ztest_ref : list nat -> list nat -> num * num :=
  pooled_ztest sqrt_heron Phi_as.

(** Stand-ins for the primitives of the power function: the normal quantile
    in place of the t quantile (in absolute value: below one half the upper
    quantile is positive), the distribution concentrated at the noncentrality
    in place of the noncentral t distribution, and the cubic Taylor
    polynomial of the arcsine.  Without positive degrees of freedom the
    quantiles and the tails are not-a-number, as in scipy. *)
Definition t_isf_ref (q df : num) : num :=
  if flt (of_nat 0) df then fabs (norm_isf q) else NaN.

Definition t_ppf_ref (q df : num) : num :=
  if flt (of_nat 0) df then fneg (fabs (norm_isf q)) else NaN.

Definition point_tail (upper : bool) (x df nc : num) : num :=
  match x, df, nc with
  | Fin a, Fin v, Fin c =>
      if Qltb 0 v
      then (if Bool.eqb upper (Qltb a c) then fin 1 else fin 0)
      else NaN
  | _, _, _ => NaN
  end.

Definition nct_sf_ref : num -> num -> num -> num := point_tail true.

Definition nct_cdf_ref : num -> num -> num -> num := point_tail false.

Definition sqrt_ref : num -> num := fsqrt sqrt_heron.

Definition arcsin_ref (x : num) : num :=
  match x with
  | Fin a => fin (a + a * a * a / 6)
  | _ => NaN
  end.

Definition power_ref : num -> num -> num -> num :=
  ttest_power t_isf_ref t_ppf_ref nct_sf_ref nct_cdf_ref sqrt_ref.

(** ** Sample frames *)

Definition obs (i : Z) (g p : string) (conv : nat) (c : string) : row :=
  {| id := i; con_treat := Some g; page := Some p; converted := conv;
     country := Some c |}.

(** Two countries, both arms present in each; the control arm of the US has
    no conversion. *)
Definition two_countries : frame :=
  [ obs 1 "control" "old_page" 0 "US";
    obs 2 "treatment" "new_page" 1 "US";
    obs 3 "control" "old_page" 1 "UK";
    obs 4 "treatment" "new_page" 0 "UK";
    obs 5 "treatment" "new_page" 1 "UK" ].

(** The UK has observations in the control arm only. *)
Definition one_sided_country : frame :=
  [ obs 1 "control" "old_page" 0 "US";
    obs 2 "treatment" "new_page" 1 "US";
    obs 3 "control" "old_page" 1 "UK" ].

(** No observation in the control group. *)
Definition treatment_only : frame :=
  [ obs 1 "treatment" "new_page" 1 "US";
    obs 2 "treatment" "new_page" 0 "US" ].

Definition analyzer_of (d : frame) : ABTestAnalyzer :=
  {| data := d; alpha := fin (5 # 100) |}.

(** Both groups have an observation, but the page of the only control row is
    missing. *)
Definition control_without_page : frame :=
  [ {| id := 1; con_treat := Some "control"; page := None; converted := 0;
       country := Some "US" |};
    obs 2 "treatment" "new_page" 1 "US" ].

(** Both groups have an observation with a page; one further row lacks its
    page and its country, another its group. *)
Definition with_missing_values : frame :=
  [ obs 1 "control" "old_page" 0 "US";
    obs 2 "treatment" "new_page" 1 "US";
    {| id := 3; con_treat := Some "control"; page := None; converted := 1;
       country := None |};
    {| id := 4; con_treat := None; page := Some "new_page"; converted := 0;
       country := Some "UK" |} ].

(** One observation in each group. *)
Definition one_each : frame :=
  [ obs 1 "control" "old_page" 0 "US";
    obs 2 "treatment" "new_page" 1 "US" ].

(** A frame in which identifier 1 occurs twice, first in the control group. *)
Definition with_duplicates : frame :=
  [ obs 1 "control" "old_page" 0 "US";
    obs 2 "treatment" "new_page" 1 "US";
    obs 1 "treatment" "new_page" 1 "UK" ].

(** ** Reading and joining the two files *)

(** A row of the A/B test file and a row of the countries file, as
    [pd.read_csv] returns them.  (The A/B test file may carry further
    columns, such as a timestamp; the analyzer never reads them.) *)
Record ab_row : Type := {
  ab_id : Z;
  ab_con_treat : option string;
  ab_page : option string;
  ab_converted : nat
}.

Record country_row : Type := {
  c_id : Z;
  c_country : option string
}.

Definition join_row (l : ab_row) (r : country_row) : row :=
  {| id := ab_id l;
     con_treat := ab_con_treat l;
     page := ab_page l;
     converted := ab_converted l;
     country := c_country r |}.

(** [pd.merge(ab_test, countries, on='id', how='inner')]: every left row is
    paired with every right row of the same identifier, in the order of the
    left keys. *)
Definition merge (ab_test : list ab_row) (countries : list country_row) : frame :=
  flat_map (fun l => map (join_row l)
                         (filter (fun r => Z.eqb (c_id r) (ab_id l)) countries))
           ab_test.

(** [ABTestAnalyzer(ab_test_file, countries_file)], from the two frames read. *)
Definition new_analyzer (ab_test : list ab_row) (countries : list country_row)
  : result ABTestAnalyzer :=
  init (merge ab_test countries).

(** ** Plot data of [create_results_visualization] *)

(** IEEE equality: false as soon as one side is not-a-number. *)
Definition feq (x y : num) : bool :=
  match x, y with
  | Fin a, Fin b => Qeq_bool a b
  | PInf, PInf | NInf, NInf => true
  | _, _ => false
  end.

Definition fne (x y : num) : bool := negb (feq x y).

(** The values the four panels are drawn from (the drawing itself is not
    modelled). *)
Record plot_data : Type := {
  plot_countries : list string;
  plot_effects : list num;
  plot_colors : list string;
  plot_ci_lows : list num;
  plot_ci_highs : list num;
  plot_lower_errors : list num;
  plot_upper_errors : list num;
  plot_control_sizes : list nat;
  plot_treatment_sizes : list nat;
  plot_p_values : list num;
  plot_p_colors : list string;
  plot_bonferroni_line : num
}.

(** The entries [results[country]] for [country] in the keys other than
    ['overall']. *)
Definition country_entries (results : results_dict) : results_dict :=
  filter (fun kv => negb (String.eqb (fst kv) "overall")) results.

(** The colour of a p-value bar among [n] countries. *)
Definition p_color (n : nat) (p : num) : string :=
  if flt p (fdiv (fin (5 # 100)) (of_nat n)) then "red"
  else if flt p (fin (5 # 100)) then "orange" else "gray".

Definition arm_size (self : ABTestAnalyzer) (c g : string) : nat :=
  length (filter (fun r => label_eq (country r) (Some c)
                           && label_eq (con_treat r) (Some g))
                 (data self)).

Definition create_results_visualization (self : ABTestAnalyzer) (results : results_dict)
  : result plot_data :=
  let entries := country_entries results in
  let countries := map fst entries in
  let effects := map (fun kv => relative_effect (snd kv)) entries in
  let colors := map (fun e => if flt e (of_nat 0) then "red" else "green") effects in
  overall <- match assoc "overall" results with
             | Some r => Ok r
             | None => Raise (KeyError "overall")
             end ;;
  let effects_with_overall := relative_effect overall :: effects in
  let ci_lows :=
    fmul (ci_low overall) (of_nat 100)
    :: map (fun kv => fmul (ci_low (snd kv)) (of_nat 100)) entries in
  let ci_highs :=
    fmul (ci_high overall) (of_nat 100)
    :: map (fun kv => fmul (ci_high (snd kv)) (of_nat 100)) entries in
  let lower_errors :=
    map (fun el => fabs (fsub (fst el) (snd el))) (combine effects_with_overall ci_lows) in
  let upper_errors :=
    map (fun he => fabs (fsub (fst he) (snd he))) (combine ci_highs effects_with_overall) in
  let control_sizes := map (fun c => arm_size self c "control") countries in
  let treatment_sizes := map (fun c => arm_size self c "treatment") countries in
  let p_values := map (fun kv => p_value (snd kv)) entries in
  let colors_p := map (p_color (length countries)) p_values in
  line <- py_truediv (fin (5 # 100)) (length countries) ;;
  Ok {| plot_countries := countries;
        plot_effects := effects;
        plot_colors := colors;
        plot_ci_lows := ci_lows;
        plot_ci_highs := ci_highs;
        plot_lower_errors := lower_errors;
        plot_upper_errors := upper_errors;
        plot_control_sizes := control_sizes;
        plot_treatment_sizes := treatment_sizes;
        plot_p_values := p_values;
        plot_p_colors := colors_p;
        plot_bonferroni_line := line |}.

(** ** Business recommendations *)

(** The message chosen for the overall result. *)
Inductive verdict : Type :=
| Critical
| Warning
| Positive
| Neutral.

(** What [business_recommendations] prints, as values. *)
Record recommendations : Type := {
  overall_effect : num;
  overall_significant : bool;
  overall_verdict : verdict;
  negative_countries : list (string * num);
  positive_countries : list (string * num);
  immediate_action : bool;
  stop_experiment : bool;
  projected : option (num * num)
}.

Definition business_recommendations (self : ABTestAnalyzer) (results : results_dict)
  : result recommendations :=
  overall <- match assoc "overall" results with
             | Some r => Ok r
             | None => Raise (KeyError "overall")
             end ;;
  let overall_effect := relative_effect overall in
  overall_significant <- match significant overall with
                         | Some b => Ok b
                         | None => Raise (KeyError "significant")
                         end ;;
  let v :=
    if flt overall_effect (fin (-(2))) then Critical
    else if flt overall_effect (of_nat 0) then Warning
    else if fgt overall_effect (of_nat 2) then Positive
    else Neutral in
  let effects := map (fun kv => (fst kv, relative_effect (snd kv)))
                     (country_entries results) in
  let negative := filter (fun ce => flt (snd ce) (of_nat 0)) effects in
  let positive := filter (fun ce => negb (flt (snd ce) (of_nat 0))) effects in
  let current_conversions := conversions (data self) in
  let projected :=
    if fne overall_effect (of_nat 0) then
      let projected_impact :=
        fmul (fdiv overall_effect (of_nat 100)) (of_nat current_conversions) in
      Some (projected_impact,
            fmul (fdiv projected_impact (of_nat current_conversions)) (of_nat 100))
    else None in
  Ok {| overall_effect := overall_effect;
        overall_significant := overall_significant;
        overall_verdict := v;
        negative_countries := negative;
        positive_countries := positive;
        immediate_action := (2 <=? length negative)%nat;
        stop_experiment := flt overall_effect (fin (-(1)));
        projected := projected |}.

(** The rows of group [g] that were shown page [p]. *)
Definition shown (d : frame) (g p : string) : nat :=
  length (filter (fun r => label_eq (page r) (Some p)) (group_rows g d)).

(** The rows whose page is present. *)
Definition paged (d : frame) : frame :=
  filter (fun r => negb (isnull (page r))) d.

(** The rows without a country label. *)
Definition unlabelled (d : frame) : frame :=
  filter (fun r => match country r with None => true | Some _ => false end) d.

(** The keys the plot and the recommendations treat as countries. *)
Definition not_overall (k : string) : bool := negb (String.eqb k "overall").

(** The guard of the country loop: observations in both arms. *)
Definition both_arms (self : ABTestAnalyzer) (c : option string) : bool :=
  (0 <? length (group_rows "control" (country_rows c (data self))))%nat
  && (0 <? length (group_rows "treatment" (country_rows c (data self))))%nat.

(** A count summed over the rows of a frame. *)
Definition total (w : row -> nat) (d : frame) : nat := list_sum (map w d).

(** ** Sample files *)

Definition ab (i : Z) (g p : string) (conv : nat) : ab_row :=
  {| ab_id := i; ab_con_treat := Some g; ab_page := Some p; ab_converted := conv |}.

Definition located (i : Z) (c : string) : country_row :=
  {| c_id := i; c_country := Some c |}.

(** Identifier 4 has no country; identifier 2 has two; identifier 9 has no
    A/B test row. *)
Definition ab_test_file : list ab_row :=
  [ ab 1 "control" "old_page" 0;
    ab 2 "treatment" "new_page" 1;
    ab 3 "control" "new_page" 1;
    ab 4 "treatment" "new_page" 0 ].

Definition countries_file : list country_row :=
  [ located 1 "US"; located 2 "US"; located 2 "UK"; located 3 "UK"; located 9 "CA" ].

(** The same without the second country of identifier 2. *)
Definition countries_file_unique : list country_row :=
  [ located 1 "US"; located 2 "US"; located 3 "UK"; located 9 "CA" ].

(** A country whose label is the key of the overall entry. *)
Definition country_named_overall : frame :=
  [ obs 1 "control" "old_page" 1 "overall";
    obs 2 "treatment" "new_page" 0 "overall";
    obs 3 "control" "old_page" 1 "US" ].

(** A results dictionary with a relative effect of -3 percent overall, and
    one country on each side of zero. *)
Definition entry (effect : Q) (sig adj : option bool) : TestResult :=
  {| control_rate := fin (1 # 2);
     treatment_rate := fin (1 # 2);
     effect_size := fin 0;
     relative_effect := fin effect;
     z_stat := fin 0;
     p_value := fin (1 # 100);
     ci_low := fin 0;
     ci_high := fin 0;
     significant := sig;
     p_value_adjusted := adj |}.

Definition harmful_results : results_dict :=
  [ ("overall", entry (-(3)) (Some true) None);
    ("US", entry (-(5)) None (Some true));
    ("UK", entry 1 None (Some false)) ].

(** * Properties *)

(** ** Arithmetic of the float model *)

Lemma Qltb_true (a b : Q) : Qltb a b = true <-> (a < b)%Q.
Proof.
  unfold Qltb. rewrite negb_true_iff.
  split; intro H.
  - apply Qnot_le_lt. intro Hle. apply Qle_bool_iff in Hle. congruence.
  - destruct (Qle_bool b a) eqn:E; [|reflexivity].
    apply Qle_bool_iff in E. exfalso. apply (Qlt_not_le _ _ H E).
Qed.

Lemma Qltb_false (a b : Q) : Qltb a b = false <-> (b <= a)%Q.
Proof.
  unfold Qltb. rewrite negb_false_iff. apply Qle_bool_iff.
Qed.

Lemma Qeq_bool_false (a b : Q) : Qeq_bool a b = false <-> ~ (a == b)%Q.
Proof.
  split; intro H.
  - now apply Qeq_bool_neq.
  - destruct (Qeq_bool a b) eqn:E; [|reflexivity].
    apply Qeq_bool_iff in E. contradiction.
Qed.

Lemma fin_ext (a b : Q) : (a == b)%Q -> fin a = fin b.
Proof. intro H. unfold fin. f_equal. now apply Qred_complete. Qed.

Lemma fin_inv (a b : Q) : fin a = Fin b -> (b == a)%Q.
Proof.
  unfold fin. intro H. injection H as <-. apply Qred_correct.
Qed.

Lemma Q_of_nat_pos (n : nat) : (0 < n)%nat -> (0 < Q_of_nat n)%Q.
Proof.
  intro H. unfold Q_of_nat, Qlt. simpl. lia.
Qed.

Lemma Q_of_nat_nonneg (n : nat) : (0 <= Q_of_nat n)%Q.
Proof. unfold Q_of_nat, Qle. simpl. lia. Qed.

Lemma Q_of_nat_zero (n : nat) : (Q_of_nat n == 0)%Q <-> n = O.
Proof.
  unfold Q_of_nat, Qeq. simpl. lia.
Qed.

Lemma Q_of_nat_le (a b : nat) : (a <= b)%nat -> (Q_of_nat a <= Q_of_nat b)%Q.
Proof. intro H. unfold Q_of_nat, Qle. simpl. lia. Qed.

Lemma Q_of_nat_lt (a b : nat) : (a < b)%nat -> (Q_of_nat a < Q_of_nat b)%Q.
Proof. intro H. unfold Q_of_nat, Qlt. simpl. lia. Qed.

Lemma Q_of_nat_plus (a b : nat) : (Q_of_nat (a + b) == Q_of_nat a + Q_of_nat b)%Q.
Proof.
  unfold Q_of_nat. rewrite Nat2Z.inj_add, inject_Z_plus. reflexivity.
Qed.

Lemma of_nat_fin (n : nat) : of_nat n = fin (Q_of_nat n).
Proof. reflexivity. Qed.

(** The three outcomes of numpy's division of one count by another. *)
Lemma fdiv_counts (a b : nat) :
  fdiv (of_nat a) (of_nat b) =
  match b, a with
  | O, O => NaN
  | O, S _ => PInf
  | S _, _ => fin (Q_of_nat a / Q_of_nat b)
  end.
Proof.
  unfold fdiv, of_nat, fin. fold (Q_of_nat a) (Q_of_nat b).
  destruct b as [|b].
  - assert (Hb : Qeq_bool (Qred (Q_of_nat 0)) 0 = true) by reflexivity.
    rewrite Hb. destruct a as [|a]; [reflexivity|].
    assert (Ha : (0 < Qred (Q_of_nat (S a)))%Q).
    { rewrite Qred_correct. apply Q_of_nat_pos. lia. }
    assert (E : Qeq_bool (Qred (Q_of_nat (S a))) 0 = false).
    { apply Qeq_bool_false. intro E. rewrite E in Ha. now apply Qlt_irrefl in Ha. }
    rewrite E. apply Qltb_true in Ha. now rewrite Ha.
  - assert (E : Qeq_bool (Qred (Q_of_nat (S b))) 0 = false).
    { apply Qeq_bool_false. rewrite Qred_correct, Q_of_nat_zero. discriminate. }
    rewrite E. f_equal. apply Qred_complete. now rewrite !Qred_correct.
Qed.

Lemma fdiv_counts_pos (a b : nat) :
  (0 < b)%nat -> fdiv (of_nat a) (of_nat b) = fin (Q_of_nat a / Q_of_nat b).
Proof. intro H. rewrite fdiv_counts. destruct b; [lia|reflexivity]. Qed.

(** A rate [conversions / size] is not-a-number on an empty sample and a
    non-negative finite number otherwise. *)
Lemma rate_empty : fdiv (of_nat 0) (of_nat 0) = NaN.
Proof. reflexivity. Qed.

Lemma rate_finite (a b : nat) :
  (0 < b)%nat ->
  exists q, fdiv (of_nat a) (of_nat b) = Fin q
            /\ (q == Q_of_nat a / Q_of_nat b)%Q /\ (0 <= q)%Q.
Proof.
  intro Hb. rewrite fdiv_counts. destruct b as [|b]; [lia|].
  exists (Qred (Q_of_nat a / Q_of_nat (S b))). split; [reflexivity|].
  split; [apply Qred_correct|].
  rewrite Qred_correct. apply Qle_shift_div_l.
  - apply Q_of_nat_pos. lia.
  - rewrite Qmult_0_l. apply Q_of_nat_nonneg.
Qed.

Lemma rate_zero_inv (a b : nat) :
  fdiv (of_nat a) (of_nat b) = Fin 0 -> (0 < b)%nat /\ a = O.
Proof.
  rewrite fdiv_counts. destruct b as [|b].
  - destruct a; discriminate.
  - intro H. apply fin_inv in H. split; [lia|].
    apply Q_of_nat_zero.
    assert (Hb : (0 < Q_of_nat (S b))%Q) by (apply Q_of_nat_pos; lia).
    assert (E : (Q_of_nat a == (Q_of_nat a / Q_of_nat (S b)) * Q_of_nat (S b))%Q).
    { field. intro E. rewrite E in Hb. now apply Qlt_irrefl in Hb. }
    rewrite E, <- H. ring.
Qed.

(** ** Keeping the first row of every key *)

Section KeepFirstFacts.
Variables (A K : Type) (key : A -> K) (eqb : K -> K -> bool).
Hypothesis eqb_spec : forall a b, eqb a b = true <-> a = b.

Lemma seen_true (k : K) (seen : list K) :
  existsb (eqb k) seen = true <-> In k seen.
Proof.
  rewrite existsb_exists. split.
  - intros [x [Hin Hx]]. apply eqb_spec in Hx. now subst.
  - intro Hin. exists k. split; [assumption|]. now apply eqb_spec.
Qed.

Lemma seen_false (k : K) (seen : list K) :
  existsb (eqb k) seen = false <-> ~ In k seen.
Proof.
  rewrite <- seen_true. destruct (existsb (eqb k) seen); split; intro H;
    congruence || (exfalso; now apply H) || (intro; discriminate).
Qed.

Lemma keep_first_incl (seen : list K) (l : list A) (x : A) :
  In x (keep_first key eqb seen l) -> In x l /\ ~ In (key x) seen.
Proof.
  revert seen. induction l as [|y t IH]; intros seen Hin; simpl in *; [contradiction|].
  destruct (existsb (eqb (key y)) seen) eqn:E.
  - apply IH in Hin. tauto.
  - apply seen_false in E. destruct Hin as [<- | Hin]; [tauto|].
    apply IH in Hin. destruct Hin as [Hin Hns]. split; [tauto|].
    intro Hs. apply Hns. now right.
Qed.

Lemma keep_first_NoDup (seen : list K) (l : list A) :
  NoDup (map key (keep_first key eqb seen l)).
Proof.
  revert seen. induction l as [|y t IH]; intro seen; simpl; [constructor|].
  destruct (existsb (eqb (key y)) seen) eqn:E; [apply IH|].
  simpl. constructor; [|apply IH].
  intro Hin. apply in_map_iff in Hin. destruct Hin as [x [Hk Hx]].
  apply keep_first_incl in Hx. destruct Hx as [_ Hns].
  apply Hns. rewrite Hk. now left.
Qed.

(** Every key that is not yet seen keeps a representative. *)
Lemma keep_first_complete (seen : list K) (l : list A) (x : A) :
  In x l -> ~ In (key x) seen ->
  exists r, In r (keep_first key eqb seen l) /\ key r = key x.
Proof.
  revert seen. induction l as [|y t IH]; intros seen Hin Hns; simpl in *; [contradiction|].
  destruct (existsb (eqb (key y)) seen) eqn:E.
  - apply seen_true in E. destruct Hin as [-> | Hin]; [contradiction|].
    now apply IH.
  - destruct Hin as [-> | Hin].
    + exists x. split; [now left|reflexivity].
    + destruct (eqb (key x) (key y)) eqn:Exy.
      * apply eqb_spec in Exy. exists y. split; [now left|now symmetry].
      * destruct (IH (key y :: seen) Hin) as [r [Hr Hk]].
        { intros [Hy | Hs]; [|contradiction].
          assert (eqb (key x) (key y) = true) by now apply eqb_spec.
          congruence. }
        exists r. split; [now right|assumption].
Qed.

(** The representative that is kept is the first row of the frame that
    carries its key. *)
Lemma keep_first_is_first (seen : list K) (l : list A) (r : A) :
  In r (keep_first key eqb seen l) ->
  find (fun x => eqb (key x) (key r)) l = Some r.
Proof.
  revert seen. induction l as [|y t IH]; intros seen Hin; simpl in *; [contradiction|].
  destruct (existsb (eqb (key y)) seen) eqn:E.
  - apply seen_true in E.
    destruct (keep_first_incl _ _ _ Hin) as [_ Hns].
    destruct (eqb (key y) (key r)) eqn:Eyr.
    + apply eqb_spec in Eyr. rewrite Eyr in E. contradiction.
    + now apply IH with seen.
  - destruct Hin as [<- | Hin].
    + assert (Hrefl : eqb (key y) (key y) = true) by now apply eqb_spec.
      now rewrite Hrefl.
    + destruct (keep_first_incl _ _ _ Hin) as [_ Hns].
      destruct (eqb (key y) (key r)) eqn:Eyr.
      * apply eqb_spec in Eyr. exfalso. apply Hns. now left.
      * now apply IH with (key y :: seen).
Qed.

(** On a list without repeated keys nothing is dropped or flagged. *)
Lemma keep_first_NoDup_id (seen : list K) (l : list A) :
  NoDup (map key l) -> (forall x, In x l -> ~ In (key x) seen) ->
  keep_first key eqb seen l = l
  /\ mark_duplicates key eqb seen l = map (fun _ => false) l.
Proof.
  revert seen. induction l as [|y t IH]; intros seen Hnd Hns; simpl; [split; reflexivity|].
  inversion Hnd as [|? ? Hy Hnd']; subst.
  assert (E : existsb (eqb (key y)) seen = false).
  { apply seen_false. apply Hns. now left. }
  rewrite E.
  destruct (IH (key y :: seen) Hnd') as [H1 H2].
  { intros x Hx [Hk | Hs].
    - apply Hy. rewrite Hk. now apply in_map.
    - apply (Hns x); [now right|assumption]. }
  now rewrite H1, H2.
Qed.

(** The rows flagged by [duplicated] are exactly those that are dropped. *)
Lemma mark_duplicates_count (seen : list K) (l : list A) :
  (count_true (mark_duplicates key eqb seen l)
   + length (keep_first key eqb seen l) = length l)%nat.
Proof.
  unfold count_true. revert seen.
  induction l as [|y t IH]; intro seen; simpl; [reflexivity|].
  destruct (existsb (eqb (key y)) seen); simpl.
  - now rewrite IH.
  - rewrite Nat.add_succ_r. now rewrite IH.
Qed.

Lemma keep_first_mem (seen : list K) (l : list A) (k : K) :
  In k (map key (keep_first key eqb seen l))
  <-> In k (map key l) /\ ~ In k seen.
Proof.
  split.
  - intro H. apply in_map_iff in H. destruct H as [x [<- Hx]].
    apply keep_first_incl in Hx. destruct Hx as [Hx Hns].
    split; [now apply in_map|assumption].
  - intros [H Hns]. apply in_map_iff in H. destruct H as [x [<- Hx]].
    destruct (keep_first_complete seen l x Hx Hns) as [r [Hr Hk]].
    rewrite <- Hk. now apply in_map.
Qed.

End KeepFirstFacts.

Lemma count_true_all_false (A : Type) (l : list A) :
  count_true (map (fun _ => false) l) = O.
Proof. unfold count_true. induction l; simpl; auto. Qed.

Lemma label_same_spec (a b : option string) : label_same a b = true <-> a = b.
Proof.
  destruct a as [a|], b as [b|]; simpl; try (split; congruence).
  rewrite String.eqb_eq. split; congruence.
Qed.

Lemma drop_duplicates_fixpoint (d : frame) :
  NoDup (map id d) -> drop_duplicates d = d /\ count_true (duplicated d) = O.
Proof.
  intro H. unfold drop_duplicates, duplicated.
  destruct (@keep_first_NoDup_id _ _ id Z.eqb Z.eqb_eq [] d H) as [H1 H2].
  - intros x _ [].
  - rewrite H1, H2. split; [reflexivity|apply count_true_all_false].
Qed.

Lemma drop_duplicates_NoDup (d : frame) : NoDup (map id (drop_duplicates d)).
Proof. apply keep_first_NoDup. apply Z.eqb_eq. Qed.

Lemma prepared_is_deduplicated (d : frame) :
  (if (0 <? count_true (duplicated d))%nat then drop_duplicates d else d)
  = drop_duplicates d.
Proof.
  destruct (0 <? count_true (duplicated d))%nat eqn:E; [reflexivity|].
  apply Nat.ltb_ge in E.
  pose proof (@mark_duplicates_count _ _ id Z.eqb [] d) as H.
  fold (duplicated d) in H. fold (drop_duplicates d) in H.
  assert (Hlen : length (drop_duplicates d) = length d) by lia.
  clear H E. unfold drop_duplicates in *.
  symmetry.
  (* a frame that loses no row is unchanged *)
  assert (G : forall seen l,
             length (keep_first id Z.eqb seen l) = length l ->
             keep_first id Z.eqb seen l = l).
  { intros seen l. revert seen. induction l as [|y t IH]; intros seen Hl; simpl in *; [reflexivity|].
    destruct (existsb (Z.eqb (id y)) seen).
    - pose proof (@mark_duplicates_count _ _ id Z.eqb seen t). lia.
    - f_equal. apply IH. now injection Hl. }
  now apply G.
Qed.

(** ** Deduplication *)

(** C9. Deduplication keeps the first-seen row of every identifier and is
    idempotent.  On a frame without duplicate identifiers the loader counts 0
    duplicates, leaves the frame unchanged, and a second run on the prepared
    frame yields the identical outcome; on any frame a second run reports 0
    removed rows and the same quality report; the row retained for an
    identifier is its first occurrence, and every identifier retains one. *)
Theorem deduplication_first_seen_idempotent :
  (forall merged, NoDup (map id merged) ->
     count_true (duplicated merged) = O
     /\ forall p, load_and_prepare_data merged = Ok p ->
          removed_count p = O /\ prepared p = merged
          /\ load_and_prepare_data (prepared p) = Ok p)
  /\ (forall merged p, load_and_prepare_data merged = Ok p ->
        prepared p = drop_duplicates merged
        /\ load_and_prepare_data (prepared p)
           = Ok {| prepared := prepared p; removed_count := O; quality := quality p |})
  /\ (forall merged r, In r (drop_duplicates merged) ->
        find (fun x => Z.eqb (id x) (id r)) merged = Some r)
  /\ (forall merged x, In x merged ->
        exists r, In r (drop_duplicates merged) /\ id r = id x)
  /\ (forall merged,
        NoDup (map id (drop_duplicates merged))
        /\ drop_duplicates (drop_duplicates merged) = drop_duplicates merged).
Proof.
  assert (Hrun : forall merged p, load_and_prepare_data merged = Ok p ->
            prepared p = drop_duplicates merged
            /\ removed_count p = count_true (duplicated merged)
            /\ _data_quality_checks (drop_duplicates merged) = Ok (quality p)).
  { intros merged p. unfold load_and_prepare_data.
    rewrite prepared_is_deduplicated.
    destruct (_data_quality_checks (drop_duplicates merged)) as [q|e]; simpl; [|discriminate].
    intro H. injection H as <-. simpl. auto. }
  assert (Hagain : forall d, NoDup (map id d) -> forall q,
            _data_quality_checks d = Ok q ->
            load_and_prepare_data d
            = Ok {| prepared := d; removed_count := O; quality := q |}).
  { intros d Hd q Hq. unfold load_and_prepare_data.
    rewrite prepared_is_deduplicated.
    destruct (drop_duplicates_fixpoint d Hd) as [-> ->].
    now rewrite Hq. }
  split; [|split; [|split; [|split]]].
  - intros merged Hnd.
    destruct (drop_duplicates_fixpoint merged Hnd) as [Hfix Hzero].
    split; [assumption|]. intros p Hp.
    destruct (Hrun _ _ Hp) as [H1 [H2 H3]].
    rewrite Hfix in H1, H3. rewrite Hzero in H2.
    split; [assumption|]. split; [assumption|].
    rewrite H1. rewrite (Hagain merged Hnd _ H3).
    destruct p; simpl in *. now subst.
  - intros merged p Hp. destruct (Hrun _ _ Hp) as [H1 [_ H3]].
    split; [assumption|]. rewrite H1.
    apply Hagain; [apply drop_duplicates_NoDup|assumption].
  - intros merged r Hr. unfold drop_duplicates in Hr.
    apply (@keep_first_is_first _ _ id Z.eqb Z.eqb_eq [] merged r Hr).
  - intros merged x Hx.
    apply (@keep_first_complete _ _ id Z.eqb Z.eqb_eq [] merged x Hx). intros [].
  - intro merged. split; [apply drop_duplicates_NoDup|].
    apply drop_duplicates_fixpoint, drop_duplicates_NoDup.
Qed.

(** ** The cross-tabulation and the quality checks *)

Lemma mem_true (g : string) (l : list string) : mem g l = true <-> In g l.
Proof. apply seen_true. apply String.eqb_eq. Qed.

Lemma mem_unique_strings (g : string) (l : list string) :
  mem g (unique_strings l) = mem g l.
Proof.
  apply eq_true_iff_eq. rewrite !mem_true. unfold unique_strings.
  pose proof (@keep_first_mem _ _ (fun x : string => x) String.eqb String.eqb_eq [] l g) as H.
  rewrite !map_id in H. rewrite H. simpl. tauto.
Qed.

Lemma assoc_tabulate (V : Type) (f : string -> V) (g : string) (idx : list string) :
  assoc g (map (fun k => (k, f k)) idx) = if mem g idx then Some (f g) else None.
Proof.
  unfold mem. induction idx as [|k t IH]; simpl; [reflexivity|].
  destruct (String.eqb g k) eqn:E; simpl.
  - apply String.eqb_eq in E. now subst.
  - exact IH.
Qed.

Lemma label_eq_some (x : option string) (g : string) :
  label_eq x (Some g) = true <-> x = Some g.
Proof.
  destruct x as [a|]; simpl; [|split; discriminate].
  rewrite String.eqb_eq. split; congruence.
Qed.

Lemma names_In (cs : list (option string)) (s : string) :
  In s (names cs) <-> In (Some s) cs.
Proof.
  unfold names. rewrite in_flat_map. split.
  - intros [[c|] [Hc Hs]]; simpl in Hs; [|contradiction].
    destruct Hs as [<- | []]. exact Hc.
  - intro H. exists (Some s). split; [exact H|now left].
Qed.

Lemma group_present (g : string) (d : frame) :
  mem g (names (map con_treat d)) = true <-> group_rows g d <> [].
Proof.
  rewrite mem_true, names_In. unfold group_rows. split.
  - intros H E. apply in_map_iff in H. destruct H as [r [Hg Hr]].
    assert (Hin : In r (filter (fun r => label_eq (con_treat r) (Some g)) d)).
    { apply filter_In. split; [assumption|]. now apply label_eq_some. }
    rewrite E in Hin. contradiction.
  - intro H.
    destruct (filter (fun r => label_eq (con_treat r) (Some g)) d) as [|r t] eqn:E;
      [contradiction|].
    assert (Hin : In r (filter (fun r => label_eq (con_treat r) (Some g)) d))
      by (rewrite E; now left).
    apply filter_In in Hin. destruct Hin as [Hin Hg].
    apply label_eq_some in Hg. apply in_map_iff. now exists r.
Qed.

Lemma group_absent (g : string) (d : frame) :
  mem g (names (map con_treat d)) = false <-> group_rows g d = [].
Proof.
  pose proof (group_present g d) as H.
  destruct (mem g (names (map con_treat d))); split; intro E.
  - discriminate.
  - exfalso. destruct H as [H _]. now apply H.
  - destruct (group_rows g d) eqn:G; [reflexivity|].
    destruct H as [_ H]. discriminate H. discriminate.
  - reflexivity.
Qed.

(** The rows of a group that enter the cross-tabulation are its rows with a
    page; on a frame without missing group or page nothing is left out. *)
Lemma tabulated_group (g : string) (d : frame) :
  group_rows g (tabulated d) = paged (group_rows g d).
Proof.
  unfold group_rows, tabulated, paged. induction d as [|r t IH]; [reflexivity|].
  cbn [filter].
  destruct (con_treat r) as [a|] eqn:Ea; destruct (page r) as [b|] eqn:Eb;
    cbn [isnull negb andb label_eq filter]; rewrite ?Ea, ?Eb;
    cbn [isnull negb andb label_eq filter];
    try (destruct (String.eqb a g); cbn [filter]; rewrite ?Eb;
         cbn [isnull negb filter]);
    rewrite ?IH; reflexivity.
Qed.

Lemma tabulated_incl (g : string) (d : frame) :
  group_rows g (tabulated d) <> [] -> group_rows g d <> [].
Proof.
  rewrite tabulated_group. unfold paged. intros H E. rewrite E in H. now apply H.
Qed.

(** A cell of the table counts the rows of the group with that page, whether
    the rows with a missing page are dropped first or not. *)
Lemma cell_count (d : frame) (g p : string) :
  length (filter (fun r => label_eq (page r) (Some p)) (group_rows g (tabulated d)))
  = shown d g p.
Proof.
  unfold shown. rewrite tabulated_group. unfold paged. f_equal.
  induction (group_rows g d) as [|r t IH]; [reflexivity|].
  cbn [filter].
  destruct (page r) as [a|] eqn:Ea; cbn [isnull negb label_eq filter];
    rewrite ?Ea; cbn [label_eq]; [|exact IH].
  destruct (String.eqb a p); now rewrite IH.
Qed.

Lemma loc_row_present (d : frame) (g : string) :
  group_rows g (tabulated d) <> [] -> loc_row (crosstab d) g = Ok (crosstab_row d g).
Proof.
  intro H. apply group_present in H. unfold loc_row, crosstab. simpl.
  rewrite (assoc_tabulate
             (fun g => map (fun p => (p, length (filter (fun r => label_eq (page r) (Some p))
                                                        (group_rows g (tabulated d)))))
                           (unique_strings (names (map page (tabulated d)))))).
  rewrite mem_unique_strings, H. reflexivity.
Qed.

Lemma loc_row_absent (d : frame) (g : string) :
  group_rows g (tabulated d) = [] -> loc_row (crosstab d) g = Raise (KeyError g).
Proof.
  intro H. apply group_absent in H. unfold loc_row, crosstab. simpl.
  rewrite (assoc_tabulate
             (fun g => map (fun p => (p, length (filter (fun r => label_eq (page r) (Some p))
                                                        (group_rows g (tabulated d)))))
                           (unique_strings (names (map page (tabulated d)))))).
  rewrite mem_unique_strings, H. reflexivity.
Qed.

Lemma loc_present (d : frame) (g p : string) :
  group_rows g (tabulated d) <> [] -> has_column (crosstab d) p = true ->
  loc (crosstab d) g p
  = Ok (length (filter (fun r => label_eq (page r) (Some p))
                       (group_rows g (tabulated d)))).
Proof.
  intros Hg Hp. unfold loc. rewrite (loc_row_present d g Hg). simpl.
  unfold crosstab_row.
  rewrite (assoc_tabulate
             (fun p => length (filter (fun r => label_eq (page r) (Some p))
                                      (group_rows g (tabulated d))))).
  unfold has_column in Hp. unfold mem. now rewrite Hp.
Qed.

Lemma loc_absent (d : frame) (g p : string) :
  group_rows g (tabulated d) = [] -> loc (crosstab d) g p = Raise (KeyError g).
Proof.
  intro Hg. unfold loc. now rewrite (loc_row_absent d g Hg).
Qed.

Lemma group_rows_dec (g : string) (d : frame) :
  {group_rows g d = []} + {group_rows g d <> []}.
Proof. destruct (group_rows g d); [left; reflexivity|right; discriminate]. Qed.

(** When each group has a row in the table every lookup of the checks
    succeeds. *)
Lemma quality_checks_ok (d : frame) :
  group_rows "control" (tabulated d) <> [] ->
  group_rows "treatment" (tabulated d) <> [] ->
  exists q, _data_quality_checks d = Ok q.
Proof.
  intros Hc Ht. unfold _data_quality_checks. cbv zeta.
  destruct (has_column (crosstab d) "new_page") eqn:En;
    [rewrite (loc_present d "control" "new_page" Hc En)|];
    (destruct (has_column (crosstab d) "old_page") eqn:Eo;
     [rewrite (loc_present d "treatment" "old_page" Ht Eo)|]);
    rewrite (loc_row_present d "control" Hc), (loc_row_present d "treatment" Ht);
    simpl; eexists; reflexivity.
Qed.

(** When a group has no row in the table the first lookup of its row raises
    [KeyError]. *)
Lemma quality_checks_raise (d : frame) :
  group_rows "control" (tabulated d) = []
  \/ group_rows "treatment" (tabulated d) = [] ->
  _data_quality_checks d = Raise (KeyError "control")
  \/ _data_quality_checks d = Raise (KeyError "treatment").
Proof.
  intro H. unfold _data_quality_checks. cbv zeta.
  destruct (group_rows_dec "control" (tabulated d)) as [Hc | Hc].
  - destruct (has_column (crosstab d) "new_page") eqn:En.
    + rewrite (loc_absent d "control" "new_page" Hc). now left.
    + destruct (group_rows_dec "treatment" (tabulated d)) as [Ht | Ht].
      * destruct (has_column (crosstab d) "old_page") eqn:Eo.
        -- rewrite (loc_absent d "treatment" "old_page" Ht). now right.
        -- rewrite (loc_row_absent d "control" Hc). now left.
      * destruct (has_column (crosstab d) "old_page") eqn:Eo;
          [rewrite (loc_present d "treatment" "old_page" Ht Eo)|];
          rewrite (loc_row_absent d "control" Hc); now left.
  - destruct H as [H | Ht]; [contradiction|].
    destruct (has_column (crosstab d) "new_page") eqn:En;
      [rewrite (loc_present d "control" "new_page" Hc En)|];
      (destruct (has_column (crosstab d) "old_page") eqn:Eo;
       [rewrite (loc_absent d "treatment" "old_page" Ht); now right|]);
      rewrite (loc_row_present d "control" Hc), (loc_row_absent d "treatment" Ht);
      now right.
Qed.

(** The total of a row of the cross-tabulation is the number of rows of its
    group that have a page, so a row that exists never has total 0: the
    [else 0] branches of the two misassignment rates are not reachable. *)
Lemma sum_pointwise (f h : string -> nat) (ps : list string) :
  list_sum (map (fun p => (f p + h p)%nat) ps)
  = (list_sum (map f ps) + list_sum (map h ps))%nat.
Proof. induction ps as [|p t IH]; simpl; [reflexivity|]. rewrite IH. lia. Qed.

Lemma sum_indicator (x : string) (ps : list string) :
  NoDup ps ->
  list_sum (map (fun p => if String.eqb x p then 1%nat else O) ps)
  = if mem x ps then 1%nat else O.
Proof.
  unfold mem. induction ps as [|p t IH]; intro Hnd; simpl; [reflexivity|].
  inversion Hnd as [|? ? Hp Hnd']; subst.
  rewrite (IH Hnd'). destruct (String.eqb x p) eqn:E; simpl; [|reflexivity].
  apply String.eqb_eq in E. subst.
  destruct (existsb (String.eqb p) t) eqn:M; [|reflexivity].
  apply (seen_true String.eqb String.eqb_eq) in M. contradiction.
Qed.

Lemma count_by_page (G : frame) (ps : list string) :
  NoDup ps -> (forall r, In r G -> exists p, page r = Some p /\ In p ps) ->
  list_sum (map (fun p => length (filter (fun r => label_eq (page r) (Some p)) G)) ps)
  = length G.
Proof.
  intro Hnd. induction G as [|r t IH]; intro Hall; simpl.
  - clear Hnd Hall. induction ps; simpl; auto.
  - destruct (Hall r (or_introl eq_refl)) as [a [Ea Ha]]. rewrite Ea. simpl.
    rewrite (map_ext _ (fun p => ((if String.eqb a p then 1 else 0)
                                  + length (filter (fun r => label_eq (page r) (Some p)) t))%nat)).
    + rewrite sum_pointwise, (sum_indicator _ Hnd), IH.
      * assert (M : mem a ps = true) by now apply mem_true.
        now rewrite M.
      * intros r' Hr'. apply Hall. now right.
    + intro p. destruct (String.eqb a p); reflexivity.
Qed.

Lemma row_total (d : frame) (g : string) :
  row_sum (crosstab_row d g) = length (group_rows g (tabulated d)).
Proof.
  unfold row_sum, crosstab_row. rewrite map_map. simpl.
  apply count_by_page.
  - unfold unique_strings.
    pose proof (@keep_first_NoDup _ _ (fun x : string => x) String.eqb String.eqb_eq
                                  [] (names (map page (tabulated d)))) as H.
    now rewrite map_id in H.
  - intros r Hr. unfold group_rows in Hr. apply filter_In in Hr. destruct Hr as [Hr _].
    assert (Hp : isnull (page r) = false).
    { unfold tabulated in Hr. apply filter_In in Hr. destruct Hr as [_ Hr].
      apply andb_true_iff in Hr. now destruct (isnull (page r)), Hr. }
    destruct (page r) as [a|] eqn:Ea; [|discriminate]. exists a. split; [reflexivity|].
    apply mem_true. rewrite mem_unique_strings. apply mem_true, names_In.
    rewrite <- Ea. now apply in_map.
Qed.

Lemma row_total_positive (d : frame) (g : string) (r : list (string * nat)) :
  loc_row (crosstab d) g = Ok r -> (0 < row_sum r)%nat.
Proof.
  destruct (group_rows_dec g (tabulated d)) as [E | E].
  - rewrite (loc_row_absent d g E). discriminate.
  - rewrite (loc_row_present d g E). intro H. injection H as <-.
    rewrite row_total. destruct (group_rows g (tabulated d)); [contradiction|simpl; lia].
Qed.

(** The outcome of the loader: it raises exactly when, after deduplication,
    a group has no row in the cross-tabulation (no observation with a page),
    with the [KeyError] of the lookup for that group. *)
Lemma loader_outcome (merged : frame) :
  (raises (load_and_prepare_data merged)
   <-> group_rows "control" (tabulated (drop_duplicates merged)) = []
       \/ group_rows "treatment" (tabulated (drop_duplicates merged)) = [])
  /\ (forall e, load_and_prepare_data merged = Raise e ->
        e = KeyError "control" \/ e = KeyError "treatment")
  /\ (group_rows "control" (tabulated (drop_duplicates merged)) <> [] ->
      group_rows "treatment" (tabulated (drop_duplicates merged)) <> [] ->
      exists p, load_and_prepare_data merged = Ok p
                /\ prepared p = drop_duplicates merged).
Proof.
  unfold load_and_prepare_data, raises. rewrite prepared_is_deduplicated.
  set (d := drop_duplicates merged).
  destruct (group_rows_dec "control" (tabulated d)) as [Hc | Hc];
    [|destruct (group_rows_dec "treatment" (tabulated d)) as [Ht | Ht]].
  - destruct (quality_checks_raise d (or_introl Hc)) as [E | E]; rewrite E; simpl.
    + split; [split; [auto|intros _; eexists; reflexivity]|].
      split; [intros e H; injection H as <-; auto|contradiction].
    + split; [split; [auto|intros _; eexists; reflexivity]|].
      split; [intros e H; injection H as <-; auto|contradiction].
  - destruct (quality_checks_raise d (or_intror Ht)) as [E | E]; rewrite E; simpl.
    + split; [split; [auto|intros _; eexists; reflexivity]|].
      split; [intros e H; injection H as <-; auto|contradiction].
    + split; [split; [auto|intros _; eexists; reflexivity]|].
      split; [intros e H; injection H as <-; auto|contradiction].
  - destruct (quality_checks_ok d Hc Ht) as [q E]. rewrite E. simpl.
    split; [split|split].
    + intros [e H]. discriminate.
    + intros [H | H]; contradiction.
    + intros e H. discriminate.
    + intros _ _. eexists. split; reflexivity.
Qed.

Lemma load_ok_inv (merged : frame) (p : preparation) :
  load_and_prepare_data merged = Ok p ->
  prepared p = drop_duplicates merged
  /\ removed_count p = count_true (duplicated merged)
  /\ _data_quality_checks (drop_duplicates merged) = Ok (quality p).
Proof.
  unfold load_and_prepare_data. rewrite prepared_is_deduplicated.
  destruct (_data_quality_checks (drop_duplicates merged)) as [q|e]; simpl; [|discriminate].
  intro H. injection H as <-. simpl. auto.
Qed.

(** What the constructor returns. *)
Lemma init_inv (merged : frame) (self : ABTestAnalyzer) :
  init merged = Ok self ->
  data self = drop_duplicates merged
  /\ alpha self = fin (5 # 100)
  /\ group_rows "control" (data self) <> []
  /\ group_rows "treatment" (data self) <> [].
Proof.
  unfold init. destruct (load_and_prepare_data merged) as [p|e] eqn:E; simpl; [|discriminate].
  intro H. injection H as <-. simpl.
  destruct (load_ok_inv _ E) as [Hp _]. rewrite Hp.
  split; [reflexivity|]. split; [reflexivity|].
  destruct (loader_outcome merged) as [[_ Hiff] _].
  split; apply tabulated_incl; intro Hempty.
  - assert (Hr : raises (load_and_prepare_data merged)) by (apply Hiff; now left).
    destruct Hr as [e He]. congruence.
  - assert (Hr : raises (load_and_prepare_data merged)) by (apply Hiff; now right).
    destruct Hr as [e He]. congruence.
Qed.

Lemma deduplication_witness :
  NoDup (map id two_countries)
  /\ count_true (duplicated two_countries) = O
  /\ (exists p, load_and_prepare_data two_countries = Ok p
                /\ removed_count p = O /\ prepared p = two_countries
                /\ load_and_prepare_data (prepared p) = Ok p)
  /\ find (fun x => Z.eqb (id x) 1) with_duplicates
     = Some (obs 1 "control" "old_page" 0 "US").
Proof.
  assert (H : NoDup (map id two_countries)).
  { simpl. repeat constructor; simpl; intuition discriminate. }
  split; [exact H|]. split; [|split].
  - exact (proj1 (proj1 deduplication_first_seen_idempotent two_countries H)).
  - destruct (proj2 (proj2 (loader_outcome two_countries))) as [p [Hp _]];
      [simpl; discriminate|simpl; discriminate|].
    exists p. split; [exact Hp|].
    exact (proj2 (proj1 deduplication_first_seen_idempotent two_countries H) p Hp).
  - apply (proj1 (proj2 (proj2 deduplication_first_seen_idempotent)) with_duplicates
                 (obs 1 "control" "old_page" 0 "US")).
    simpl. left. reflexivity.
Defined.

(** The report lists the missing cells of every column. *)
Lemma quality_checks_missing (d : frame) (q : quality_report) :
  _data_quality_checks d = Ok q -> missing q = isnull_sum d.
Proof.
  unfold _data_quality_checks. cbv zeta.
  repeat match goal with
         | |- context [if ?b then _ else _] => destruct b
         | |- context [loc ?t ?g ?p] => destruct (loc t g p); cbn [bind]
         | |- context [loc_row ?t ?g] => destruct (loc_row t g); cbn [bind]
         end;
    try discriminate; intro H; injection H as <-; reflexivity.
Qed.

(** C4 (counterexample).  Both groups have an observation, yet the loader
    raises: the only control row has no page, [pd.crosstab] leaves it out,
    and the lookup of the ['control'] row raises [KeyError].  A frame
    without control observations raises the same [KeyError], not an
    [EmptyGroupError]. *)
Lemma missing_page_raises_key_error :
  (exists r, group_rows "control" control_without_page = [r])
  /\ (exists r, group_rows "treatment" control_without_page = [r])
  /\ drop_duplicates control_without_page = control_without_page
  /\ load_and_prepare_data control_without_page = Raise (KeyError "control")
  /\ load_and_prepare_data treatment_only = Raise (KeyError "control").
Proof.
  split; [eexists; reflexivity|]. split; [eexists; reflexivity|].
  repeat split.
Qed.

(** C4 (amended).  No path of the loader raises [EmptyGroupError].  When,
    after deduplication, each group has an observation whose page is present,
    the loader never raises: it returns the deduplicated frame and the
    quality report, whatever the misassignment rates, the balance of the
    groups and the missing values are; the missing values are counted per
    column in the report.  So whenever it raises, a group has no observation
    with a page. *)
Theorem validator_raises_only_without_group (merged : frame) :
  (forall e, load_and_prepare_data merged = Raise e ->
     e <> EmptyGroupError
     /\ (paged (group_rows "control" (drop_duplicates merged)) = []
         \/ paged (group_rows "treatment" (drop_duplicates merged)) = []))
  /\ (paged (group_rows "control" (drop_duplicates merged)) <> [] ->
      paged (group_rows "treatment" (drop_duplicates merged)) <> [] ->
      exists p, load_and_prepare_data merged = Ok p
                /\ prepared p = drop_duplicates merged
                /\ missing (quality p)
                   = [ ("id", 0%nat);
                       ("con_treat",
                        length (filter (fun r => isnull (con_treat r)) (prepared p)));
                       ("page",
                        length (filter (fun r => isnull (page r)) (prepared p)));
                       ("converted", 0%nat);
                       ("country",
                        length (filter (fun r => isnull (country r)) (prepared p))) ]).
Proof.
  destruct (loader_outcome merged) as [Hiff [Hkey Hok]].
  rewrite !tabulated_group in Hiff, Hok.
  split.
  - intros e He. split.
    + destruct (Hkey e He) as [-> | ->]; discriminate.
    + apply Hiff. now exists e.
  - intros Hc Ht. destruct (Hok Hc Ht) as [p [Hp Hd]].
    exists p. split; [exact Hp|]. split; [exact Hd|].
    unfold load_and_prepare_data in Hp. cbv zeta in Hp.
    destruct (_data_quality_checks _) as [q|e] eqn:Eq; cbn [bind] in Hp; [|discriminate].
    injection Hp as <-. cbn [quality prepared].
    exact (quality_checks_missing _ Eq).
Qed.

Lemma validator_raises_witness :
  exists p, load_and_prepare_data with_missing_values = Ok p
            /\ prepared p = with_missing_values
            /\ assoc "page" (missing (quality p)) = Some 1%nat
            /\ assoc "con_treat" (missing (quality p)) = Some 1%nat
            /\ assoc "country" (missing (quality p)) = Some 1%nat.
Proof.
  destruct (proj2 (validator_raises_only_without_group with_missing_values))
    as [p [Hp [Hd Hm]]]; [simpl; discriminate|simpl; discriminate|].
  exists p. split; [exact Hp|]. split; [exact Hd|].
  rewrite Hm, Hd. repeat split.
Defined.

(** Without a ['new_page'] column the count of misassigned control rows is
    taken to be 0, and so is the rate the checks report; likewise for
    ['old_page'] and the treatment group. *)
Lemma zero_rate_of_counts (n : nat) : (0 < n)%nat -> fdiv (of_nat 0) (of_nat n) = Fin 0.
Proof.
  intro H. rewrite (fdiv_counts_pos 0 H). change (Fin 0) with (fin 0).
  apply fin_ext. change (Q_of_nat 0) with 0%Q. unfold Qdiv. ring.
Qed.

Lemma misassignment_zero_without_column (d : frame) (q : quality_report) :
  _data_quality_checks d = Ok q ->
  (has_column (crosstab d) "new_page" = false -> control_error_rate q = Fin 0)
  /\ (has_column (crosstab d) "old_page" = false -> treatment_error_rate q = Fin 0).
Proof.
  unfold _data_quality_checks. cbv zeta.
  destruct (has_column (crosstab d) "new_page") eqn:En;
    destruct (has_column (crosstab d) "old_page") eqn:Eo;
    repeat match goal with
           | |- context [loc ?t ?g ?p] => destruct (loc t g p); cbn [bind]
           | |- context [loc_row ?t ?g] =>
               let E := fresh "E" in
               destruct (loc_row t g) eqn:E; cbn [bind];
               [apply row_total_positive in E|]
           end;
    try discriminate;
    intro H; injection H as <-; cbn [control_error_rate treatment_error_rate];
    (split; intro; try discriminate);
    match goal with
    | H : (0 < ?n)%nat |- (if (0 <? ?n)%nat then _ else _) = _ =>
        let L := fresh "L" in
        assert (L : (0 <? n)%nat = true) by (now apply Nat.ltb_lt);
        rewrite L; now apply zero_rate_of_counts
    end.
Qed.

(** C10.  The misassignment computation is meant to be total: a group with
    no observation should get the rate 0.  On a frame without control
    observations it is not: the cross-tabulation has no ['control'] row and
    the lookup raises [KeyError] before the guard on the total is
    evaluated. *)
Theorem misassignment_rate_raises_on_absent_group :
  group_rows "control" treatment_only = []
  /\ has_column (crosstab treatment_only) "new_page" = true
  /\ loc (crosstab treatment_only) "control" "new_page" = Raise (KeyError "control")
  /\ loc_row (crosstab treatment_only) "control" = Raise (KeyError "control")
  /\ _data_quality_checks treatment_only = Raise (KeyError "control").
Proof. repeat split. Qed.

(** ** The result dictionary of [statistical_tests] *)

Lemma assoc_dict_set (V : Type) (k k' : string) (v : V) (d : list (string * V)) :
  assoc k (dict_set k' v d) = if String.eqb k k' then Some v else assoc k d.
Proof.
  induction d as [|[k0 v0] t IH]; simpl.
  - reflexivity.
  - destruct (String.eqb k' k0) eqn:E; simpl.
    + apply String.eqb_eq in E. subst k0.
      destruct (String.eqb k k'); reflexivity.
    + destruct (String.eqb k k0) eqn:E0.
      * apply String.eqb_eq in E0. subst k0.
        rewrite String.eqb_sym in E. now rewrite E.
      * exact IH.
Qed.

Lemma label_mem (c : option string) (cs : list (option string)) :
  existsb (label_same c) cs = true <-> In c cs.
Proof. apply seen_true. apply label_same_spec. Qed.

Lemma countries_nonempty (self : ABTestAnalyzer) :
  data self <> [] -> (0 < n_tests self)%nat.
Proof.
  unfold n_tests, countries, unique_labels.
  destruct (data self) as [|r t]; [contradiction|]. intros _. simpl. lia.
Qed.

Lemma bonferroni_alpha_ok (self : ABTestAnalyzer) :
  data self <> [] ->
  bonferroni_alpha self = Ok (fdiv (alpha self) (of_nat (n_tests self))).
Proof.
  intro H. apply countries_nonempty in H. unfold bonferroni_alpha, py_truediv.
  destruct (n_tests self); [lia|reflexivity].
Qed.

Lemma bonferroni_alpha_empty (self : ABTestAnalyzer) :
  data self = [] -> bonferroni_alpha self = Raise ZeroDivisionError.
Proof.
  intro H. unfold bonferroni_alpha, n_tests, countries. now rewrite H.
Qed.

Lemma bonferroni_alpha_inv (self : ABTestAnalyzer) (a : num) :
  bonferroni_alpha self = Ok a ->
  data self <> [] /\ a = fdiv (alpha self) (of_nat (n_tests self)).
Proof.
  intro H. destruct (data self) as [|r t] eqn:E.
  - rewrite (bonferroni_alpha_empty self E) in H. discriminate.
  - assert (Hne : data self <> []) by (rewrite E; discriminate).
    rewrite (bonferroni_alpha_ok self Hne) in H. injection H as <-.
    split; [discriminate|reflexivity].
Qed.

Lemma tested_spec (self : ABTestAnalyzer) (c : option string) :
  In c (tested self)
  <-> In c (countries self)
      /\ group_rows "control" (country_rows c (data self)) <> []
      /\ group_rows "treatment" (country_rows c (data self)) <> [].
Proof.
  unfold tested. rewrite filter_In, andb_true_iff, !Nat.ltb_lt.
  assert (G : forall (l : frame), (0 < length l)%nat <-> l <> []).
  { intro l. destruct l; simpl; split; intro H; try lia; try discriminate.
    contradiction. }
  rewrite !G. tauto.
Qed.

Lemma tested_le_n_tests (self : ABTestAnalyzer) :
  (length (tested self) <= n_tests self)%nat.
Proof. unfold tested, n_tests. apply filter_length_le. Qed.

Section AnalysisFacts.
Variable proportions_ztest : list nat -> list nat -> num * num.
Variable confint : nat -> nat -> num -> num * num.

Local Abbreviation overall := (overall_result proportions_ztest confint).
Local Abbreviation stratum := (country_result proportions_ztest confint).
Local Abbreviation step := (country_step proportions_ztest confint).
Local Abbreviation run := (statistical_tests proportions_ztest confint).

Lemma fold_step_assoc (self : ABTestAnalyzer) (a : num) (k : string)
      (cs : list (option string)) (init : results_dict) :
  assoc k (fold_left (step self a) cs init)
  = if existsb (label_same (Some k)) cs
    then match stratum self a (Some k) with
         | Some r => Some r
         | None => assoc k init
         end
    else assoc k init.
Proof.
  revert init. induction cs as [|c t IH]; intro init; cbn [fold_left existsb];
    [reflexivity|].
  rewrite IH.
  assert (Hstep : assoc k (step self a init c)
                  = if label_same (Some k) c
                    then match stratum self a (Some k) with
                         | Some r => Some r
                         | None => assoc k init
                         end
                    else assoc k init).
  { unfold country_step. destruct c as [name|]; simpl.
    - destruct (String.eqb k name) eqn:E.
      + apply String.eqb_eq in E. subst name.
        destruct (stratum self a (Some k)); [|reflexivity].
        now rewrite assoc_dict_set, String.eqb_refl.
      + destruct (stratum self a (Some name)); [|reflexivity].
        now rewrite assoc_dict_set, E.
    - destruct (stratum self a None); reflexivity. }
  rewrite Hstep.
  destruct (label_same (Some k) c); cbn [orb].
  - destruct (stratum self a (Some k));
      destruct (existsb (label_same (Some k)) t); reflexivity.
  - reflexivity.
Qed.

(** The dictionary returned by [statistical_tests], key by key. *)
Lemma run_assoc (self : ABTestAnalyzer) (res : results_dict) (k : string) :
  run self = Ok res ->
  exists a, bonferroni_alpha self = Ok a
    /\ assoc k res
       = match (if existsb (label_same (Some k)) (countries self)
                then stratum self a (Some k) else None) with
         | Some r => Some r
         | None => if String.eqb k "overall" then Some (overall self) else None
         end.
Proof.
  unfold statistical_tests.
  destruct (bonferroni_alpha self) as [a|e]; simpl; [|discriminate].
  intro H. injection H as <-. exists a. split; [reflexivity|].
  rewrite fold_step_assoc. simpl.
  destruct (existsb (label_same (Some k)) (countries self)); reflexivity.
Qed.

Lemma run_ok (self : ABTestAnalyzer) :
  data self <> [] -> exists res, run self = Ok res.
Proof.
  intro H. unfold statistical_tests. rewrite (bonferroni_alpha_ok self H). simpl.
  eexists. reflexivity.
Qed.

Lemma run_raise (self : ABTestAnalyzer) (e : exn) :
  run self = Raise e -> e = ZeroDivisionError /\ data self = [].
Proof.
  unfold statistical_tests. destruct (data self) as [|r t] eqn:E.
  - rewrite (bonferroni_alpha_empty self E). simpl. intro H. injection H as <-. auto.
  - assert (Hne : data self <> []) by (rewrite E; discriminate).
    rewrite (bonferroni_alpha_ok self Hne). simpl. discriminate.
Qed.

(** Every entry of the dictionary is the overall result under the key
    ['overall'], or the result of a country of the frame at the adjusted
    level. *)
Lemma run_entry (self : ABTestAnalyzer) (res : results_dict) (k : string)
      (r : TestResult) :
  run self = Ok res -> assoc k res = Some r ->
  (k = "overall" /\ r = overall self)
  \/ (exists a, bonferroni_alpha self = Ok a
                /\ In (Some k) (countries self)
                /\ stratum self a (Some k) = Some r).
Proof.
  intros Hrun Hk. destruct (run_assoc self k Hrun) as [a [Ha E]].
  rewrite Hk in E.
  destruct (existsb (label_same (Some k)) (countries self)) eqn:M.
  - destruct (stratum self a (Some k)) as [r'|] eqn:S.
    + injection E as ->. right. exists a. apply label_mem in M. auto.
    + destruct (String.eqb k "overall") eqn:K; [|discriminate].
      injection E as ->. apply String.eqb_eq in K. now left.
  - destruct (String.eqb k "overall") eqn:K; [|discriminate].
    injection E as ->. apply String.eqb_eq in K. now left.
Qed.

(** The fields of the two kinds of entries, in terms of the counts of
    their scope. *)
Lemma overall_fields (self : ABTestAnalyzer) :
  let r := overall self in
  let d := data self in
  control_rate r = scope_rate d "control"
  /\ treatment_rate r = scope_rate d "treatment"
  /\ effect_size r = fsub (treatment_rate r) (control_rate r)
  /\ relative_effect r
     = fmul (fdiv (effect_size r) (control_rate r)) (of_nat 100)
  /\ z_stat r = fst (scope_ztest proportions_ztest d)
  /\ p_value r = snd (scope_ztest proportions_ztest d)
  /\ ci_low r = fsub (fst (group_interval confint d "treatment" (alpha self)))
                     (snd (group_interval confint d "control" (alpha self)))
  /\ ci_high r = fsub (snd (group_interval confint d "treatment" (alpha self)))
                      (fst (group_interval confint d "control" (alpha self)))
  /\ significant r = Some (flt (p_value r) (alpha self))
  /\ p_value_adjusted r = None.
Proof.
  unfold overall_result, scope_ztest, scope_rate, group_interval. cbv zeta.
  destruct (proportions_ztest _ _) as [z p]. simpl.
  repeat split; reflexivity.
Qed.

Lemma stratum_fields (self : ABTestAnalyzer) (a : num) (c : option string)
      (r : TestResult) :
  stratum self a c = Some r ->
  let d := country_rows c (data self) in
  group_rows "control" d <> [] /\ group_rows "treatment" d <> []
  /\ control_rate r = scope_rate d "control"
  /\ treatment_rate r = scope_rate d "treatment"
  /\ effect_size r = fsub (treatment_rate r) (control_rate r)
  /\ relative_effect r
     = (if fgt (control_rate r) (of_nat 0)
        then fmul (fdiv (effect_size r) (control_rate r)) (of_nat 100)
        else of_nat 0)
  /\ z_stat r = fst (scope_ztest proportions_ztest d)
  /\ p_value r = snd (scope_ztest proportions_ztest d)
  /\ ci_low r = fsub (fst (group_interval confint d "treatment" a))
                     (snd (group_interval confint d "control" a))
  /\ ci_high r = fsub (snd (group_interval confint d "treatment" a))
                      (fst (group_interval confint d "control" a))
  /\ significant r = None
  /\ p_value_adjusted r = Some (flt (p_value r) a).
Proof.
  unfold country_result, scope_ztest, scope_rate, group_interval. cbv zeta.
  destruct (group_rows "control" (country_rows c (data self))) as [|rc tc] eqn:Ec;
    [simpl; discriminate|].
  destruct (group_rows "treatment" (country_rows c (data self))) as [|rt tt] eqn:Et;
    [simpl; discriminate|].
  cbn [length Nat.ltb Nat.leb andb].
  destruct (proportions_ztest _ _) as [z p]. cbn [proportion_confint].
  intro H. injection H as <-. cbn [control_rate treatment_rate effect_size
    relative_effect z_stat p_value ci_low ci_high significant p_value_adjusted fst snd].
  repeat split; try discriminate; reflexivity.
Qed.

Lemma stratum_skipped (self : ABTestAnalyzer) (a : num) (c : option string) :
  group_rows "control" (country_rows c (data self)) = []
  \/ group_rows "treatment" (country_rows c (data self)) = [] ->
  stratum self a c = None.
Proof.
  intro H. unfold country_result. cbv zeta.
  destruct H as [-> | ->]; simpl; [reflexivity|].
  now rewrite andb_false_r.
Qed.

Lemma stratum_tested (self : ABTestAnalyzer) (a : num) (c : option string) :
  group_rows "control" (country_rows c (data self)) <> [] ->
  group_rows "treatment" (country_rows c (data self)) <> [] ->
  exists r, stratum self a c = Some r.
Proof.
  intros Hc Ht. unfold country_result. cbv zeta.
  destruct (group_rows "control" (country_rows c (data self))); [contradiction|].
  destruct (group_rows "treatment" (country_rows c (data self))); [contradiction|].
  cbn [length Nat.ltb Nat.leb andb].
  destruct (proportions_ztest _ _) as [z p]. cbn [proportion_confint].
  eexists. reflexivity.
Qed.

(** Every country that passes the guard has its entry, computed at the
    adjusted level. *)
Lemma run_tested_entry (self : ABTestAnalyzer) (res : results_dict) (c : string) :
  run self = Ok res -> In (Some c) (tested self) ->
  exists a r, bonferroni_alpha self = Ok a
              /\ stratum self a (Some c) = Some r
              /\ assoc c res = Some r.
Proof.
  intros Hrun Hin. apply tested_spec in Hin. destruct Hin as [Hin [Hc Ht]].
  destruct (run_assoc self c Hrun) as [a [Ha E]].
  destruct (stratum_tested self a (Some c) Hc Ht) as [r Hr].
  exists a, r. split; [assumption|]. split; [assumption|].
  apply label_mem in Hin. now rewrite E, Hin, Hr.
Qed.

(** The key ['overall'] holds the overall result unless a tested country is
    itself labelled ['overall']. *)
Lemma run_overall_entry (self : ABTestAnalyzer) (res : results_dict) :
  run self = Ok res -> ~ In (Some "overall") (tested self) ->
  assoc "overall" res = Some (overall self).
Proof.
  intros Hrun Hnt. destruct (run_assoc self "overall" Hrun) as [a [_ E]]. rewrite E.
  destruct (existsb (label_same (Some "overall")) (countries self)) eqn:M;
    [|reflexivity].
  destruct (stratum self a (Some "overall")) as [r|] eqn:S; [|reflexivity].
  exfalso. apply Hnt. apply tested_spec. apply label_mem in M.
  pose proof (stratum_fields _ _ _ S) as H. cbv zeta in H. tauto.
Qed.

End AnalysisFacts.

(** ** Results per scope *)

Section ScopeResults.
Variable proportions_ztest : list nat -> list nat -> num * num.
Variable confint : nat -> nat -> num -> num * num.

Local Abbreviation overall := (overall_result proportions_ztest confint).
Local Abbreviation stratum := (country_result proportions_ztest confint).
Local Abbreviation run := (statistical_tests proportions_ztest confint).
Local Abbreviation interval := (group_interval confint).

(** C5. The interval for the difference is built from the two per-group
    intervals taken at the level of the scope: the analyzer's alpha for the
    overall entry, the Bonferroni-adjusted alpha for the entry of a country;
    the low bound is low(treatment) - high(control), the high bound is
    high(treatment) - low(control). *)
Theorem ci_difference_at_scope_alpha (self : ABTestAnalyzer) :
  (ci_low (overall self)
   = fsub (fst (interval (data self) "treatment" (alpha self)))
          (snd (interval (data self) "control" (alpha self)))
   /\ ci_high (overall self)
      = fsub (snd (interval (data self) "treatment" (alpha self)))
             (fst (interval (data self) "control" (alpha self))))
  /\ forall res k r,
       run self = Ok res -> assoc k res = Some r ->
       (k = "overall" /\ r = overall self)
       \/ (exists adjusted,
             bonferroni_alpha self = Ok adjusted
             /\ adjusted = fdiv (alpha self) (of_nat (n_tests self))
             /\ ci_low r
                = fsub (fst (interval (country_rows (Some k) (data self)) "treatment" adjusted))
                       (snd (interval (country_rows (Some k) (data self)) "control" adjusted))
             /\ ci_high r
                = fsub (snd (interval (country_rows (Some k) (data self)) "treatment" adjusted))
                       (fst (interval (country_rows (Some k) (data self)) "control" adjusted))).
Proof.
  split.
  - pose proof (overall_fields proportions_ztest confint self) as H. cbv zeta in H.
    tauto.
  - intros res k r Hrun Hk.
    destruct (run_entry _ _ _ _ Hrun Hk) as [Ho | [a [Ha [_ Hs]]]]; [now left|].
    right. exists a. split; [assumption|].
    split; [apply (bonferroni_alpha_inv _ Ha)|].
    pose proof (stratum_fields _ _ _ _ _ Hs) as H. cbv zeta in H. tauto.
Qed.


End ScopeResults.

Lemma ci_difference_witness :
  exists res r,
    statistical_tests ztest_ref normal_confint (analyzer_of two_countries) = Ok res
    /\ assoc "UK" res = Some r
    /\ ci_low r
       = fsub (fst (group_interval normal_confint
                      (country_rows (Some "UK") two_countries) "treatment" (fin (1 # 40))))
              (snd (group_interval normal_confint
                      (country_rows (Some "UK") two_countries) "control" (fin (1 # 40)))).
Proof.
  destruct (run_ok ztest_ref normal_confint (analyzer_of two_countries)) as [res Hrun];
    [discriminate|].
  assert (Hin : In (Some "UK") (tested (analyzer_of two_countries)))
    by (right; left; reflexivity).
  destruct (run_tested_entry _ _ _ _ Hrun Hin) as [a [r [_ [_ Hk]]]].
  exists res, r. split; [exact Hrun|]. split; [exact Hk|].
  destruct (proj2 (ci_difference_at_scope_alpha ztest_ref normal_confint
                     (analyzer_of two_countries)) res "UK" r Hrun Hk)
    as [[Hk' _] | [a' [_ [Heq [Hlow _]]]]]; [discriminate|].
  assert (Ea : a' = fin (1 # 40)) by (rewrite Heq; reflexivity).
  rewrite Ea in Hlow. exact Hlow.
Defined.


(** ** Relative effect at a control rate of 0 *)

Lemma scope_rate_cases (scope : frame) (g : string) :
  scope_rate scope g = NaN
  \/ exists q, scope_rate scope g = Fin q /\ (0 <= q)%Q.
Proof.
  unfold scope_rate. destruct (group_rows g scope) as [|r t] eqn:E.
  - left. reflexivity.
  - right. destruct (rate_finite (conversions (r :: t)) (b := length (r :: t)))
      as [q [H1 [_ H3]]]; [simpl; lia|].
    exists q. split; assumption.
Qed.

Lemma scope_rate_empty (scope : frame) (g : string) :
  group_rows g scope = [] -> scope_rate scope g = NaN.
Proof. intro H. unfold scope_rate. now rewrite H. Qed.

(** The unguarded quotient of the overall scope at a control rate of 0. *)
Lemma relative_effect_unguarded_zero (t : num) :
  t = NaN \/ (exists q, t = Fin q /\ (0 <= q)%Q) ->
  fmul (fdiv (fsub t (Fin 0)) (Fin 0)) (of_nat 100)
  = if flt (Fin 0) t then PInf else NaN.
Proof.
  intros [-> | [q [-> Hq]]]; [reflexivity|].
  unfold fsub, fdiv, fin, flt.
  assert (E0 : Qeq_bool 0 0 = true) by reflexivity. rewrite E0.
  destruct (Qltb 0 q) eqn:L.
  - apply Qltb_true in L.
    assert (Hpos : (0 < Qred (q - 0))%Q) by (rewrite Qred_correct; lra).
    assert (E1 : Qeq_bool (Qred (q - 0)) 0 = false).
    { apply Qeq_bool_false. intro E. rewrite E in Hpos. now apply Qlt_irrefl in Hpos. }
    apply Qltb_true in Hpos. rewrite E1, Hpos. reflexivity.
  - apply Qltb_false in L.
    assert (E1 : Qeq_bool (Qred (q - 0)) 0 = true).
    { apply Qeq_bool_iff. rewrite Qred_correct. lra. }
    rewrite E1. reflexivity.
Qed.

(** The quotient at a positive control rate. *)
Lemma relative_effect_positive (c t : Q) :
  (0 < c)%Q ->
  exists q, fmul (fdiv (fsub (Fin t) (Fin c)) (Fin c)) (of_nat 100) = Fin q
            /\ (q == (t - c) / c * 100)%Q.
Proof.
  intro Hc. unfold fsub, fdiv, fmul, of_nat, fin.
  assert (E : Qeq_bool c 0 = false).
  { apply Qeq_bool_false. intro E. rewrite E in Hc. now apply Qlt_irrefl in Hc. }
  rewrite E. eexists. split; [reflexivity|].
  rewrite !Qred_correct. reflexivity.
Qed.

Section RelativeEffect.
Variable proportions_ztest : list nat -> list nat -> num * num.
Variable confint : nat -> nat -> num -> num * num.

Local Abbreviation overall := (overall_result proportions_ztest confint).
Local Abbreviation stratum := (country_result proportions_ztest confint).
Local Abbreviation run := (statistical_tests proportions_ztest confint).

(** What the unguarded division of the overall test yields at a control
    rate of 0: plus infinity when the treatment rate is positive,
    not-a-number otherwise. *)
Lemma overall_relative_effect_at_zero (self : ABTestAnalyzer) :
  control_rate (overall self) = Fin 0 ->
  relative_effect (overall self)
  = if flt (Fin 0) (treatment_rate (overall self)) then PInf else NaN.
Proof.
  pose proof (overall_fields proportions_ztest confint self) as Ho. cbv zeta in Ho.
  destruct Ho as [Hc [Ht [He [Hr _]]]].
  intro Hz. rewrite Hr, He, Hz. apply relative_effect_unguarded_zero.
  rewrite Ht. apply scope_rate_cases.
Qed.

(** C1 (amended).  For a country whose control rate is exactly 0 the guard of
    the loop reports a relative effect of 0.  At a positive control rate both
    scopes report (treatment rate - control rate) / control rate * 100.  A
    zero control rate raises nothing: on a non-empty frame the call returns
    its dictionary. *)
Theorem relative_effect_by_scope (self : ABTestAnalyzer) :
  (forall a c r, stratum self a c = Some r ->
     control_rate r = Fin 0 -> relative_effect r = Fin 0)
  /\ (forall r, r = overall self \/ (exists a c, stratum self a c = Some r) ->
        forall c t, control_rate r = Fin c -> (0 < c)%Q -> treatment_rate r = Fin t ->
        exists q, relative_effect r = Fin q /\ (q == (t - c) / c * 100)%Q)
  /\ (data self <> [] -> exists res, run self = Ok res).
Proof.
  pose proof (overall_fields proportions_ztest confint self) as Ho. cbv zeta in Ho.
  destruct Ho as [Hc [Ht [He [Hr _]]]].
  split; [|split].
  - intros a c r Hs Hz.
    pose proof (stratum_fields _ _ _ _ _ Hs) as H. cbv zeta in H.
    destruct H as [_ [_ [_ [_ [_ [Hrel _]]]]]].
    rewrite Hrel, Hz. reflexivity.
  - intros r [-> | [a [k Hs]]] c t Hcr Hpos Htr.
    + rewrite Hr, He, Hcr, Htr. now apply relative_effect_positive.
    + pose proof (stratum_fields _ _ _ _ _ Hs) as H. cbv zeta in H.
      destruct H as [_ [_ [_ [_ [He' [Hrel _]]]]]].
      rewrite Hrel, He', Hcr, Htr.
      assert (G : fgt (Fin c) (of_nat 0) = true).
      { unfold fgt, flt, of_nat, fin. apply Qltb_true. rewrite Qred_correct.
        exact Hpos. }
      rewrite G. now apply relative_effect_positive.
  - apply run_ok.
Qed.

End RelativeEffect.

(** C1 (counterexample).  The control arm of the US has no conversion: the
    entry of the US reports a relative effect of 0, not not-a-number. *)
Lemma zero_control_rate_reports_zero :
  exists res r,
    statistical_tests ztest_ref normal_confint (analyzer_of two_countries) = Ok res
    /\ assoc "US" res = Some r
    /\ control_rate r = Fin 0
    /\ relative_effect r = Fin 0
    /\ is_nan (relative_effect r) = false.
Proof.
  destruct (run_ok ztest_ref normal_confint (analyzer_of two_countries)) as [res Hrun];
    [discriminate|].
  assert (Hin : In (Some "US") (tested (analyzer_of two_countries)))
    by (left; reflexivity).
  destruct (run_tested_entry _ _ _ _ Hrun Hin) as [a [r [_ [Hs Hk]]]].
  pose proof (stratum_fields _ _ _ _ _ Hs) as H. cbv zeta in H.
  destruct H as [_ [_ [Hc [_ [_ [Hrel _]]]]]].
  assert (Hzero : control_rate r = Fin 0) by (rewrite Hc; reflexivity).
  assert (Hr : relative_effect r = Fin 0) by (rewrite Hrel, Hzero; reflexivity).
  exists res, r. repeat split; try assumption. now rewrite Hr.
Qed.

Lemma relative_effect_witness :
  exists r,
    country_result ztest_ref normal_confint (analyzer_of two_countries)
                   (fin (1 # 40)) (Some "UK") = Some r
    /\ control_rate r = Fin 1 /\ treatment_rate r = Fin (1 # 2)
    /\ exists q, relative_effect r = Fin q /\ (q == ((1 # 2) - 1) / 1 * 100)%Q.
Proof.
  destruct (stratum_tested ztest_ref normal_confint (analyzer_of two_countries)
                           (fin (1 # 40)) (Some "UK")) as [r Hs];
    [discriminate|discriminate|].
  pose proof (stratum_fields _ _ _ _ _ Hs) as H. cbv zeta in H.
  destruct H as [_ [_ [Hc [Ht _]]]].
  assert (Hc1 : control_rate r = Fin 1) by (rewrite Hc; reflexivity).
  assert (Ht1 : treatment_rate r = Fin (1 # 2)) by (rewrite Ht; reflexivity).
  exists r. split; [exact Hs|]. split; [exact Hc1|]. split; [exact Ht1|].
  apply (proj1 (proj2 (relative_effect_by_scope ztest_ref normal_confint
                         (analyzer_of two_countries))) r).
  - right. exists (fin (1 # 40)), (Some "UK"). exact Hs.
  - exact Hc1.
  - reflexivity.
  - exact Ht1.
Defined.

(** ** Scopes with an empty arm *)

Section ZeroTrials.
Variable proportions_ztest : list nat -> list nat -> num * num.
Variable confint : nat -> nat -> num -> num * num.

Local Abbreviation overall := (overall_result proportions_ztest confint).
Local Abbreviation stratum := (country_result proportions_ztest confint).
Local Abbreviation run := (statistical_tests proportions_ztest confint).

(** The guard of the country loop, stratum by stratum. *)
Lemma strata_by_guard (self : ABTestAnalyzer) (res : results_dict) (c : string) :
  run self = Ok res ->
  (group_rows "control" (country_rows (Some c) (data self)) = []
   \/ group_rows "treatment" (country_rows (Some c) (data self)) = [] ->
   (forall a, stratum self a (Some c) = None)
   /\ (c <> "overall" -> assoc c res = None))
  /\ (In (Some c) (tested self) ->
      exists a r, bonferroni_alpha self = Ok a
                  /\ stratum self a (Some c) = Some r
                  /\ assoc c res = Some r).
Proof.
  intro Hrun. split.
  - intro Hempty.
    assert (Hs : forall a, stratum self a (Some c) = None)
      by (intro a; now apply stratum_skipped).
    split; [assumption|]. intro Hne.
    destruct (run_assoc _ _ _ c Hrun) as [a [_ E]]. rewrite E, (Hs a).
    destruct (existsb (label_same (Some c)) (countries self));
      (destruct (String.eqb c "overall") eqn:K; [|reflexivity];
       apply String.eqb_eq in K; contradiction).
  - intro Hin. exact (run_tested_entry _ _ _ _ Hrun Hin).
Qed.

(** C3 (amended).  No path raises [InsufficientDataError].  At overall scope
    an empty arm aborts the whole analysis: the constructor raises and
    returns no analyzer, so no test is run; on every analyzer it does return
    both overall arms are non-empty and [statistical_tests] returns its
    dictionary.  At stratum scope a country with an empty arm is skipped by
    the guard of the loop: no entry is written for it, so its key is absent
    from the dictionary (unless the key is ['overall']), while every country
    with both arms present has its entry, computed at the adjusted level. *)
Theorem zero_trials_by_scope (merged : frame) :
  (forall e, init merged = Raise e -> e <> InsufficientDataError)
  /\ (group_rows "control" (drop_duplicates merged) = []
      \/ group_rows "treatment" (drop_duplicates merged) = [] ->
      raises (init merged))
  /\ (forall self, init merged = Ok self ->
        group_rows "control" (data self) <> []
        /\ group_rows "treatment" (data self) <> []
        /\ (forall e, run self = Raise e -> False)
        /\ exists res,
             run self = Ok res
             /\ (forall c,
                   group_rows "control" (country_rows (Some c) (data self)) = []
                   \/ group_rows "treatment" (country_rows (Some c) (data self)) = [] ->
                   (forall a, stratum self a (Some c) = None)
                   /\ (c <> "overall" -> assoc c res = None))
             /\ (forall c,
                   In (Some c) (tested self) ->
                   exists a r, bonferroni_alpha self = Ok a
                               /\ stratum self a (Some c) = Some r
                               /\ assoc c res = Some r)).
Proof.
  destruct (loader_outcome merged) as [[_ Hraise] [Hkey _]].
  split; [|split].
  - unfold init. intros e H.
    destruct (load_and_prepare_data merged) as [p|e'] eqn:E; cbn [bind] in H;
      [discriminate|].
    injection H as <-. destruct (Hkey e' eq_refl) as [-> | ->]; discriminate.
  - intro Hempty.
    assert (Hr : raises (load_and_prepare_data merged)).
    { apply Hraise. rewrite !tabulated_group.
      destruct Hempty as [-> | ->]; [left|right]; reflexivity. }
    destruct Hr as [e He]. exists e. unfold init. now rewrite He.
  - intros self Hself. destruct (init_inv _ Hself) as [_ [_ [Hc Ht]]].
    assert (Hne : data self <> []).
    { intro E. apply Hc. now rewrite E. }
    destruct (run_ok proportions_ztest confint self Hne) as [res Hrun].
    split; [exact Hc|]. split; [exact Ht|].
    split; [intros e He; rewrite Hrun in He; discriminate|].
    exists res. split; [exact Hrun|].
    split; intro c; apply (@strata_by_guard self res c Hrun).
Qed.

End ZeroTrials.

(** C3 (counterexample).  With no observation in the control group the
    analysis is aborted by a [KeyError] of the constructor, not by an
    [InsufficientDataError]; and where the UK has no treatment observation
    nothing is raised at all: the constructor returns, [statistical_tests]
    returns its dictionary, and the UK is left out of it. *)
Lemma zero_trials_raise_no_such_error :
  init treatment_only = Raise (KeyError "control")
  /\ init one_sided_country = Ok (analyzer_of one_sided_country)
  /\ (exists r, group_rows "control"
                  (country_rows (Some "UK") one_sided_country) = [r])
  /\ group_rows "treatment" (country_rows (Some "UK") one_sided_country) = []
  /\ exists res,
       statistical_tests ztest_ref normal_confint (analyzer_of one_sided_country) = Ok res
       /\ assoc "UK" res = None.
Proof.
  split; [reflexivity|]. split; [reflexivity|].
  split; [eexists; reflexivity|]. split; [reflexivity|].
  destruct (run_ok ztest_ref normal_confint (analyzer_of one_sided_country))
    as [res Hrun]; [discriminate|].
  exists res. split; [exact Hrun|].
  apply (proj1 (@strata_by_guard ztest_ref normal_confint _ _ "UK" Hrun));
    [right; reflexivity|discriminate].
Qed.

Lemma zero_trials_witness :
  exists self res a r,
    init one_sided_country = Ok self
    /\ statistical_tests ztest_ref normal_confint self = Ok res
    /\ bonferroni_alpha self = Ok a
    /\ country_result ztest_ref normal_confint self a (Some "US") = Some r
    /\ assoc "US" res = Some r
    /\ assoc "UK" res = None.
Proof.
  destruct (proj2 (proj2 (zero_trials_by_scope ztest_ref normal_confint
                            one_sided_country))
                  (analyzer_of one_sided_country) eq_refl)
    as [_ [_ [_ [res [Hrun [Hskip Htest]]]]]].
  destruct (Htest "US") as [a [r [Ha [Hs Hk]]]]; [simpl; left; reflexivity|].
  exists (analyzer_of one_sided_country), res, a, r.
  split; [reflexivity|]. split; [exact Hrun|]. split; [exact Ha|].
  split; [exact Hs|]. split; [exact Hk|].
  apply (proj2 (Hskip "UK" (or_intror eq_refl))). discriminate.
Defined.

(** ** The Bonferroni divisor *)

(** C2.  The number of strata used for the Bonferroni correction should be
    the number of strata with both groups present.  On a frame where the UK
    has control observations only, the loop tests one country, yet the
    divisor is the number of distinct labels, 2: the adjusted level is 0.05/2
    where the number of tested countries gives 0.05/1.  The plot of the same
    results draws its Bonferroni line at 0.05 divided by the number of
    countries in the dictionary, 0.05/1. *)
Theorem bonferroni_divisor_counts_skipped_country :
  n_tests (analyzer_of one_sided_country) = 2%nat
  /\ tested (analyzer_of one_sided_country) = [Some "US"]
  /\ bonferroni_alpha (analyzer_of one_sided_country) = Ok (Fin (1 # 40))
  /\ py_truediv (alpha (analyzer_of one_sided_country))
                (length (tested (analyzer_of one_sided_country)))
     = Ok (Fin (1 # 20))
  /\ exists res,
       statistical_tests ztest_ref normal_confint (analyzer_of one_sided_country) = Ok res
       /\ map fst res = ["overall"; "US"]
       /\ plotted_bonferroni res = Ok (Fin (1 # 20)).
Proof.
  split; [reflexivity|]. split; [reflexivity|]. split; [reflexivity|].
  split; [reflexivity|].
  eexists. split; [vm_compute; reflexivity|]. split; reflexivity.
Qed.

(** ** Rates and counts *)

Lemma ratio_in_unit (m n : nat) :
  (0 < n)%nat -> (m <= n)%nat ->
  exists a, fdiv (of_nat m) (of_nat n) = Fin a
            /\ (a == Q_of_nat m / Q_of_nat n)%Q /\ (0 <= a <= 1)%Q.
Proof.
  intros Hn Hm. destruct (rate_finite m Hn) as [a [Ha [Hv Hpos]]].
  exists a. split; [exact Ha|]. split; [exact Hv|]. split; [exact Hpos|].
  rewrite Hv. apply Qle_shift_div_r; [now apply Q_of_nat_pos|].
  rewrite Qmult_1_l. now apply Q_of_nat_le.
Qed.

Lemma conversions_le_length (d : frame) :
  Forall (fun r => (converted r <= 1)%nat) d -> (conversions d <= length d)%nat.
Proof.
  unfold conversions. induction 1 as [|r t Hr _ IH]; simpl; lia.
Qed.

Lemma binary_filter (f : row -> bool) (d : frame) :
  Forall (fun r => (converted r <= 1)%nat) d ->
  Forall (fun r => (converted r <= 1)%nat) (filter f d).
Proof.
  rewrite !Forall_forall. intros H r Hr. apply filter_In in Hr. now apply H.
Qed.

Lemma scope_rate_unit (scope : frame) (g : string) :
  group_rows g scope <> [] ->
  Forall (fun r => (converted r <= 1)%nat) scope ->
  exists q, scope_rate scope g = Fin q /\ (0 <= q <= 1)%Q.
Proof.
  intros Hne Hb. unfold scope_rate.
  destruct (ratio_in_unit (m := conversions (group_rows g scope))
                          (n := length (group_rows g scope))) as [q [Hq [_ Hr]]].
  - destruct (group_rows g scope); [contradiction|simpl; lia].
  - apply conversions_le_length. now apply binary_filter.
  - now exists q.
Qed.

Lemma fdiv_by_count (a : Q) (k : nat) :
  (0 < k)%nat -> fdiv (Fin a) (of_nat k) = fin (a / Q_of_nat k).
Proof.
  intro Hk. unfold fdiv, of_nat, fin.
  assert (Hq : (0 < Q_of_nat k)%Q) by now apply Q_of_nat_pos.
  assert (E : Qeq_bool (Qred (Q_of_nat k)) 0 = false)
    by (apply Qeq_bool_false; rewrite Qred_correct; lra).
  rewrite E. f_equal. apply Qred_complete. now rewrite Qred_correct.
Qed.

(** ** Power analysis *)

(** The power estimate is [ttest_power] applied to Cohen's h of the two
    overall rates, the mean of the two group sizes and the analyzer's alpha. *)
Lemma power_analysis_structure
      (ttest_power : num -> num -> num -> num) (np_arcsin np_sqrt : num -> num)
      (self : ABTestAnalyzer) :
  let d := data self in
  power_analysis ttest_power np_arcsin np_sqrt self
  = ttest_power
      (fmul (of_nat 2)
            (fsub (np_arcsin (np_sqrt (scope_rate d "treatment")))
                  (np_arcsin (np_sqrt (scope_rate d "control")))))
      (fdiv (of_nat (length (group_rows "control" d) + length (group_rows "treatment" d)))
            (of_nat 2))
      (alpha self).
Proof.
  unfold power_analysis, cohen_h, series_mean, scope_rate, conversions. cbv zeta.
  now rewrite !length_map.
Qed.

Lemma flt_fin_pos (b v : Q) : (b < v)%Q -> flt (fin b) (Fin v) = true.
Proof. intro H. unfold fin. cbn [flt]. apply Qltb_true. now rewrite Qred_correct. Qed.

Section PowerRange.
Variables t_isf t_ppf : num -> num -> num.
Variables nct_sf nct_cdf : num -> num -> num -> num.
Variables np_arcsin np_sqrt : num -> num.

Local Abbreviation power := (ttest_power t_isf t_ppf nct_sf nct_cdf np_sqrt).

(** With one observation the t distribution has no degree of freedom left:
    the critical value is not-a-number and so is the power. *)
Lemma ttest_power_without_df (effect_size alpha : num) :
  (forall q df, flt (of_nat 0) df = false -> t_isf q df = NaN) ->
  power effect_size (Fin 1) alpha = NaN.
Proof.
  intro H. unfold ttest_power. cbv zeta.
  assert (E : fsub (Fin 1) (of_nat 1) = Fin 0) by reflexivity.
  rewrite E, (H _ (Fin 0) eq_refl). cbn [is_nan].
  destruct (is_nan _); reflexivity.
Qed.

Lemma power_analysis_without_df (self : ABTestAnalyzer) :
  (forall q df, flt (of_nat 0) df = false -> t_isf q df = NaN) ->
  (length (group_rows "control" (data self))
   + length (group_rows "treatment" (data self)) = 2)%nat ->
  power_analysis power np_arcsin np_sqrt self = NaN.
Proof.
  intros H Hn.
  pose proof (power_analysis_structure power np_arcsin np_sqrt self) as S.
  cbv zeta in S. rewrite S, Hn.
  assert (E : fdiv (of_nat 2) (of_nat 2) = Fin 1) by reflexivity.
  rewrite E. now apply ttest_power_without_df.
Qed.

(** What the development assumes of the numeric primitives: scipy's t
    quantiles are not-a-number without positive degrees of freedom and
    finite and ordered otherwise; the two tails of the noncentral t
    distribution are probabilities of disjoint events; the square root is
    finite on non-negative numbers and the arcsine finite on the square
    roots of proportions. *)
Hypothesis t_isf_invalid :
  forall q df, flt (of_nat 0) df = false -> t_isf q df = NaN.
Hypothesis t_critical :
  forall q v, (0 < q)%Q -> (q <= 1 # 2)%Q -> (0 < v)%Q ->
  exists lo hi, t_ppf (Fin q) (Fin v) = Fin lo /\ t_isf (Fin q) (Fin v) = Fin hi
                /\ (lo <= hi)%Q.
Hypothesis nct_tails :
  forall x y v c, (0 < v)%Q -> (y <= x)%Q ->
  exists a b, nct_sf (Fin x) (Fin v) (Fin c) = Fin a
              /\ nct_cdf (Fin y) (Fin v) (Fin c) = Fin b
              /\ (0 <= a)%Q /\ (0 <= b)%Q /\ (a + b <= 1)%Q.
Hypothesis sqrt_finite : forall q, (0 <= q)%Q -> finite (np_sqrt (Fin q)).
Hypothesis arcsin_sqrt_finite :
  forall q, (0 <= q <= 1)%Q -> finite (np_arcsin (np_sqrt (Fin q))).

Lemma ttest_power_in_unit (h n a : Q) :
  (1 < n)%Q -> (0 < a)%Q -> (a <= 1)%Q ->
  in_unit (power (Fin h) (Fin n) (Fin a)).
Proof.
  intros Hn Ha0 Ha1. unfold ttest_power. cbv zeta.
  assert (Edf : exists v, fsub (Fin n) (of_nat 1) = Fin v /\ (0 < v)%Q).
  { exists (Qred (n - Qred (Q_of_nat 1))). split; [reflexivity|].
    rewrite !Qred_correct. change (Q_of_nat 1) with 1%Q. lra. }
  destruct Edf as [v [-> Hv]].
  assert (Eq : exists q, fdiv (Fin a) (of_nat 2) = Fin q
                         /\ (0 < q)%Q /\ (q <= 1 # 2)%Q).
  { rewrite fdiv_by_count by lia. exists (Qred (a / Q_of_nat 2)).
    split; [reflexivity|]. rewrite Qred_correct. change (Q_of_nat 2) with 2%Q.
    split; [apply Qlt_shift_div_l; lra|apply Qle_shift_div_r; lra]. }
  destruct Eq as [q [-> [Hq0 Hq1]]].
  destruct (t_critical Hq0 Hq1 Hv) as [lo [hi [-> [-> Hle]]]].
  cbn [is_nan].
  destruct (sqrt_finite (q := n)) as [s Hs]; [lra|]. rewrite Hs.
  cbn [fmul]. unfold fin.
  destruct (nct_tails (Qred (h * s)) Hv Hle) as [x [y [-> [-> [Hx [Hy Hxy]]]]]].
  cbn [fadd]. unfold fin, in_unit. rewrite Qred_correct. lra.
Qed.


End PowerRange.

(** The stand-ins satisfy what is assumed of the primitives. *)
Lemma t_isf_ref_invalid (q df : num) :
  flt (of_nat 0) df = false -> t_isf_ref q df = NaN.
Proof. unfold t_isf_ref. now intros ->. Qed.

Lemma t_ref_critical (q v : Q) :
  (0 < q)%Q -> (q <= 1 # 2)%Q -> (0 < v)%Q ->
  exists lo hi, t_ppf_ref (Fin q) (Fin v) = Fin lo /\ t_isf_ref (Fin q) (Fin v) = Fin hi
                /\ (lo <= hi)%Q.
Proof.
  intros _ _ Hv. unfold t_ppf_ref, t_isf_ref.
  assert (E : flt (of_nat 0) (Fin v) = true)
    by (unfold of_nat; apply flt_fin_pos; exact Hv).
  rewrite E. cbn [norm_isf]. unfold fin. cbn [fabs fneg]. unfold fin.
  eexists. eexists. split; [reflexivity|]. split; [reflexivity|].
  rewrite !Qred_correct.
  match goal with
  | |- context [Qabs ?z] => pose proof (Qabs_nonneg z) as G; set (w := Qabs z) in *
  end.
  lra.
Qed.

Lemma nct_ref_tails (x y v c : Q) :
  (0 < v)%Q -> (y <= x)%Q ->
  exists a b, nct_sf_ref (Fin x) (Fin v) (Fin c) = Fin a
              /\ nct_cdf_ref (Fin y) (Fin v) (Fin c) = Fin b
              /\ (0 <= a)%Q /\ (0 <= b)%Q /\ (a + b <= 1)%Q.
Proof.
  intros Hv Hxy. unfold nct_sf_ref, nct_cdf_ref, point_tail.
  assert (E : Qltb 0 v = true) by now apply Qltb_true.
  rewrite E.
  destruct (Qltb x c) eqn:Ex; destruct (Qltb y c) eqn:Ey; cbn [Bool.eqb];
    eexists; eexists; (split; [reflexivity|]); (split; [reflexivity|]);
    unfold Qle; cbn; try lia.
  exfalso. apply Qltb_true in Ex. apply Qltb_false in Ey. lra.
Qed.

Lemma sqrt_ref_finite (q : Q) : (0 <= q)%Q -> finite (sqrt_ref (Fin q)).
Proof.
  intro H. unfold sqrt_ref, fsqrt.
  assert (E : Qltb q 0 = false) by now apply Qltb_false.
  rewrite E. destruct (Qeq_bool q 0); eexists; reflexivity.
Qed.

Lemma arcsin_sqrt_ref_finite (q : Q) :
  (0 <= q <= 1)%Q -> finite (arcsin_ref (sqrt_ref (Fin q))).
Proof.
  intros [H _]. destruct (sqrt_ref_finite H) as [s ->]. eexists. reflexivity.
Qed.



(** ** The pooled z-test *)

Lemma fadd_comm (x y : num) : fadd x y = fadd y x.
Proof.
  destruct x as [a| | |], y as [b| | |]; cbn [fadd]; try reflexivity.
  apply fin_ext. ring.
Qed.

Lemma fsub_antisym (x y : num) : fsub y x = fneg (fsub x y).
Proof.
  destruct x as [a| | |], y as [b| | |]; cbn [fsub fneg]; try reflexivity.
  unfold fneg, fin. f_equal. apply Qred_complete. rewrite Qred_correct. ring.
Qed.

Lemma Qeq_bool_opp (a : Q) : Qeq_bool (Qred (- a)) 0 = Qeq_bool a 0.
Proof.
  apply eq_true_iff_eq. rewrite !Qeq_bool_iff, Qred_correct.
  split; intro H; lra.
Qed.

Lemma fdiv_fneg_l (x y : num) : fdiv (fneg x) y = fneg (fdiv x y).
Proof.
  destruct x as [a| | |], y as [b| | |]; cbn [fneg fdiv]; try reflexivity.
  - unfold fin at 1. cbn [fdiv].
    destruct (Qeq_bool b 0) eqn:Eb.
    + rewrite Qeq_bool_opp. destruct (Qeq_bool a 0) eqn:Ea; [reflexivity|].
      apply Qeq_bool_false in Ea.
      destruct (Qltb 0 a) eqn:La.
      * apply Qltb_true in La.
        assert (L : Qltb 0 (Qred (- a)) = false)
          by (apply Qltb_false; rewrite Qred_correct; lra).
        now rewrite L.
      * apply Qltb_false in La.
        assert (L : Qltb 0 (Qred (- a)) = true)
          by (apply Qltb_true; rewrite Qred_correct; lra).
        now rewrite L.
    + unfold fneg, fin. f_equal. apply Qred_complete.
      rewrite !Qred_correct. apply Qeq_bool_false in Eb. field. exact Eb.
  - destruct (Qltb b 0); reflexivity.
  - destruct (Qltb b 0); reflexivity.
Qed.

Lemma fabs_fneg (x : num) : fabs (fneg x) = fabs x.
Proof.
  destruct x as [a| | |]; cbn [fneg fabs]; try reflexivity.
  unfold fin at 2. cbn [fabs]. apply fin_ext. rewrite Qred_correct. apply Qabs_opp.
Qed.

Section PooledTestFacts.
Variable sqrt_pos : Q -> Q.
Variable Phi : Q -> Q.

Local Abbreviation ztest := (two_proportion_ztest sqrt_pos Phi).

(** Swapping the samples negates the statistic and keeps the p-value, on
    every input. *)
Lemma ztest_swap (s1 n1 s2 n2 : nat) :
  ztest s2 n2 s1 n1 = (fneg (fst (ztest s1 n1 s2 n2)), snd (ztest s1 n1 s2 n2)).
Proof.
  unfold two_proportion_ztest. cbv zeta. cbn [fst snd].
  rewrite (Nat.add_comm s2 s1), (Nat.add_comm n2 n1).
  rewrite (fadd_comm (fdiv (of_nat 1) (of_nat n2))).
  rewrite (fsub_antisym (fdiv (of_nat s1) (of_nat n1))).
  rewrite fdiv_fneg_l, fabs_fneg. reflexivity.
Qed.

Hypothesis sqrt_pos_positive : forall q, (0 < q)%Q -> (0 < sqrt_pos q)%Q.
Hypothesis Phi_upper_half : forall x, (0 <= x)%Q -> ((1 # 2) <= Phi x <= 1)%Q.

Lemma pooled_variance_positive (s1 n1 s2 n2 : nat) :
  (0 < n1)%nat -> (0 < n2)%nat ->
  (0 < s1 + s2)%nat -> (s1 + s2 < n1 + n2)%nat ->
  exists v,
    fmul (fmul (fdiv (of_nat (s1 + s2)) (of_nat (n1 + n2)))
               (fsub (of_nat 1) (fdiv (of_nat (s1 + s2)) (of_nat (n1 + n2)))))
         (fadd (fdiv (of_nat 1) (of_nat n1)) (fdiv (of_nat 1) (of_nat n2)))
    = Fin v /\ (0 < v)%Q.
Proof.
  intros H1 H2 Hs Hn.
  rewrite !fdiv_counts_pos by lia.
  cbn [fsub fmul fadd of_nat fin].
  eexists. split; [reflexivity|].
  rewrite !Qred_correct.
  assert (HN : (0 < Q_of_nat (n1 + n2))%Q) by (apply Q_of_nat_pos; lia).
  assert (HS : (0 < Q_of_nat (s1 + s2))%Q) by (apply Q_of_nat_pos; lia).
  assert (HSN : (Q_of_nat (s1 + s2) < Q_of_nat (n1 + n2))%Q)
    by (apply Q_of_nat_lt; lia).
  assert (Hp : (0 < Q_of_nat (s1 + s2) / Q_of_nat (n1 + n2))%Q).
  { apply Qlt_shift_div_l; [assumption|]. lra. }
  assert (Hq : (Q_of_nat (s1 + s2) / Q_of_nat (n1 + n2) < 1)%Q).
  { apply Qlt_shift_div_r; [assumption|]. lra. }
  assert (H1' : (0 < Q_of_nat 1 / Q_of_nat n1)%Q).
  { apply Qlt_shift_div_l; [now apply Q_of_nat_pos|]. rewrite Qmult_0_l.
    apply Q_of_nat_pos. lia. }
  assert (H2' : (0 < Q_of_nat 1 / Q_of_nat n2)%Q).
  { apply Qlt_shift_div_l; [now apply Q_of_nat_pos|]. rewrite Qmult_0_l.
    apply Q_of_nat_pos. lia. }
  fold (Q_of_nat 1).
  assert (E1 : (Q_of_nat 1 == 1)%Q) by reflexivity.
  set (p := (Q_of_nat (s1 + s2) / Q_of_nat (n1 + n2))%Q) in *.
  apply Qmult_lt_0_compat; [apply Qmult_lt_0_compat|]; lra.
Qed.

Lemma ztest_regular (s1 n1 s2 n2 : nat) :
  (0 < n1)%nat -> (0 < n2)%nat ->
  (0 < s1 + s2)%nat -> (s1 + s2 < n1 + n2)%nat ->
  finite (fst (ztest s1 n1 s2 n2)) /\ in_unit (snd (ztest s1 n1 s2 n2)).
Proof.
  intros H1 H2 Hs Hn.
  destruct (pooled_variance_positive s1 s2 H1 H2 Hs Hn) as [v [Hv Hpos]].
  unfold two_proportion_ztest. cbv zeta. cbn [fst snd]. rewrite Hv.
  destruct (rate_finite s1 H1) as [q1 [Hq1 _]].
  destruct (rate_finite s2 H2) as [q2 [Hq2 _]].
  rewrite Hq1, Hq2.
  assert (Ev : fsqrt sqrt_pos (Fin v) = fin (sqrt_pos v)).
  { unfold fsqrt.
    assert (L : Qltb v 0 = false) by (apply Qltb_false; lra).
    assert (E : Qeq_bool v 0 = false) by (apply Qeq_bool_false; lra).
    now rewrite L, E. }
  rewrite Ev.
  assert (Hsd : (0 < Qred (sqrt_pos v))%Q)
    by (rewrite Qred_correct; now apply sqrt_pos_positive).
  cbn [fsub fin fdiv].
  assert (E : Qeq_bool (Qred (sqrt_pos v)) 0 = false) by (apply Qeq_bool_false; lra).
  rewrite E. split; [eexists; reflexivity|].
  cbn [fin fabs fPhi fsub of_nat fmul in_unit].
  rewrite !Qred_correct.
  assert (Habs : (0 <= Qred (Qabs (Qred (Qred (q1 - q2) / Qred (sqrt_pos v)))))%Q)
    by (rewrite Qred_correct; apply Qabs_nonneg).
  pose proof (Phi_upper_half Habs) as [Hlo Hhi].
  assert (E2 : (inject_Z (Z.of_nat 2) == 2)%Q) by reflexivity.
  assert (E1 : (inject_Z (Z.of_nat 1) == 1)%Q) by reflexivity.
  rewrite E1, E2. lra.
Qed.

Lemma ztest_degenerate (s1 n1 s2 n2 : nat) :
  (0 < n1)%nat -> (0 < n2)%nat -> (s1 <= n1)%nat -> (s2 <= n2)%nat ->
  (s1 + s2 = 0)%nat \/ (s1 + s2 = n1 + n2)%nat ->
  ztest s1 n1 s2 n2 = (NaN, NaN).
Proof.
  intros H1 H2 L1 L2 Hd.
  assert (Hrates : fdiv (of_nat s1) (of_nat n1) = fdiv (of_nat s2) (of_nat n2)
                   /\ exists q, fdiv (of_nat s1) (of_nat n1) = Fin q).
  { destruct Hd as [Hd | Hd].
    - assert (s1 = O) by lia. assert (s2 = O) by lia. subst.
      rewrite !fdiv_counts. destruct n1; [lia|]. destruct n2; [lia|].
      split; [apply fin_ext; change (Q_of_nat 0) with 0%Q; unfold Qdiv; ring
             |eexists; reflexivity].
    - assert (s1 = n1) by lia. assert (s2 = n2) by lia. subst.
      rewrite !fdiv_counts. destruct n1 as [|m1]; [lia|]. destruct n2 as [|m2]; [lia|].
      split; [|eexists; reflexivity].
      apply fin_ext.
      assert (A : ~ (Q_of_nat (S m1) == 0)%Q) by (rewrite Q_of_nat_zero; discriminate).
      assert (B : ~ (Q_of_nat (S m2) == 0)%Q) by (rewrite Q_of_nat_zero; discriminate).
      field. split; assumption. }
  destruct Hrates as [Heq [q Hq]].
  assert (Hvar : fmul (fmul (fdiv (of_nat (s1 + s2)) (of_nat (n1 + n2)))
                            (fsub (of_nat 1) (fdiv (of_nat (s1 + s2)) (of_nat (n1 + n2)))))
                      (fadd (fdiv (of_nat 1) (of_nat n1)) (fdiv (of_nat 1) (of_nat n2)))
                 = Fin 0).
  { rewrite !fdiv_counts_pos by lia.
    cbn [fsub fmul fadd of_nat fin].
    change (Fin 0) with (fin 0). apply fin_ext.
    rewrite !Qred_correct.
    assert (A : ~ (Q_of_nat (n1 + n2) == 0)%Q) by (rewrite Q_of_nat_zero; lia).
    destruct Hd as [Hd | Hd]; rewrite Hd.
    - assert (Z : (Q_of_nat 0 / Q_of_nat (n1 + n2) == 0)%Q)
        by (change (Q_of_nat 0) with 0%Q; unfold Qdiv; ring).
      rewrite Z. ring.
    - assert (Z : (Q_of_nat (n1 + n2) / Q_of_nat (n1 + n2) == 1)%Q)
        by (field; exact A).
      rewrite Z.
      assert (E1 : (Q_of_nat 1 == 1)%Q) by reflexivity.
      rewrite E1. ring. }
  unfold two_proportion_ztest. cbv zeta. rewrite Hvar, <- Heq, Hq.
  cbn [fsqrt fsub fin].
  assert (L : Qltb 0 0 = false) by reflexivity.
  assert (E : Qeq_bool 0 0 = true) by reflexivity.
  rewrite L, E. cbn [fin fdiv].
  assert (E0 : Qeq_bool (Qred 0) 0 = true) by reflexivity. rewrite E0.
  assert (Ed : Qeq_bool (Qred (q - q)) 0 = true).
  { apply Qeq_bool_iff. rewrite Qred_correct. ring. }
  rewrite Ed. reflexivity.
Qed.

End PooledTestFacts.

(** ** The reference primitives meet the assumptions of the test *)

Lemma round_up_ge (q : Q) : (q <= round_up q)%Q.
Proof.
  unfold round_up. rewrite Qmake_Qdiv.
  apply Qle_shift_div_l; [reflexivity|]. apply Qle_ceiling.
Qed.

Lemma heron_positive (fuel : nat) (q x : Q) :
  (0 < q)%Q -> (0 < x)%Q -> (0 < heron fuel q x)%Q.
Proof.
  intro Hq. revert x. induction fuel as [|k IH]; intros x Hx; simpl; [assumption|].
  apply IH. apply Qlt_le_trans with ((x + q / x) / 2)%Q; [|apply round_up_ge].
  assert (Hd : (0 < q / x)%Q).
  { apply Qlt_shift_div_l; [assumption|]. lra. }
  apply Qlt_shift_div_l; lra.
Qed.

Lemma sqrt_heron_positive (q : Q) : (0 < q)%Q -> (0 < sqrt_heron q)%Q.
Proof.
  intro Hq. unfold sqrt_heron. apply heron_positive; [assumption|].
  apply Qlt_le_trans with (1 + q)%Q; [lra|apply round_up_ge].
Qed.

Lemma as_poly_ge_1 (t : Q) : (0 <= t)%Q -> (1 <= as_poly t)%Q.
Proof.
  intro Ht. unfold as_poly.
  assert (H2 : (0 <= t * t)%Q) by (apply Qmult_le_0_compat; assumption).
  assert (H3 : (0 <= t * t * t)%Q) by (apply Qmult_le_0_compat; assumption).
  assert (H4 : (0 <= t * t * t * t)%Q) by (apply Qmult_le_0_compat; assumption).
  lra.
Qed.

Lemma square_ge_1 (d : Q) : (1 <= d)%Q -> (1 <= d * d)%Q.
Proof.
  intro H. assert (G : (0 <= (d - 1) * (d - 1))%Q)
    by (apply Qmult_le_0_compat; lra).
  assert (E : ((d - 1) * (d - 1) == d * d - 2 * d + 1)%Q) by ring.
  lra.
Qed.

Lemma Phi_as_upper_half (x : Q) : (0 <= x)%Q -> ((1 # 2) <= Phi_as x <= 1)%Q.
Proof.
  intro Hx. unfold Phi_as.
  assert (L : Qltb x 0 = false) by (now apply Qltb_false).
  rewrite L.
  set (d := as_poly (Qabs (round_down x))).
  assert (Hd : (1 <= d)%Q) by (apply as_poly_ge_1, Qabs_nonneg).
  assert (H4 : (1 <= d * d * (d * d))%Q) by (apply square_ge_1, square_ge_1, Hd).
  set (d4 := (d * d * (d * d))%Q) in *.
  assert (Hpos : (0 < (1 # 2) / d4)%Q) by (apply Qlt_shift_div_l; lra).
  assert (Hle : ((1 # 2) / d4 <= 1 # 2)%Q) by (apply Qle_shift_div_r; lra).
  lra.
Qed.

(** ** Range of the p-value and symmetry of the test *)

(** C8 (counterexample).  With no success in either sample the pooled rate
    is 0, the standard error is 0 and the statistic is 0/0: the p-value is
    not-a-number, which is not in [0,1]. *)
Lemma pvalue_nan_without_successes :
  two_proportion_ztest sqrt_heron Phi_as 0 1 0 1 = (NaN, NaN)
  /\ ~ in_unit (snd (two_proportion_ztest sqrt_heron Phi_as 0 1 0 1)).
Proof. split; [reflexivity|]. intro H. exact H. Qed.

(** C8 (amended).  For trial counts n1, n2 > 0 and success counts s1 <= n1,
    s2 <= n2: swapping the two samples negates the z-statistic and the
    reported effect and leaves the p-value unchanged; when the pooled rate is
    strictly between 0 and 1 the statistic is finite and the p-value lies in
    [0,1]; when the pooled rate is 0 or 1 the statistic and the p-value are
    not-a-number.  The square root is assumed positive on positive arguments
    and the normal distribution function between 1/2 and 1 on non-negative
    arguments. *)
Theorem pooled_test_range_and_swap (sqrt_pos Phi : Q -> Q) :
  (forall q, (0 < q)%Q -> (0 < sqrt_pos q)%Q) ->
  (forall x, (0 <= x)%Q -> ((1 # 2) <= Phi x <= 1)%Q) ->
  forall s1 n1 s2 n2 : nat,
    (0 < n1)%nat -> (0 < n2)%nat -> (s1 <= n1)%nat -> (s2 <= n2)%nat ->
    two_proportion_ztest sqrt_pos Phi s2 n2 s1 n1
    = (fneg (fst (two_proportion_ztest sqrt_pos Phi s1 n1 s2 n2)),
       snd (two_proportion_ztest sqrt_pos Phi s1 n1 s2 n2))
    /\ rate_difference s2 n2 s1 n1 = fneg (rate_difference s1 n1 s2 n2)
    /\ ((0 < s1 + s2)%nat -> (s1 + s2 < n1 + n2)%nat ->
        finite (fst (two_proportion_ztest sqrt_pos Phi s1 n1 s2 n2))
        /\ in_unit (snd (two_proportion_ztest sqrt_pos Phi s1 n1 s2 n2)))
    /\ ((s1 + s2 = 0)%nat \/ (s1 + s2 = n1 + n2)%nat ->
        two_proportion_ztest sqrt_pos Phi s1 n1 s2 n2 = (NaN, NaN)).
Proof.
  intros Hsqrt HPhi s1 n1 s2 n2 H1 H2 L1 L2.
  split; [apply ztest_swap|].
  split; [apply fsub_antisym|].
  split.
  - intros Hs Hn. now apply ztest_regular.
  - intro Hd. now apply ztest_degenerate.
Qed.

Lemma pooled_test_witness :
  finite (fst (two_proportion_ztest sqrt_heron Phi_as 3 20 2 20))
  /\ in_unit (snd (two_proportion_ztest sqrt_heron Phi_as 3 20 2 20))
  /\ two_proportion_ztest sqrt_heron Phi_as 2 20 3 20
     = (fneg (fst (two_proportion_ztest sqrt_heron Phi_as 3 20 2 20)),
        snd (two_proportion_ztest sqrt_heron Phi_as 3 20 2 20)).
Proof.
  assert (H1 : (0 < 20)%nat) by lia.
  assert (L1 : (3 <= 20)%nat) by lia.
  assert (L2 : (2 <= 20)%nat) by lia.
  assert (Hs : (0 < 3 + 2)%nat) by lia.
  assert (Hn : (3 + 2 < 20 + 20)%nat) by lia.
  pose proof (@pooled_test_range_and_swap sqrt_heron Phi_as
                sqrt_heron_positive Phi_as_upper_half 3 20 2 20 H1 H1 L1 L2)
    as [Hswap [_ [Hreg _]]].
  exact (conj (proj1 (Hreg Hs Hn)) (conj (proj2 (Hreg Hs Hn)) Hswap)).
Defined.

(** The analyzer feeds the test with the treatment sample first; its effect
    is the difference of the two rates in the same order. *)
Lemma overall_uses_pooled_test (sqrt_pos Phi : Q -> Q)
      (confint : nat -> nat -> num -> num * num) (self : ABTestAnalyzer) :
  let r := overall_result (pooled_ztest sqrt_pos Phi) confint self in
  let t := group_rows "treatment" (data self) in
  let c := group_rows "control" (data self) in
  (z_stat r, p_value r)
  = two_proportion_ztest sqrt_pos Phi (conversions t) (length t) (conversions c) (length c)
  /\ effect_size r = rate_difference (conversions t) (length t) (conversions c) (length c).
Proof.
  pose proof (overall_fields (pooled_ztest sqrt_pos Phi) confint self) as H.
  cbv zeta in *. destruct H as [Hc [Ht [He [_ [Hz [Hp _]]]]]].
  rewrite Hz, Hp, He, Hc, Ht. unfold scope_ztest, pooled_ztest, rate_difference, scope_rate.
  split; [|reflexivity].
  now destruct (two_proportion_ztest _ _ _ _ _ _).
Qed.

(** ** A run of the test on the reference primitives *)

(** 150 conversions out of 1000 against 120 out of 1000: the effect is 0.03,
    the relative effect 25 percent, and the p-value is below 0.05. *)
Example scenario_120_against_150 :
  rate_difference 150 1000 120 1000 = Fin (3 # 100)
  /\ fmul (fdiv (rate_difference 150 1000 120 1000) (fdiv (of_nat 120) (of_nat 1000)))
          (of_nat 100) = Fin 25
  /\ flt (snd (two_proportion_ztest sqrt_heron Phi_as 150 1000 120 1000)) (fin (5 # 100))
     = true.
Proof. repeat split; vm_compute; reflexivity. Qed.

(** * Further properties of the analyzer *)

(** ** The inner join *)

Lemma filter_map_join (l : ab_row) (i : Z) (M : list country_row) :
  filter (fun r => Z.eqb (id r) i) (map (join_row l) M)
  = if Z.eqb (ab_id l) i then map (join_row l) M else [].
Proof.
  induction M as [|r t IH]; simpl.
  - now destruct (Z.eqb (ab_id l) i).
  - rewrite IH. now destruct (Z.eqb (ab_id l) i).
Qed.

Lemma filter_same_key (i j : Z) (c : list country_row) :
  i = j ->
  filter (fun r => Z.eqb (c_id r) i) c = filter (fun r => Z.eqb (c_id r) j) c.
Proof. now intros ->. Qed.

Lemma merge_members (ab_test : list ab_row) (countries : list country_row) (i : Z) :
  In i (map id (merge ab_test countries))
  <-> In i (map ab_id ab_test) /\ In i (map c_id countries).
Proof.
  unfold merge. rewrite !in_map_iff. split.
  - intros [r [Hid Hr]]. apply in_flat_map in Hr. destruct Hr as [l [Hl Hr]].
    apply in_map_iff in Hr. destruct Hr as [c [Hj Hc]]. apply filter_In in Hc.
    destruct Hc as [Hc Heq]. apply Z.eqb_eq in Heq. subst r. simpl in Hid.
    split; [now exists l|exists c; split; [congruence|assumption]].
  - intros [[l [Hl Hin]] [c [Hc Hinc]]].
    exists (join_row l c). split; [simpl; assumption|].
    apply in_flat_map. exists l. split; [assumption|].
    apply in_map, filter_In. split; [assumption|]. apply Z.eqb_eq. congruence.
Qed.

Lemma merge_multiplicity (ab_test : list ab_row) (countries : list country_row) (i : Z) :
  length (filter (fun r => Z.eqb (id r) i) (merge ab_test countries))
  = (length (filter (fun l => Z.eqb (ab_id l) i) ab_test)
     * length (filter (fun r => Z.eqb (c_id r) i) countries))%nat.
Proof.
  unfold merge. induction ab_test as [|l t IH]; simpl; [reflexivity|].
  rewrite filter_app, length_app, IH, filter_map_join.
  destruct (Z.eqb (ab_id l) i) eqn:E; simpl.
  - apply Z.eqb_eq in E. rewrite length_map, (filter_same_key countries E). lia.
  - reflexivity.
Qed.

(** X1. The join keeps exactly the identifiers present in both files, and an
    identifier occurs in the joined frame as many times as the product of
    its numbers of occurrences in the two files. *)
Theorem merge_inner_join (ab_test : list ab_row) (countries : list country_row) (i : Z) :
  (In i (map id (merge ab_test countries))
   <-> In i (map ab_id ab_test) /\ In i (map c_id countries))
  /\ length (filter (fun r => Z.eqb (id r) i) (merge ab_test countries))
     = (length (filter (fun l => Z.eqb (ab_id l) i) ab_test)
        * length (filter (fun r => Z.eqb (c_id r) i) countries))%nat.
Proof.
  split; [apply merge_members|apply merge_multiplicity].
Qed.

Lemma merge_inner_join_witness :
  In 2%Z (map id (merge ab_test_file countries_file))
  /\ length (filter (fun r => Z.eqb (id r) 2) (merge ab_test_file countries_file)) = 2%nat.
Proof.
  destruct (merge_inner_join ab_test_file countries_file 2) as [Hmem Hcount].
  split.
  - apply Hmem. split; simpl; auto.
  - rewrite Hcount. reflexivity.
Defined.

(** ** Accounting of the loader *)

Lemma duplicates_accounting (d : frame) :
  (count_true (duplicated d) + length (drop_duplicates d) = length d)%nat.
Proof. apply (@mark_duplicates_count _ _ id Z.eqb [] d). Qed.

Lemma keep_all_unchanged (seen : list Z) (l : frame) :
  length (keep_first id Z.eqb seen l) = length l -> keep_first id Z.eqb seen l = l.
Proof.
  revert seen. induction l as [|y t IH]; intros seen Hl; simpl in *; [reflexivity|].
  destruct (existsb (Z.eqb (id y)) seen).
  - pose proof (@mark_duplicates_count _ _ id Z.eqb seen t). lia.
  - f_equal. apply IH. now injection Hl.
Qed.

(** X2. The number of duplicates the loader reports is the number of rows it
    drops: reported + kept = joined; it reports 0 exactly when no identifier
    repeats, and the frame it keeps has no repeated identifier. *)
Theorem loader_accounting (merged : frame) (p : preparation) :
  load_and_prepare_data merged = Ok p ->
  (removed_count p + length (prepared p) = length merged)%nat
  /\ (removed_count p = O <-> NoDup (map id merged))
  /\ NoDup (map id (prepared p)).
Proof.
  intro H. destruct (load_ok_inv merged H) as [Hp [Hr _]].
  rewrite Hp, Hr. split; [apply duplicates_accounting|]. split.
  - split.
    + intro Hz. pose proof (duplicates_accounting merged) as Ha.
      rewrite Hz in Ha. simpl in Ha.
      unfold drop_duplicates in Ha. apply keep_all_unchanged in Ha.
      rewrite <- Ha. apply (drop_duplicates_NoDup merged).
    + intro Hnd. now apply drop_duplicates_fixpoint.
  - apply drop_duplicates_NoDup.
Qed.

Lemma loader_accounting_witness :
  exists p, load_and_prepare_data with_duplicates = Ok p
            /\ (removed_count p + length (prepared p) = 3)%nat
            /\ NoDup (map id (prepared p)).
Proof.
  destruct (proj2 (proj2 (loader_outcome with_duplicates))) as [p [Hp _]];
    [simpl; discriminate|simpl; discriminate|].
  exists p. split; [exact Hp|].
  destruct (loader_accounting with_duplicates Hp) as [Hsum [_ Hnd]].
  split; [exact Hsum|exact Hnd].
Defined.

(** ** Files with unique identifiers *)

Lemma unique_key_filter (A : Type) (key : A -> Z) (l : list A) (k : Z) :
  NoDup (map key l) -> (length (filter (fun x => Z.eqb (key x) k) l) <= 1)%nat.
Proof.
  induction l as [|x t IH]; intro Hnd; simpl; [lia|].
  inversion Hnd as [|? ? Hx Hnd']; subst.
  destruct (Z.eqb (key x) k) eqn:E; [|now apply IH].
  apply Z.eqb_eq in E. simpl.
  destruct (filter (fun x0 => Z.eqb (key x0) k) t) as [|y u] eqn:F; [simpl; lia|].
  exfalso. apply Hx.
  assert (Hy : In y (filter (fun x0 => Z.eqb (key x0) k) t)) by (rewrite F; now left).
  apply filter_In in Hy. destruct Hy as [Hy Hk]. apply Z.eqb_eq in Hk.
  rewrite E, <- Hk. now apply in_map.
Qed.

Lemma merge_unique_ids (ab_test : list ab_row) (countries : list country_row) :
  NoDup (map ab_id ab_test) -> NoDup (map c_id countries) ->
  NoDup (map id (merge ab_test countries)).
Proof.
  intros Ha Hc. induction ab_test as [|l t IH]; simpl; [constructor|].
  inversion Ha as [|? ? Hl Ha']; subst.
  unfold merge in *. simpl. rewrite map_app, map_map. simpl.
  pose proof (unique_key_filter c_id countries (ab_id l) Hc) as Hle.
  destruct (filter (fun r => Z.eqb (c_id r) (ab_id l)) countries) as [|r [|r' u]];
    simpl in *; [now apply IH| |lia].
  constructor; [|now apply IH].
  intro Hin. apply Hl.
  pose proof (proj1 (merge_members t countries (ab_id l)) Hin) as [H _].
  exact H.
Qed.

Lemma merge_length_unique (ab_test : list ab_row) (countries : list country_row) :
  NoDup (map c_id countries) ->
  length (merge ab_test countries)
  = length (filter (fun l => existsb (fun r => Z.eqb (c_id r) (ab_id l)) countries)
                   ab_test).
Proof.
  intro Hc. unfold merge. induction ab_test as [|l t IH]; simpl; [reflexivity|].
  rewrite length_app, length_map, IH.
  pose proof (unique_key_filter c_id countries (ab_id l) Hc) as Hle.
  destruct (existsb (fun r => Z.eqb (c_id r) (ab_id l)) countries) eqn:E.
  - apply existsb_exists in E. destruct E as [r [Hr Hk]].
    assert (Hin : In r (filter (fun r => Z.eqb (c_id r) (ab_id l)) countries))
      by (apply filter_In; auto).
    destruct (filter (fun r => Z.eqb (c_id r) (ab_id l)) countries) as [|r0 [|r1 u]];
      simpl in *; [contradiction|reflexivity|lia].
  - destruct (filter (fun r => Z.eqb (c_id r) (ab_id l)) countries) as [|r0 u] eqn:F;
      [reflexivity|].
    assert (Hin : In r0 (filter (fun r => Z.eqb (c_id r) (ab_id l)) countries))
      by (rewrite F; now left).
    apply filter_In in Hin. destruct Hin as [Hin Hk].
    assert (existsb (fun r => Z.eqb (c_id r) (ab_id l)) countries = true)
      by (apply existsb_exists; now exists r0).
    congruence.
Qed.

(** X3. When neither file repeats an identifier, the joined frame repeats
    none: it has one row for every A/B test row whose identifier has a
    country row (the others are dropped without notice), and the loader
    reports 0 duplicates and keeps the joined frame as it is. *)
Theorem unique_files_lose_nothing (ab_test : list ab_row) (countries : list country_row) :
  NoDup (map ab_id ab_test) -> NoDup (map c_id countries) ->
  NoDup (map id (merge ab_test countries))
  /\ length (merge ab_test countries)
     = length (filter (fun l => existsb (fun r => Z.eqb (c_id r) (ab_id l)) countries)
                      ab_test)
  /\ forall p, load_and_prepare_data (merge ab_test countries) = Ok p ->
       removed_count p = O /\ prepared p = merge ab_test countries.
Proof.
  intros Ha Hc. pose proof (merge_unique_ids ab_test countries Ha Hc) as Hnd.
  split; [exact Hnd|]. split; [now apply merge_length_unique|].
  intros p Hp. destruct (load_ok_inv _ Hp) as [H1 [H2 _]].
  destruct (drop_duplicates_fixpoint _ Hnd) as [Hfix Hzero].
  rewrite H1, H2, Hfix, Hzero. split; reflexivity.
Qed.

Lemma unique_files_witness :
  NoDup (map id (merge ab_test_file countries_file_unique))
  /\ length (merge ab_test_file countries_file_unique) = 3%nat.
Proof.
  assert (Ha : NoDup (map ab_id ab_test_file))
    by (simpl; repeat constructor; simpl; intuition discriminate).
  assert (Hc : NoDup (map c_id countries_file_unique))
    by (simpl; repeat constructor; simpl; intuition discriminate).
  destruct (unique_files_lose_nothing ab_test_file countries_file_unique Ha Hc)
    as [Hnd [Hlen _]].
  split; [exact Hnd|]. rewrite Hlen. reflexivity.
Defined.

(** ** The analyzer as constructed *)

Lemma nonempty_group_nonempty_frame (g : string) (d : frame) :
  group_rows g d <> [] -> d <> [].
Proof. intros H E. subst d. now apply H. Qed.

Lemma scope_rate_finite (scope : frame) (g : string) :
  group_rows g scope <> [] ->
  exists q, scope_rate scope g = Fin q /\ (0 <= q)%Q.
Proof.
  intro H. destruct (scope_rate_cases scope g) as [E | E]; [|exact E].
  exfalso. unfold scope_rate in E.
  destruct (group_rows g scope) as [|r t]; [now apply H|].
  destruct (rate_finite (conversions (r :: t)) (b := length (r :: t))) as [q [Hq _]];
    [simpl; lia|].
  congruence.
Qed.

(** X4. An analyzer that the constructor returns has alpha = 0.05, holds one
    row per identifier present in both files, and has observations in both
    groups; hence [statistical_tests] never raises on it, its overall entry
    is stored under ['overall'] unless a tested country has that label, and
    the overall control rate, treatment rate and effect are finite. *)
Theorem constructed_analyzer
        (proportions_ztest : list nat -> list nat -> num * num)
        (confint : nat -> nat -> num -> num * num)
        (ab_test : list ab_row) (countries : list country_row)
        (self : ABTestAnalyzer) :
  new_analyzer ab_test countries = Ok self ->
  alpha self = Fin (1 # 20)
  /\ NoDup (map id (data self))
  /\ (forall i, In i (map id (data self))
                <-> In i (map ab_id ab_test) /\ In i (map c_id countries))
  /\ group_rows "control" (data self) <> []
  /\ group_rows "treatment" (data self) <> []
  /\ exists res,
       statistical_tests proportions_ztest confint self = Ok res
       /\ (~ In (Some "overall") (tested self) ->
           assoc "overall" res = Some (overall_result proportions_ztest confint self))
       /\ finite (control_rate (overall_result proportions_ztest confint self))
       /\ finite (treatment_rate (overall_result proportions_ztest confint self))
       /\ finite (effect_size (overall_result proportions_ztest confint self)).
Proof.
  unfold new_analyzer. intro H.
  destruct (init_inv _ H) as [Hd [Ha [Hc Ht]]].
  split; [rewrite Ha; reflexivity|].
  split; [rewrite Hd; apply drop_duplicates_NoDup|].
  split.
  { intro i. rewrite <- merge_members, Hd. unfold drop_duplicates.
    rewrite (@keep_first_mem _ _ id Z.eqb Z.eqb_eq [] (merge ab_test countries) i).
    simpl. tauto. }
  split; [exact Hc|]. split; [exact Ht|].
  destruct (run_ok proportions_ztest confint self
                   (nonempty_group_nonempty_frame _ Hc)) as [res Hrun].
  exists res. split; [exact Hrun|].
  split; [intro Hnt; exact (run_overall_entry _ _ _ Hrun Hnt)|].
  pose proof (overall_fields proportions_ztest confint self) as Ho. cbv zeta in Ho.
  destruct Ho as [Hcr [Htr [He _]]].
  destruct (scope_rate_finite _ _ Hc) as [qc [Eqc _]].
  destruct (scope_rate_finite _ _ Ht) as [qt [Eqt _]].
  rewrite He, Hcr, Htr, Eqc, Eqt.
  repeat split; eexists; reflexivity.
Qed.

Lemma constructed_analyzer_witness :
  exists self,
    new_analyzer ab_test_file countries_file = Ok self
    /\ alpha self = Fin (1 # 20)
    /\ NoDup (map id (data self))
    /\ exists res, statistical_tests ztest_ref normal_confint self = Ok res.
Proof.
  destruct (new_analyzer ab_test_file countries_file) as [self|e] eqn:E;
    [|vm_compute in E; discriminate].
  exists self. split; [reflexivity|].
  destruct (constructed_analyzer ztest_ref normal_confint ab_test_file countries_file E)
    as [Ha [Hnd [_ [_ [_ [res [Hrun _]]]]]]].
  split; [exact Ha|]. split; [exact Hnd|]. now exists res.
Defined.

(** ** Values of the quality report *)

Lemma filter_none (A : Type) (f : A -> bool) (l : list A) :
  (forall x, In x l -> f x = false) -> filter f l = [].
Proof.
  induction l as [|x t IH]; intro H; simpl; [reflexivity|].
  rewrite (H x (or_introl eq_refl)). apply IH. intros y Hy. apply H. now right.
Qed.

Lemma shown_without_column (d : frame) (g p : string) :
  has_column (crosstab d) p = false -> shown d g p = O.
Proof.
  intro H. unfold has_column, crosstab in H. simpl in H.
  fold (mem p (unique_strings (names (map page (tabulated d))))) in H.
  rewrite mem_unique_strings in H.
  rewrite <- cell_count. rewrite filter_none; [reflexivity|].
  intros r Hr. destruct (label_eq (page r) (Some p)) eqn:E; [|reflexivity].
  apply label_eq_some in E. unfold group_rows in Hr. apply filter_In in Hr.
  assert (M : mem p (names (map page (tabulated d))) = true).
  { apply mem_true, names_In. rewrite <- E. apply in_map. tauto. }
  congruence.
Qed.

Lemma shown_le (d : frame) (g p : string) :
  (shown d g p <= length (paged (group_rows g d)))%nat.
Proof. rewrite <- cell_count, <- tabulated_group. apply filter_length_le. Qed.

Lemma paged_nonempty (d : frame) : paged d <> [] -> d <> [].
Proof. intros H E. subst d. now apply H. Qed.

Lemma paged_all (d : frame) :
  Forall (fun r => isnull (page r) = false) d -> paged d = d.
Proof.
  unfold paged. induction 1 as [|r t Hr _ IH]; simpl; [reflexivity|].
  now rewrite Hr, IH.
Qed.

(** The report of the checks, field by field. *)
Lemma quality_checks_value (d : frame) (q : quality_report) :
  _data_quality_checks d = Ok q ->
  paged (group_rows "control" d) <> [] /\ paged (group_rows "treatment" d) <> []
  /\ control_error_rate q
     = fdiv (of_nat (shown d "control" "new_page"))
            (of_nat (length (paged (group_rows "control" d))))
  /\ treatment_error_rate q
     = fdiv (of_nat (shown d "treatment" "old_page"))
            (of_nat (length (paged (group_rows "treatment" d))))
  /\ high_misassignment q
     = fgt (control_error_rate q) (fin (1 # 100))
       || fgt (treatment_error_rate q) (fin (1 # 100))
  /\ group_sizes q = value_counts d
  /\ size_ratio q
     = fdiv (series_min (map snd (value_counts d))) (series_max (map snd (value_counts d)))
  /\ unbalanced q = flt (size_ratio q) (fin (8 # 10)).
Proof.
  intro H. rewrite <- !tabulated_group.
  destruct (group_rows_dec "control" (tabulated d)) as [Hc | Hc].
  { destruct (quality_checks_raise d (or_introl Hc)) as [E | E]; congruence. }
  destruct (group_rows_dec "treatment" (tabulated d)) as [Ht | Ht].
  { destruct (quality_checks_raise d (or_intror Ht)) as [E | E]; congruence. }
  split; [exact Hc|]. split; [exact Ht|].
  assert (Lc : (0 <? length (group_rows "control" (tabulated d)))%nat = true).
  { apply Nat.ltb_lt.
    destruct (group_rows "control" (tabulated d)); [contradiction|simpl; lia]. }
  assert (Lt : (0 <? length (group_rows "treatment" (tabulated d)))%nat = true).
  { apply Nat.ltb_lt.
    destruct (group_rows "treatment" (tabulated d)); [contradiction|simpl; lia]. }
  revert H. unfold _data_quality_checks. cbv zeta.
  rewrite (loc_row_present d "control" Hc), (loc_row_present d "treatment" Ht).
  destruct (has_column (crosstab d) "new_page") eqn:En;
    [rewrite (loc_present d "control" "new_page" Hc En), cell_count
    |pose proof (shown_without_column d "control" "new_page" En) as Zn];
    (destruct (has_column (crosstab d) "old_page") eqn:Eo;
     [rewrite (loc_present d "treatment" "old_page" Ht Eo), cell_count
     |pose proof (shown_without_column d "treatment" "old_page" Eo) as Zo]);
    cbn [bind]; rewrite !row_total, Lc, Lt;
    intro H; injection H as <-;
    cbn [control_error_rate treatment_error_rate high_misassignment group_sizes
         size_ratio unbalanced];
    rewrite ?Zn, ?Zo; repeat split; reflexivity.
Qed.

(** X5. When the checks return, the control misassignment rate is the share
    of control rows shown ['new_page'] and the treatment misassignment rate
    the share of treatment rows shown ['old_page'], each among the rows of
    the group that have a page (all of them when no page is missing); both
    are finite numbers between 0 and 1. *)
Theorem misassignment_rates (d : frame) (q : quality_report) :
  _data_quality_checks d = Ok q ->
  (exists a, control_error_rate q = Fin a
             /\ (a == Q_of_nat (shown d "control" "new_page")
                      / Q_of_nat (length (paged (group_rows "control" d))))%Q
             /\ (0 <= a <= 1)%Q)
  /\ (exists b, treatment_error_rate q = Fin b
                /\ (b == Q_of_nat (shown d "treatment" "old_page")
                         / Q_of_nat (length (paged (group_rows "treatment" d))))%Q
                /\ (0 <= b <= 1)%Q)
  /\ (Forall (fun r => isnull (page r) = false) d ->
      paged (group_rows "control" d) = group_rows "control" d
      /\ paged (group_rows "treatment" d) = group_rows "treatment" d).
Proof.
  intro H. destruct (quality_checks_value d H) as [Hc [Ht [Ec [Et _]]]].
  rewrite Ec, Et. split; [|split]; try (apply ratio_in_unit; try apply shown_le).
  - destruct (paged (group_rows "control" d)); [contradiction|simpl; lia].
  - destruct (paged (group_rows "treatment" d)); [contradiction|simpl; lia].
  - intro Hall. split; apply paged_all; unfold group_rows;
      (rewrite Forall_forall in *; intros r Hr; apply Hall;
       apply filter_In in Hr; tauto).
Qed.

Lemma misassignment_rates_witness :
  exists q a, _data_quality_checks (drop_duplicates (merge ab_test_file countries_file)) = Ok q
              /\ control_error_rate q = Fin a /\ (0 <= a <= 1)%Q.
Proof.
  destruct (quality_checks_ok (drop_duplicates (merge ab_test_file countries_file)))
    as [q Hq]; [simpl; discriminate|simpl; discriminate|].
  destruct (proj1 (misassignment_rates _ Hq)) as [a [Ha [_ Hr]]].
  exists q, a. split; [exact Hq|]. split; [exact Ha|exact Hr].
Defined.

Lemma above_one_percent (m n : nat) :
  (0 < n)%nat ->
  fgt (fdiv (of_nat m) (of_nat n)) (fin (1 # 100)) = true <-> (n < 100 * m)%nat.
Proof.
  intro Hn. rewrite (fdiv_counts_pos m Hn). unfold fgt, flt, fin.
  rewrite Qltb_true, !Qred_correct.
  assert (Hq : (0 < Q_of_nat n)%Q) by now apply Q_of_nat_pos.
  split; intro H.
  - assert (G : ((1 # 100) * Q_of_nat n < Q_of_nat m / Q_of_nat n * Q_of_nat n)%Q)
      by (apply Qmult_lt_compat_r; assumption).
    assert (E : (Q_of_nat m / Q_of_nat n * Q_of_nat n == Q_of_nat m)%Q)
      by (field; lra).
    rewrite E in G. unfold Qlt, Qmult, Q_of_nat, inject_Z in G.
    cbn [Qnum Qden] in G. lia.
  - apply Qlt_shift_div_l; [exact Hq|].
    unfold Qlt, Qmult, Q_of_nat, inject_Z. cbn [Qnum Qden]. lia.
Qed.

(** X6. The report flags a high misassignment exactly when, in the control
    or in the treatment group, strictly more than one in a hundred of the
    rows that have a page was shown the page of the other group. *)
Theorem high_misassignment_threshold (d : frame) (q : quality_report) :
  _data_quality_checks d = Ok q ->
  (high_misassignment q = true
   <-> (length (paged (group_rows "control" d))
        < 100 * shown d "control" "new_page")%nat
       \/ (length (paged (group_rows "treatment" d))
           < 100 * shown d "treatment" "old_page")%nat).
Proof.
  intro H. destruct (quality_checks_value d H) as [Hc [Ht [Ec [Et [Eh _]]]]].
  rewrite Eh, Ec, Et, orb_true_iff, !above_one_percent; [tauto| |].
  - destruct (paged (group_rows "treatment" d)); [contradiction|simpl; lia].
  - destruct (paged (group_rows "control" d)); [contradiction|simpl; lia].
Qed.

Lemma high_misassignment_witness :
  exists q, _data_quality_checks (drop_duplicates (merge ab_test_file countries_file)) = Ok q
            /\ high_misassignment q = true.
Proof.
  destruct (quality_checks_ok (drop_duplicates (merge ab_test_file countries_file)))
    as [q Hq]; [simpl; discriminate|simpl; discriminate|].
  exists q. split; [exact Hq|].
  apply (proj2 (high_misassignment_threshold _ Hq)). left. vm_compute. lia.
Defined.

(** ** Balance of the group sizes *)

Lemma fold_min_spec (t : list nat) (x : nat) :
  In (fold_left Nat.min t x) (x :: t)
  /\ forall y, In y (x :: t) -> (fold_left Nat.min t x <= y)%nat.
Proof.
  revert x. induction t as [|a t IH]; intro x; simpl.
  - split; [now left|]. intros y [<- | []]. lia.
  - destruct (IH (Nat.min x a)) as [Hin Hle]. split.
    + destruct Hin as [E | Hin]; [|now right; right].
      destruct (Nat.min_dec x a) as [M | M]; rewrite M in *; auto.
    + intros y Hy.
      assert (H0 : (fold_left Nat.min t (Nat.min x a) <= Nat.min x a)%nat)
        by (apply Hle; now left).
      destruct Hy as [<- | [<- | Hy]]; [lia|lia|]. apply Hle. now right.
Qed.

Lemma fold_max_spec (t : list nat) (x : nat) :
  In (fold_left Nat.max t x) (x :: t)
  /\ forall y, In y (x :: t) -> (y <= fold_left Nat.max t x)%nat.
Proof.
  revert x. induction t as [|a t IH]; intro x; simpl.
  - split; [now left|]. intros y [<- | []]. lia.
  - destruct (IH (Nat.max x a)) as [Hin Hle]. split.
    + destruct Hin as [E | Hin]; [|now right; right].
      destruct (Nat.max_dec x a) as [M | M]; rewrite M in *; auto.
    + intros y Hy.
      assert (H0 : (Nat.max x a <= fold_left Nat.max t (Nat.max x a))%nat)
        by (apply Hle; now left).
      destruct Hy as [<- | [<- | Hy]]; [lia|lia|]. apply Hle. now right.
Qed.

Lemma value_counts_spec (d : frame) (g : string) (n : nat) :
  In (g, n) (value_counts d) <-> group_rows g d <> [] /\ n = length (group_rows g d).
Proof.
  unfold value_counts. rewrite in_map_iff. split.
  - intros [g' [E Hg]]. injection E as -> <-.
    apply mem_true in Hg. rewrite mem_unique_strings in Hg.
    apply group_present in Hg. auto.
  - intros [Hg ->]. exists g. split; [reflexivity|].
    apply mem_true. rewrite mem_unique_strings. now apply group_present.
Qed.

Lemma below_four_fifths (lo hi : nat) :
  (0 < hi)%nat ->
  flt (fdiv (of_nat lo) (of_nat hi)) (fin (8 # 10)) = true <-> (10 * lo < 8 * hi)%nat.
Proof.
  intro Hn. rewrite (fdiv_counts_pos lo Hn). unfold flt, fin.
  rewrite Qltb_true, !Qred_correct.
  assert (Hq : (0 < Q_of_nat hi)%Q) by now apply Q_of_nat_pos.
  split; intro H.
  - assert (G : (Q_of_nat lo / Q_of_nat hi * Q_of_nat hi < (8 # 10) * Q_of_nat hi)%Q)
      by (apply Qmult_lt_compat_r; assumption).
    assert (E : (Q_of_nat lo / Q_of_nat hi * Q_of_nat hi == Q_of_nat lo)%Q)
      by (field; lra).
    rewrite E in G. unfold Qlt, Qmult, Q_of_nat, inject_Z in G.
    cbn [Qnum Qden] in G. lia.
  - apply Qlt_shift_div_r; [exact Hq|].
    unfold Qlt, Qmult, Q_of_nat, inject_Z. cbn [Qnum Qden]. lia.
Qed.

(** X7. When the checks return, the size ratio is the smallest group size
    divided by the largest, taken over every label of [con_treat] that
    occurs (the control and the treatment group among them); it is a finite
    number in (0, 1], and the report flags the sizes as unbalanced exactly
    when the smallest is below four fifths of the largest. *)
Theorem group_balance (d : frame) (q : quality_report) :
  _data_quality_checks d = Ok q ->
  exists lo hi,
    (exists g, In (g, lo) (value_counts d))
    /\ (exists g, In (g, hi) (value_counts d))
    /\ (forall g n, In (g, n) (value_counts d) -> (lo <= n <= hi)%nat)
    /\ In ("control", length (group_rows "control" d)) (value_counts d)
    /\ In ("treatment", length (group_rows "treatment" d)) (value_counts d)
    /\ (exists r, size_ratio q = Fin r
                  /\ (r == Q_of_nat lo / Q_of_nat hi)%Q /\ (0 < r <= 1)%Q)
    /\ (unbalanced q = true <-> (10 * lo < 8 * hi)%nat).
Proof.
  intro H. destruct (quality_checks_value d H) as [Hc [Ht [_ [_ [_ [_ [Er Eu]]]]]]].
  apply paged_nonempty in Hc. apply paged_nonempty in Ht.
  assert (Hcin : In ("control", length (group_rows "control" d)) (value_counts d))
    by (apply value_counts_spec; auto).
  assert (Htin : In ("treatment", length (group_rows "treatment" d)) (value_counts d))
    by (apply value_counts_spec; auto).
  remember (map snd (value_counts d)) as sizes eqn:Es.
  assert (Hsz : forall n, In n sizes <-> exists g, In (g, n) (value_counts d)).
  { intro n. rewrite Es, in_map_iff. split.
    - intros [[g m] [E Hin]]. simpl in E. subst m. now exists g.
    - intros [g Hin]. now exists (g, n). }
  destruct sizes as [|x t].
  { exfalso. apply (proj2 (Hsz (length (group_rows "control" d)))).
    now exists "control". }
  destruct (fold_min_spec t x) as [Hmin_in Hmin_le].
  destruct (fold_max_spec t x) as [Hmax_in Hmax_le].
  set (lo := fold_left Nat.min t x) in *. set (hi := fold_left Nat.max t x) in *.
  assert (Hlo : (0 < lo)%nat).
  { apply Hsz in Hmin_in. destruct Hmin_in as [g Hg].
    apply value_counts_spec in Hg. destruct Hg as [Hne ->].
    destruct (group_rows g d); [contradiction|simpl; lia]. }
  assert (Hlohi : (lo <= hi)%nat) by (apply Hmax_le; exact Hmin_in).
  exists lo, hi.
  split; [now apply Hsz|]. split; [now apply Hsz|].
  split.
  { intros g n Hin. assert (In n (x :: t)) by (apply Hsz; now exists g).
    split; [now apply Hmin_le|now apply Hmax_le]. }
  split; [exact Hcin|]. split; [exact Htin|].
  assert (Eratio : size_ratio q = fdiv (of_nat lo) (of_nat hi)).
  { rewrite Er. reflexivity. }
  split.
  - destruct (ratio_in_unit (m := lo) (n := hi)) as [r [Hr [Hv [Hr0 Hr1]]]]; [lia|lia|].
    exists r. rewrite Eratio. split; [exact Hr|]. split; [exact Hv|].
    split; [|exact Hr1]. rewrite Hv. apply Qlt_shift_div_l.
    + apply Q_of_nat_pos. lia.
    + rewrite Qmult_0_l. now apply Q_of_nat_pos.
  - rewrite Eu, Eratio. apply below_four_fifths. lia.
Qed.

Lemma group_balance_witness :
  exists q, _data_quality_checks two_countries = Ok q
            /\ exists r, size_ratio q = Fin r /\ (0 < r <= 1)%Q.
Proof.
  destruct (quality_checks_ok two_countries) as [q Hq];
    [simpl; discriminate|simpl; discriminate|].
  exists q. split; [exact Hq|].
  destruct (group_balance two_countries Hq) as [lo [hi [_ [_ [_ [_ [_ [[r [Hr [_ Hb]]] _]]]]]]]].
  exists r. split; [exact Hr|exact Hb].
Defined.

(** ** Keys of the result dictionary *)

Lemma keys_dict_set (V : Type) (k : string) (v : V) (d : list (string * V)) :
  map fst (dict_set k v d)
  = if mem k (map fst d) then map fst d else map fst d ++ [k].
Proof.
  unfold mem. induction d as [|[k' v'] t IH]; simpl; [reflexivity|].
  destruct (String.eqb k k') eqn:E; simpl.
  - apply String.eqb_eq in E. now subst.
  - rewrite IH. now destruct (existsb (String.eqb k) (map fst t)).
Qed.

Lemma names_NoDup (cs : list (option string)) : NoDup cs -> NoDup (names cs).
Proof.
  induction cs as [|c t IH]; intro H; simpl; [constructor|].
  inversion H as [|? ? Hc Ht]; subst.
  destruct c as [s|]; simpl; [|now apply IH].
  constructor; [|now apply IH]. now rewrite names_In.
Qed.

Lemma countries_NoDup (self : ABTestAnalyzer) : NoDup (countries self).
Proof.
  unfold countries, unique_labels.
  pose proof (@keep_first_NoDup _ _ (fun x : option string => x) label_same
                                label_same_spec [] (map country (data self))) as H.
  now rewrite map_id in H.
Qed.

Section ResultKeys.
Variable proportions_ztest : list nat -> list nat -> num * num.
Variable confint : nat -> nat -> num -> num * num.

Local Abbreviation stratum := (country_result proportions_ztest confint).
Local Abbreviation step := (country_step proportions_ztest confint).
Local Abbreviation run := (statistical_tests proportions_ztest confint).

Lemma stratum_some_iff (self : ABTestAnalyzer) (a : num) (c : option string) :
  (exists r, stratum self a c = Some r) <-> both_arms self c = true.
Proof.
  unfold both_arms. rewrite andb_true_iff, !Nat.ltb_lt. split.
  - intros [r Hr]. pose proof (stratum_fields _ _ _ _ _ Hr) as H. cbv zeta in H.
    destruct H as [Hc [Ht _]].
    destruct (group_rows "control" (country_rows c (data self))); [contradiction|].
    destruct (group_rows "treatment" (country_rows c (data self))); [contradiction|].
    simpl. lia.
  - intros [Hc Ht]. apply stratum_tested.
    + intro E. rewrite E in Hc. simpl in Hc. lia.
    + intro E. rewrite E in Ht. simpl in Ht. lia.
Qed.

Lemma keys_step (self : ABTestAnalyzer) (a : num) (res : results_dict)
      (c : option string) :
  map fst (step self a res c)
  = match c with
    | Some name =>
        if both_arms self c && negb (mem name (map fst res))
        then map fst res ++ [name] else map fst res
    | None => map fst res
    end.
Proof.
  unfold country_step. destruct c as [name|].
  - destruct (stratum self a (Some name)) as [r|] eqn:S.
    + assert (B : both_arms self (Some name) = true)
        by (apply (stratum_some_iff self a); now exists r).
      rewrite B, keys_dict_set. now destruct (mem name (map fst res)).
    + destruct (both_arms self (Some name)) eqn:B; [|reflexivity].
      apply (stratum_some_iff self a) in B. destruct B as [r Hr]. congruence.
  - now destruct (stratum self a None).
Qed.

Lemma keys_fold (self : ABTestAnalyzer) (a : num) (cs : list (option string)) :
  NoDup cs ->
  forall init : results_dict,
    In "overall" (map fst init) ->
    (forall name, In (Some name) cs -> In name (map fst init) -> name = "overall") ->
    map fst (fold_left (step self a) cs init)
    = map fst init ++ filter not_overall (names (filter (both_arms self) cs)).
Proof.
  induction cs as [|c t IH]; intros Hnd init Ho Hfresh; simpl.
  - now rewrite app_nil_r.
  - inversion Hnd as [|? ? Hc Ht]; subst.
    assert (Hstep_o : In "overall" (map fst (step self a init c))).
    { rewrite keys_step. destruct c as [name|]; [|exact Ho].
      destruct (both_arms self (Some name) && negb (mem name (map fst init)));
        [apply in_or_app; now left|exact Ho]. }
    assert (Hstep_f : forall name, In (Some name) t ->
                                   In name (map fst (step self a init c)) ->
                                   name = "overall").
    { intros name Hin Hk. rewrite keys_step in Hk. destruct c as [name'|].
      - destruct (both_arms self (Some name') && negb (mem name' (map fst init))).
        + apply in_app_or in Hk. destruct Hk as [Hk | [<- | []]].
          * apply Hfresh; [now right|exact Hk].
          * contradiction.
        + apply Hfresh; [now right|exact Hk].
      - apply Hfresh; [now right|exact Hk]. }
    rewrite (IH Ht _ Hstep_o Hstep_f), keys_step.
    destruct c as [name|]; [|now destruct (both_arms self None)].
    destruct (both_arms self (Some name)) eqn:B; cbn [andb]; [|reflexivity].
    cbn [names flat_map app filter].
    destruct (mem name (map fst init)) eqn:M; cbn [negb].
    + apply mem_true in M.
      assert (name = "overall") by (apply Hfresh; [now left|exact M]). subst name.
      unfold not_overall at 2. rewrite String.eqb_refl. reflexivity.
    + assert (Hne : not_overall name = true).
      { unfold not_overall. destruct (String.eqb name "overall") eqn:E; [|reflexivity].
        apply String.eqb_eq in E. subst name. apply mem_true in Ho. congruence. }
      rewrite Hne, <- app_assoc. reflexivity.
Qed.

Lemma run_keys (self : ABTestAnalyzer) (res : results_dict) :
  run self = Ok res ->
  map fst res = "overall" :: filter not_overall (names (tested self)).
Proof.
  unfold statistical_tests.
  destruct (bonferroni_alpha self) as [a|e]; simpl; [|discriminate].
  intro H. injection H as <-.
  rewrite (keys_fold self a (countries_NoDup self)); [reflexivity|now left|].
  intros name _ [<- | []]. reflexivity.
Qed.

Lemma run_keys_NoDup (self : ABTestAnalyzer) (res : results_dict) :
  run self = Ok res -> NoDup (map fst res).
Proof.
  intro Hrun. rewrite (run_keys _ Hrun). constructor.
  - intro Hin. apply filter_In in Hin. destruct Hin as [_ Hin].
    unfold not_overall in Hin. now rewrite String.eqb_refl in Hin.
  - apply NoDup_filter, names_NoDup. unfold tested.
    apply NoDup_filter, countries_NoDup.
Qed.

(** X8. The dictionary returned by [statistical_tests] has the key
    ['overall'] first, followed by the labels of the tested countries in the
    order of their first appearance in the data (a tested country labelled
    ['overall'] shares the first key); no key occurs twice. *)
Theorem result_keys (self : ABTestAnalyzer) (res : results_dict) :
  run self = Ok res ->
  map fst res = "overall" :: filter not_overall (names (tested self))
  /\ NoDup (map fst res)
  /\ (~ In (Some "overall") (tested self) ->
      map fst res = "overall" :: names (tested self)).
Proof.
  intro Hrun. split; [exact (run_keys _ Hrun)|]. split; [exact (run_keys_NoDup _ Hrun)|].
  intro Hno. rewrite (run_keys _ Hrun). f_equal.
  apply forallb_filter_id. apply forallb_forall. intros k Hk.
  unfold not_overall. destruct (String.eqb k "overall") eqn:E; [|reflexivity].
  apply String.eqb_eq in E. subst k. apply names_In in Hk. contradiction.
Qed.

End ResultKeys.

Lemma result_keys_witness :
  exists res,
    statistical_tests ztest_ref normal_confint (analyzer_of two_countries) = Ok res
    /\ map fst res = ["overall"; "US"; "UK"].
Proof.
  destruct (run_ok ztest_ref normal_confint (analyzer_of two_countries)) as [res Hrun];
    [discriminate|].
  exists res. split; [exact Hrun|].
  destruct (result_keys ztest_ref normal_confint _ Hrun) as [_ [_ Hk]].
  rewrite Hk; [reflexivity|].
  intros [H | [H | []]]; discriminate.
Defined.

(** ** The strata partition the labelled rows *)

Lemma sum_pointwise_labels (f h : option string -> nat) (ps : list (option string)) :
  list_sum (map (fun c => (f c + h c)%nat) ps)
  = (list_sum (map f ps) + list_sum (map h ps))%nat.
Proof. induction ps as [|c t IH]; simpl; [reflexivity|]. rewrite IH. lia. Qed.

Lemma label_indicator (x : option string) (n : nat) (ps : list (option string)) :
  NoDup ps ->
  list_sum (map (fun c => if label_eq x c then n else O) ps)
  = match x with
    | Some _ => if existsb (label_same x) ps then n else O
    | None => O
    end.
Proof.
  induction ps as [|c t IH]; intro Hnd; simpl.
  - now destruct x.
  - inversion Hnd as [|? ? Hc Ht]; subst. rewrite (IH Ht).
    destruct x as [s|]; [|reflexivity].
    destruct c as [s'|]; simpl; [|reflexivity].
    destruct (String.eqb s s') eqn:E; simpl; [|reflexivity].
    apply String.eqb_eq in E. subst s'.
    destruct (existsb (label_same (Some s)) t) eqn:M; [|lia].
    apply label_mem in M. contradiction.
Qed.

Lemma total_by_label (w : row -> nat) (g : string) (d : frame)
      (ps : list (option string)) :
  NoDup ps -> (forall r, In r d -> In (country r) ps) ->
  (list_sum (map (fun c => total w (group_rows g (country_rows c d))) ps)
   + total w (group_rows g (unlabelled d))
   = total w (group_rows g d))%nat.
Proof.
  intro Hnd. induction d as [|r t IH]; intro Hall.
  - simpl. unfold total. simpl.
    replace (map (fun _ : option string => O) ps) with (map (fun _ => O) ps) by reflexivity.
    clear. induction ps; simpl; auto.
  - assert (Hall' : forall r', In r' t -> In (country r') ps)
      by (intros r' Hr'; apply Hall; now right).
    specialize (IH Hall').
    assert (Hin : In (country r) ps) by (apply Hall; now left).
    rewrite (map_ext _ (fun c => ((if label_eq (country r) c
                                   then (if label_eq (con_treat r) (Some g) then w r else O)
                                   else O)
                                  + total w (group_rows g (country_rows c t)))%nat)).
    + rewrite sum_pointwise_labels, (label_indicator _ _ Hnd).
      unfold unlabelled, group_rows, total in *. simpl.
      destruct (country r) as [s|] eqn:Ec; simpl.
      * apply label_mem in Hin. rewrite Hin.
        destruct (label_eq (con_treat r) (Some g)); simpl; lia.
      * destruct (label_eq (con_treat r) (Some g)); simpl; lia.
    + intro c. unfold country_rows, group_rows, total. simpl.
      destruct (label_eq (country r) c); simpl; [|reflexivity].
      destruct (label_eq (con_treat r) (Some g)); reflexivity.
Qed.

Lemma countries_cover (self : ABTestAnalyzer) (r : row) :
  In r (data self) -> In (country r) (countries self).
Proof.
  intro H. unfold countries, unique_labels.
  pose proof (@keep_first_mem _ _ (fun x : option string => x) label_same
                              label_same_spec [] (map country (data self)) (country r))
    as M.
  rewrite !map_id in M. apply M. split; [now apply in_map|intros []].
Qed.

Lemma total_one (d : frame) : total (fun _ => 1%nat) d = length d.
Proof. unfold total. induction d; simpl; auto. Qed.

(** X9. The per-country samples partition the labelled rows of each group:
    summed over the distinct labels, the stratum sizes (and the stratum
    conversions) of a group, plus those of its rows without a country label,
    give the overall size (and conversions) of the group.  Rows without a
    label enter the overall test and no per-country test. *)
Theorem strata_partition (self : ABTestAnalyzer) (g : string) :
  (list_sum (map (fun c => length (group_rows g (country_rows c (data self))))
                 (countries self))
   + length (group_rows g (unlabelled (data self)))
   = length (group_rows g (data self)))%nat
  /\ (list_sum (map (fun c => conversions (group_rows g (country_rows c (data self))))
                    (countries self))
      + conversions (group_rows g (unlabelled (data self)))
      = conversions (group_rows g (data self)))%nat
  /\ group_rows g (country_rows None (data self)) = [].
Proof.
  split; [|split].
  - pose proof (total_by_label (fun _ => 1%nat) g (data self)
                               (countries_NoDup self) (countries_cover self)) as H.
    rewrite !total_one in H. rewrite <- H. f_equal. f_equal. apply map_ext.
    intro c. now rewrite total_one.
  - exact (total_by_label converted g (data self)
                          (countries_NoDup self) (countries_cover self)).
  - unfold country_rows. rewrite filter_none; [reflexivity|].
    intros r _. now destruct (country r).
Qed.

(** ** Values of a country entry *)

Section CountryEntries.
Variable proportions_ztest : list nat -> list nat -> num * num.
Variable confint : nat -> nat -> num -> num * num.

Local Abbreviation stratum := (country_result proportions_ztest confint).
Local Abbreviation run := (statistical_tests proportions_ztest confint).

Lemma stratum_finite (self : ABTestAnalyzer) (a : num) (c : option string)
      (r : TestResult) :
  stratum self a c = Some r ->
  exists qc qt,
    control_rate r = Fin qc /\ treatment_rate r = Fin qt
    /\ (0 <= qc)%Q /\ (0 <= qt)%Q
    /\ effect_size r = fin (qt - qc)
    /\ finite (relative_effect r).
Proof.
  intro Hs. pose proof (stratum_fields _ _ _ _ _ Hs) as H. cbv zeta in H.
  destruct H as [Hc [Ht [Ec [Et [Ee [Er _]]]]]].
  destruct (scope_rate_finite _ _ Hc) as [qc [Eqc Hqc]].
  destruct (scope_rate_finite _ _ Ht) as [qt [Eqt Hqt]].
  exists qc, qt. rewrite Ec, Et. split; [exact Eqc|]. split; [exact Eqt|].
  split; [exact Hqc|]. split; [exact Hqt|].
  rewrite Ec, Et, Eqc, Eqt in Ee. split; [exact Ee|].
  rewrite Er, Ee, Ec, Eqc.
  destruct (fgt (Fin qc) (of_nat 0)) eqn:G.
  - assert (Hpos : (0 < qc)%Q).
    { unfold fgt, flt, of_nat, fin in G. apply Qltb_true in G.
      rewrite Qred_correct in G. exact G. }
    change (fin (qt - qc)) with (fsub (Fin qt) (Fin qc)).
    destruct (relative_effect_positive qt Hpos) as [q [Hq _]].
    exists q. exact Hq.
  - eexists. reflexivity.
Qed.

(** X10. Every country entry of the dictionary has finite rates, a finite
    effect (treatment rate minus control rate) and a finite relative effect:
    the guard of the loop keeps not-a-number and the infinities out of the
    per-country results.  When every outcome is 0 or 1, both rates lie in
    [0, 1] and the effect in [-1, 1]. *)
Theorem country_entry_values (self : ABTestAnalyzer) (res : results_dict)
        (k : string) (r : TestResult) :
  run self = Ok res -> assoc k res = Some r -> k <> "overall" ->
  (exists qc qt,
     control_rate r = Fin qc /\ treatment_rate r = Fin qt
     /\ (0 <= qc)%Q /\ (0 <= qt)%Q
     /\ effect_size r = fin (qt - qc)
     /\ finite (relative_effect r))
  /\ (Forall (fun x => (converted x <= 1)%nat) (data self) ->
      in_unit (control_rate r) /\ in_unit (treatment_rate r)
      /\ exists e, effect_size r = Fin e /\ (- (1) <= e <= 1)%Q).
Proof.
  intros Hrun Hk Hne.
  destruct (run_entry _ _ _ _ Hrun Hk) as [[Ho _] | [a [_ [_ Hs]]]]; [contradiction|].
  split; [exact (stratum_finite _ _ _ Hs)|].
  intro Hb. pose proof (stratum_fields _ _ _ _ _ Hs) as H. cbv zeta in H.
  destruct H as [Hc [Ht [Ec [Et [Ee _]]]]].
  assert (Hbs : Forall (fun x => (converted x <= 1)%nat)
                       (country_rows (Some k) (data self)))
    by (now apply binary_filter).
  destruct (scope_rate_unit _ Hc Hbs) as [qc [Eqc Hqc]].
  destruct (scope_rate_unit _ Ht Hbs) as [qt [Eqt Hqt]].
  rewrite Ee, Ec, Et, Eqc, Eqt. cbn [in_unit fsub].
  split; [exact Hqc|]. split; [exact Hqt|].
  eexists. split; [reflexivity|]. rewrite Qred_correct. lra.
Qed.

(** X11. With a positive alpha, the Bonferroni level is positive and never
    above alpha; it equals alpha when the data carry a single country label
    and is strictly smaller otherwise.  Hence a country flagged as
    significant under the correction also has a p-value below alpha. *)
Theorem adjusted_level_bounds (self : ABTestAnalyzer) (al : Q) :
  alpha self = Fin al -> (0 < al)%Q ->
  (forall b, bonferroni_alpha self = Ok b ->
     exists q, b = Fin q /\ (0 < q <= al)%Q
               /\ (n_tests self = 1%nat -> (q == al)%Q)
               /\ ((1 < n_tests self)%nat -> (q < al)%Q)
               /\ forall p, flt p b = true -> flt p (alpha self) = true)
  /\ (forall res k r,
        run self = Ok res -> assoc k res = Some r ->
        p_value_adjusted r = Some true -> flt (p_value r) (alpha self) = true).
Proof.
  intros Ha Hal.
  assert (Hb : forall b, bonferroni_alpha self = Ok b ->
            exists q, b = Fin q /\ (0 < q <= al)%Q
               /\ (n_tests self = 1%nat -> (q == al)%Q)
               /\ ((1 < n_tests self)%nat -> (q < al)%Q)
               /\ forall p, flt p b = true -> flt p (alpha self) = true).
  { intros b Hb. destruct (bonferroni_alpha_inv _ Hb) as [Hne ->].
    pose proof (countries_nonempty self Hne) as Hn.
    rewrite Ha. unfold fdiv, of_nat, fin.
    assert (Hq : (0 < Q_of_nat (n_tests self))%Q) by now apply Q_of_nat_pos.
    assert (H1 : (1 <= Q_of_nat (n_tests self))%Q)
      by (change 1%Q with (Q_of_nat 1); apply Q_of_nat_le; lia).
    assert (E : Qeq_bool (Qred (Q_of_nat (n_tests self))) 0 = false)
      by (apply Qeq_bool_false; rewrite Qred_correct; lra).
    rewrite E. eexists. split; [reflexivity|].
    assert (V : (Qred (al / Qred (Q_of_nat (n_tests self)))
                 == al / Q_of_nat (n_tests self))%Q)
      by (now rewrite !Qred_correct).
    assert (Hle : (al / Q_of_nat (n_tests self) <= al)%Q).
    { apply Qle_shift_div_r; [exact Hq|].
      assert (G : (al * 1 <= al * Q_of_nat (n_tests self))%Q)
        by (apply Qmult_le_l; assumption).
      lra. }
    assert (Hpos : (0 < al / Q_of_nat (n_tests self))%Q)
      by (apply Qlt_shift_div_l; lra).
    split; [rewrite V; split; [exact Hpos|exact Hle]|].
    split.
    { intro E1. rewrite V, E1. change (Q_of_nat 1) with 1%Q. field. }
    split.
    { intro Hgt. rewrite V. apply Qlt_shift_div_r; [exact Hq|].
      assert (H2 : (Q_of_nat 1 < Q_of_nat (n_tests self))%Q)
        by (apply Q_of_nat_lt; lia).
      change (Q_of_nat 1) with 1%Q in H2.
      assert (G : (al * 1 < al * Q_of_nat (n_tests self))%Q)
        by (apply Qmult_lt_l; assumption).
      lra. }
    intros p Hp. destruct p as [x| | |]; cbn [flt] in *; try discriminate;
      try reflexivity.
    apply Qltb_true in Hp. apply Qltb_true. rewrite V in Hp. lra. }
  split; [exact Hb|].
  intros res k r Hrun Hk Hflag.
  destruct (run_entry _ _ _ _ Hrun Hk) as [[_ ->] | [a [Hba [_ Hs]]]].
  - pose proof (overall_fields proportions_ztest confint self) as Ho. cbv zeta in Ho.
    destruct Ho as [_ [_ [_ [_ [_ [_ [_ [_ [_ Hnone]]]]]]]]]. congruence.
  - pose proof (stratum_fields _ _ _ _ _ Hs) as H. cbv zeta in H.
    destruct H as [_ [_ [_ [_ [_ [_ [_ [_ [_ [_ [_ Hadj]]]]]]]]]]].
    rewrite Hadj in Hflag. injection Hflag as Hflag.
    destruct (Hb a Hba) as [q [_ [_ [_ [_ Himp]]]]]. now apply Himp.
Qed.

End CountryEntries.

Lemma country_entry_values_witness :
  exists res r,
    statistical_tests ztest_ref normal_confint (analyzer_of two_countries) = Ok res
    /\ assoc "UK" res = Some r
    /\ in_unit (control_rate r) /\ finite (relative_effect r).
Proof.
  destruct (run_ok ztest_ref normal_confint (analyzer_of two_countries)) as [res Hrun];
    [discriminate|].
  assert (Hin : In (Some "UK") (tested (analyzer_of two_countries)))
    by (right; left; reflexivity).
  destruct (run_tested_entry _ _ _ _ Hrun Hin) as [a [r [_ [_ Hk]]]].
  exists res, r. split; [exact Hrun|]. split; [exact Hk|].
  assert (Hne : "UK" <> "overall") by discriminate.
  destruct (@country_entry_values ztest_ref normal_confint _ _ _ _ Hrun Hk Hne)
    as [[qc [qt [_ [_ [_ [_ [_ Hfin]]]]]]] Hbin].
  assert (Hb : Forall (fun x => (converted x <= 1)%nat) (data (analyzer_of two_countries)))
    by (simpl; repeat constructor).
  destruct (Hbin Hb) as [Hu _]. split; [exact Hu|exact Hfin].
Defined.

Lemma adjusted_level_witness :
  exists q, bonferroni_alpha (analyzer_of two_countries) = Ok (Fin q)
            /\ (0 < q <= 1 # 20)%Q.
Proof.
  assert (Ha : alpha (analyzer_of two_countries) = Fin (1 # 20)) by reflexivity.
  assert (Hpos : (0 < 1 # 20)%Q) by reflexivity.
  destruct (proj1 (@adjusted_level_bounds ztest_ref normal_confint _ _ Ha Hpos)
                  (Fin (1 # 40)) eq_refl) as [q [Hq [Hr _]]].
  exists q. split; [now rewrite <- Hq|exact Hr].
Defined.

(** ** The plot data *)

Lemma keys_country_entries (res : results_dict) :
  map fst (country_entries res) = filter not_overall (map fst res).
Proof.
  unfold country_entries. induction res as [|[k v] t IH]; simpl; [reflexivity|].
  unfold not_overall at 1. destruct (negb (String.eqb k "overall")); simpl; now rewrite IH.
Qed.

Lemma assoc_In_NoDup (V : Type) (l : list (string * V)) (k : string) (v : V) :
  NoDup (map fst l) -> In (k, v) l -> assoc k l = Some v.
Proof.
  induction l as [|[k' v'] t IH]; intros Hnd Hin; simpl in *; [contradiction|].
  inversion Hnd as [|? ? Hk Ht]; subst.
  destruct Hin as [E | Hin].
  - injection E as -> ->. now rewrite String.eqb_refl.
  - destruct (String.eqb k k') eqn:E; [|now apply IH].
    apply String.eqb_eq in E. subst k'. exfalso. apply Hk.
    apply in_map_iff. now exists (k, v).
Qed.

Lemma filter_both (A : Type) (f h : A -> bool) (l : list A) :
  filter (fun x => f x && h x) l = filter h (filter f l).
Proof.
  induction l as [|x t IH]; simpl; [reflexivity|].
  destruct (f x); simpl; [destruct (h x)|]; now rewrite IH.
Qed.

Lemma arm_size_stratum (self : ABTestAnalyzer) (c g : string) :
  arm_size self c g = length (group_rows g (country_rows (Some c) (data self))).
Proof. unfold arm_size, group_rows, country_rows. now rewrite filter_both. Qed.

Lemma plotted_are_tested (self : ABTestAnalyzer) (c : string) :
  In c (filter not_overall (names (tested self))) ->
  In (Some c) (tested self) /\ c <> "overall".
Proof.
  intro H. apply filter_In in H. destruct H as [Hin Hne].
  apply names_In in Hin. split; [exact Hin|].
  intros ->. unfold not_overall in Hne. now rewrite String.eqb_refl in Hne.
Qed.

Lemma names_length (cs : list (option string)) : (length (names cs) <= length cs)%nat.
Proof.
  induction cs as [|[s|] t IH]; simpl; lia.
Qed.

Lemma plotted_le_n_tests (self : ABTestAnalyzer) :
  (length (filter not_overall (names (tested self))) <= n_tests self)%nat.
Proof.
  pose proof (filter_length_le not_overall (names (tested self))).
  pose proof (names_length (tested self)).
  pose proof (tested_le_n_tests self). lia.
Qed.

Section PlotFacts.
Variable proportions_ztest : list nat -> list nat -> num * num.
Variable confint : nat -> nat -> num -> num * num.

Local Abbreviation run := (statistical_tests proportions_ztest confint).

Lemma run_has_overall (self : ABTestAnalyzer) (res : results_dict) :
  run self = Ok res -> exists o, assoc "overall" res = Some o.
Proof.
  intro Hrun. destruct (run_assoc _ _ _ "overall" Hrun) as [a [_ E]]. rewrite E.
  destruct (if existsb (label_same (Some "overall")) (countries self)
            then country_result proportions_ztest confint self a (Some "overall")
            else None) as [r|]; eexists; reflexivity.
Qed.

Lemma run_plotted (self : ABTestAnalyzer) (res : results_dict) :
  run self = Ok res ->
  map fst (country_entries res) = filter not_overall (names (tested self)).
Proof.
  intro Hrun. rewrite keys_country_entries, (run_keys _ _ _ Hrun).
  change (filter not_overall ("overall" :: filter not_overall (names (tested self))))
    with (filter not_overall (filter not_overall (names (tested self)))).
  clear. induction (names (tested self)) as [|k t IH]; simpl; [reflexivity|].
  destruct (not_overall k) eqn:E; simpl; [rewrite E|]; now rewrite IH.
Qed.

(** X12. On the results of [statistical_tests], the plot covers exactly the
    tested countries (other than a country labelled ['overall']), in the
    order of the dictionary, and every plotted country has observations in
    both arms.  Computing the plot data raises nothing but a
    [ZeroDivisionError], and raises it exactly when no country is plotted:
    the Bonferroni line divides 0.05 by the number of plotted countries. *)
Theorem visualization_outcome (self : ABTestAnalyzer) (res : results_dict) :
  run self = Ok res ->
  (create_results_visualization self res = Raise ZeroDivisionError
   <-> filter not_overall (names (tested self)) = [])
  /\ (forall e, create_results_visualization self res = Raise e -> e = ZeroDivisionError)
  /\ (forall plot, create_results_visualization self res = Ok plot ->
        plot_countries plot = filter not_overall (names (tested self))
        /\ length (plot_effects plot) = length (plot_countries plot)
        /\ length (plot_p_values plot) = length (plot_countries plot)
        /\ length (plot_p_colors plot) = length (plot_countries plot)
        /\ Forall (fun n => (0 < n)%nat) (plot_control_sizes plot)
        /\ Forall (fun n => (0 < n)%nat) (plot_treatment_sizes plot)).
Proof.
  intro Hrun. destruct (run_has_overall _ Hrun) as [o Ho].
  pose proof (run_plotted _ Hrun) as Hp.
  unfold create_results_visualization. cbv zeta. rewrite Ho. cbn [bind].
  rewrite Hp.
  destruct (filter not_overall (names (tested self))) as [|c t] eqn:Ep.
  - cbn [length py_truediv bind]. split; [tauto|]. split.
    + intros e H. now injection H as <-.
    + intros plot H. discriminate.
  - cbn [length py_truediv bind]. split; [split; discriminate|]. split.
    + intros e H. discriminate.
    + intros plot H. injection H as <-.
      cbn [plot_countries plot_effects plot_p_values plot_p_colors
           plot_control_sizes plot_treatment_sizes].
      rewrite !length_map.
      assert (Hlen : length (country_entries res) = length (c :: t))
        by (rewrite <- Hp; now rewrite length_map).
      split; [reflexivity|]. split; [exact Hlen|]. split; [exact Hlen|].
      split; [exact Hlen|].
      assert (Hall : forall g, g = "control" \/ g = "treatment" ->
                Forall (fun n => (0 < n)%nat) (map (fun c0 => arm_size self c0 g) (c :: t))).
      { intros g Hg. apply Forall_forall. intros n Hn. apply in_map_iff in Hn.
        destruct Hn as [c0 [<- Hc0]]. rewrite <- Ep in Hc0.
        apply plotted_are_tested in Hc0. destruct Hc0 as [Hc0 _].
        apply tested_spec in Hc0. destruct Hc0 as [_ [Hc Ht]].
        rewrite arm_size_stratum.
        destruct Hg as [-> | ->].
        - destruct (group_rows "control" _); [contradiction|simpl; lia].
        - destruct (group_rows "treatment" _); [contradiction|simpl; lia]. }
      split; apply Hall; auto.
Qed.

End PlotFacts.

Lemma visualization_witness :
  exists res plot,
    statistical_tests ztest_ref normal_confint (analyzer_of two_countries) = Ok res
    /\ create_results_visualization (analyzer_of two_countries) res = Ok plot
    /\ plot_countries plot = ["US"; "UK"].
Proof.
  destruct (run_ok ztest_ref normal_confint (analyzer_of two_countries)) as [res Hrun];
    [discriminate|].
  destruct (@visualization_outcome ztest_ref normal_confint _ _ Hrun) as [Hz [He Hok]].
  destruct (create_results_visualization (analyzer_of two_countries) res) as [plot|e] eqn:E.
  - exists res, plot. split; [exact Hrun|]. split; [exact E|].
    exact (proj1 (Hok plot eq_refl)).
  - exfalso. rewrite (He e eq_refl) in Hz.
    assert (H : filter not_overall (names (tested (analyzer_of two_countries))) = [])
      by (now apply Hz).
    discriminate H.
Defined.

Lemma flt_mono (p : num) (x y : Q) :
  flt p (Fin x) = true -> (x <= y)%Q -> flt p (Fin y) = true.
Proof.
  destruct p as [q| | |]; cbn [flt]; intros H Hle; try discriminate; try reflexivity.
  apply Qltb_true in H. apply Qltb_true. lra.
Qed.

Lemma share_by_count (m n : nat) :
  (0 < m)%nat -> (m <= n)%nat ->
  ((1 # 20) / Q_of_nat n <= (1 # 20) / Q_of_nat m)%Q
  /\ (((1 # 20) / Q_of_nat m == (1 # 20) / Q_of_nat n)%Q <-> m = n).
Proof.
  intros Hm Hmn.
  assert (Qm : (0 < Q_of_nat m)%Q) by (apply Q_of_nat_pos; lia).
  assert (Qn : (0 < Q_of_nat n)%Q) by (apply Q_of_nat_pos; lia).
  assert (Qmn : (Q_of_nat m <= Q_of_nat n)%Q) by now apply Q_of_nat_le.
  assert (Em : ((1 # 20) / Q_of_nat m * Q_of_nat m == 1 # 20)%Q) by (field; lra).
  assert (En : ((1 # 20) / Q_of_nat n * Q_of_nat n == 1 # 20)%Q) by (field; lra).
  assert (Pn : (0 < (1 # 20) / Q_of_nat n)%Q) by (apply Qlt_shift_div_l; lra).
  split.
  - apply Qle_shift_div_l; [exact Qm|].
    assert (G : ((1 # 20) / Q_of_nat n * Q_of_nat m
                 <= (1 # 20) / Q_of_nat n * Q_of_nat n)%Q)
      by (apply Qmult_le_l; assumption).
    lra.
  - split.
    + intro E. rewrite E in Em.
      assert (G : ((1 # 20) / Q_of_nat n * (Q_of_nat n - Q_of_nat m) == 0)%Q).
      { setoid_replace ((1 # 20) / Q_of_nat n * (Q_of_nat n - Q_of_nat m))%Q
          with ((1 # 20) / Q_of_nat n * Q_of_nat n
                - (1 # 20) / Q_of_nat n * Q_of_nat m)%Q by ring.
        rewrite En, Em. reflexivity. }
      apply Qmult_integral in G. destruct G as [G | G]; [lra|].
      assert (Q_of_nat n == Q_of_nat m)%Q by lra.
      unfold Q_of_nat, Qeq in H. simpl in H. lia.
    + intros ->. reflexivity.
Qed.

Section PlotThreshold.
Variable proportions_ztest : list nat -> list nat -> num * num.
Variable confint : nat -> nat -> num -> num * num.

Local Abbreviation run := (statistical_tests proportions_ztest confint).

(** X13. For an analyzer with alpha = 0.05, the Bonferroni line of the plot
    (0.05 over the number of plotted countries) is never below the adjusted
    level used for the flags (0.05 over the number of distinct labels), and
    equals it exactly when every label is plotted.  Every country flagged as
    significant under the correction gets a red p-value bar. *)
Theorem plot_threshold (self : ABTestAnalyzer) (res : results_dict) (plot : plot_data) :
  alpha self = Fin (1 # 20) ->
  run self = Ok res ->
  create_results_visualization self res = Ok plot ->
  exists b line,
    bonferroni_alpha self = Ok (Fin b)
    /\ plot_bonferroni_line plot = Fin line
    /\ (b <= line)%Q
    /\ ((line == b)%Q <-> length (plot_countries plot) = n_tests self)
    /\ plot_p_colors plot
       = map (p_color (length (plot_countries plot))) (plot_p_values plot)
    /\ forall k r, In (k, r) (country_entries res) ->
         p_value_adjusted r = Some true ->
         p_color (length (plot_countries plot)) (p_value r) = "red".
Proof.
  intros Ha Hrun Hviz. destruct (run_has_overall _ _ _ Hrun) as [o Ho].
  pose proof (plotted_le_n_tests self) as Hle.
  rewrite <- (run_plotted _ _ _ Hrun), length_map in Hle.
  unfold create_results_visualization in Hviz. cbv zeta in Hviz.
  rewrite Ho in Hviz. cbn [bind] in Hviz. rewrite !length_map in Hviz.
  remember (length (country_entries res)) as m eqn:Em.
  assert (Hm : (0 < m)%nat)
    by (destruct m; [discriminate Hviz|apply Nat.lt_0_succ]).
  assert (Ediv : py_truediv (fin (5 # 100)) m = Ok (fin ((1 # 20) / Q_of_nat m))).
  { unfold py_truediv. destruct m; [inversion Hm|].
    change (fin (5 # 100)) with (Fin (1 # 20)). now rewrite fdiv_by_count. }
  rewrite Ediv in Hviz. cbn [bind] in Hviz. injection Hviz as <-.
  cbn [plot_bonferroni_line plot_countries plot_p_colors plot_p_values].
  rewrite !length_map, <- Em.
  assert (Hn : (0 < n_tests self)%nat) by lia.
  destruct (share_by_count (m := m) (n := n_tests self)) as [Hshare Heq]; [lia|lia|].
  assert (Eb : bonferroni_alpha self = Ok (fin ((1 # 20) / Q_of_nat (n_tests self)))).
  { unfold bonferroni_alpha, py_truediv. destruct (n_tests self) eqn:En; [inversion Hn|].
    rewrite Ha, <- En. rewrite fdiv_by_count; [reflexivity|lia]. }
  exists (Qred ((1 # 20) / Q_of_nat (n_tests self))), (Qred ((1 # 20) / Q_of_nat m)).
  split; [exact Eb|]. split; [reflexivity|].
  rewrite !Qred_correct.
  split; [exact Hshare|]. split; [exact Heq|].
  split; [reflexivity|].
  intros k r Hin Hflag.
  assert (Hin' : In (k, r) res) by (unfold country_entries in Hin; now apply filter_In in Hin).
  assert (Hk : assoc k res = Some r)
    by (apply assoc_In_NoDup; [exact (run_keys_NoDup _ _ _ Hrun)|exact Hin']).
  destruct (run_entry _ _ _ _ Hrun Hk) as [[-> _] | [a [Hba [_ Hs]]]].
  - unfold country_entries in Hin. apply filter_In in Hin. destruct Hin as [_ Hin].
    simpl in Hin. discriminate.
  - pose proof (stratum_fields _ _ _ _ _ Hs) as F. cbv zeta in F.
    destruct F as [_ [_ [_ [_ [_ [_ [_ [_ [_ [_ [_ Hadj]]]]]]]]]]].
    rewrite Hadj in Hflag. injection Hflag as Hflag.
    rewrite Eb in Hba. injection Hba as <-.
    unfold p_color.
    assert (El : fdiv (fin (5 # 100)) (of_nat m) = fin ((1 # 20) / Q_of_nat m)).
    { change (fin (5 # 100)) with (Fin (1 # 20)). now apply fdiv_by_count. }
    rewrite El.
    assert (R : flt (p_value r) (fin ((1 # 20) / Q_of_nat m)) = true).
    { unfold fin in *. apply (flt_mono _ Hflag). rewrite !Qred_correct. exact Hshare. }
    now rewrite R.
Qed.

End PlotThreshold.

Lemma visualization_ok (proportions_ztest : list nat -> list nat -> num * num)
      (confint : nat -> nat -> num -> num * num)
      (self : ABTestAnalyzer) (res : results_dict) :
  statistical_tests proportions_ztest confint self = Ok res ->
  filter not_overall (names (tested self)) <> [] ->
  exists plot, create_results_visualization self res = Ok plot.
Proof.
  intros Hrun Hne. destruct (run_has_overall _ _ _ Hrun) as [o Ho].
  pose proof (run_plotted _ _ _ Hrun) as Hp.
  unfold create_results_visualization. cbv zeta. rewrite Ho. cbn [bind].
  rewrite Hp.
  destruct (filter not_overall (names (tested self))) as [|k t]; [contradiction|].
  cbn [length py_truediv bind]. eexists. reflexivity.
Qed.

Lemma plot_threshold_witness :
  exists res plot b line,
    statistical_tests ztest_ref normal_confint (analyzer_of one_sided_country) = Ok res
    /\ create_results_visualization (analyzer_of one_sided_country) res = Ok plot
    /\ bonferroni_alpha (analyzer_of one_sided_country) = Ok (Fin b)
    /\ plot_bonferroni_line plot = Fin line
    /\ (b <= line)%Q.
Proof.
  destruct (run_ok ztest_ref normal_confint (analyzer_of one_sided_country))
    as [res Hrun]; [discriminate|].
  destruct (@visualization_ok _ _ _ _ Hrun) as [plot E]; [discriminate|].
  destruct (@plot_threshold ztest_ref normal_confint
              (analyzer_of one_sided_country) res plot eq_refl Hrun E)
    as [b [line [Hb [Hl [Hle _]]]]].
  exists res, plot, b, line. auto.
Defined.

(** ** Business recommendations *)

Section Recommendations.
Variable proportions_ztest : list nat -> list nat -> num * num.
Variable confint : nat -> nat -> num -> num * num.

Local Abbreviation overall := (overall_result proportions_ztest confint).
Local Abbreviation stratum := (country_result proportions_ztest confint).
Local Abbreviation run := (statistical_tests proportions_ztest confint).

Lemma tested_iff (self : ABTestAnalyzer) (c : option string) :
  In c (tested self) <-> In c (countries self) /\ both_arms self c = true.
Proof. unfold tested, both_arms. now rewrite filter_In. Qed.

(** Which entry sits under the key ['overall'] after the loop. *)
Lemma overall_entry_cases (self : ABTestAnalyzer) (res : results_dict) :
  run self = Ok res ->
  (In (Some "overall") (tested self)
   /\ exists a r, stratum self a (Some "overall") = Some r
                  /\ assoc "overall" res = Some r)
  \/ (~ In (Some "overall") (tested self)
      /\ assoc "overall" res = Some (overall self)).
Proof.
  intro Hrun. destruct (run_assoc _ _ _ "overall" Hrun) as [a [_ E]].
  destruct (existsb (label_same (Some "overall")) (countries self)) eqn:M.
  - apply label_mem in M.
    destruct (stratum self a (Some "overall")) as [r|] eqn:S.
    + left. split.
      * apply tested_iff. split; [exact M|].
        apply (stratum_some_iff proportions_ztest confint self a). now exists r.
      * now exists a, r.
    + right. split; [|exact E]. intro H. apply tested_iff in H. destruct H as [_ H].
      apply (stratum_some_iff proportions_ztest confint self a) in H.
      destruct H as [r Hr]. rewrite S in Hr. discriminate.
  - right. split; [|exact E]. intro H. apply tested_iff in H. destruct H as [H _].
    apply label_mem in H. rewrite M in H. discriminate.
Qed.

(** X14. On the results of [statistical_tests], [business_recommendations]
    raises exactly when a tested country is labelled ['overall']: that
    country's entry has replaced the overall one and has no ['significant']
    field, so the lookup raises [KeyError].  Otherwise it reports the overall
    relative effect and significance flag, and sorts every other entry of
    the dictionary into exactly one of the two country lists. *)
Theorem recommendations_outcome (self : ABTestAnalyzer) (res : results_dict) :
  run self = Ok res ->
  (business_recommendations self res = Raise (KeyError "significant")
   <-> In (Some "overall") (tested self))
  /\ (forall e, business_recommendations self res = Raise e
                -> e = KeyError "significant")
  /\ (forall rec, business_recommendations self res = Ok rec ->
        overall_effect rec = relative_effect (overall self)
        /\ overall_significant rec = flt (p_value (overall self)) (alpha self)
        /\ (length (negative_countries rec) + length (positive_countries rec)
            = length (filter not_overall (names (tested self))))%nat).
Proof.
  intro Hrun. pose proof (run_plotted _ _ _ Hrun) as Hp.
  unfold business_recommendations. cbv zeta.
  destruct (overall_entry_cases _ Hrun) as [[Hin [a [r [Hs ->]]]] | [Hnot ->]];
    cbn [bind].
  - pose proof (stratum_fields _ _ _ _ _ Hs) as F. cbv zeta in F.
    destruct F as [_ [_ [_ [_ [_ [_ [_ [_ [_ [_ [-> _]]]]]]]]]]]. cbn [bind].
    split; [split; [intros _; exact Hin|reflexivity]|].
    split; [intros e H; now injection H as <-|]. intros rec H. discriminate H.
  - pose proof (overall_fields proportions_ztest confint self) as F. cbv zeta in F.
    destruct F as [_ [_ [_ [_ [_ [_ [_ [_ [-> _]]]]]]]]]. cbn [bind].
    split; [split; [intro H; discriminate H|intro H; contradiction]|].
    split; [intros e H; discriminate H|]. intros rec H. injection H as <-.
    cbn [overall_effect overall_significant negative_countries positive_countries].
    split; [reflexivity|]. split; [reflexivity|].
    rewrite <- Hp, filter_length, !length_map. reflexivity.
Qed.

End Recommendations.

Lemma recommendations_outcome_witness :
  exists res,
    statistical_tests ztest_ref normal_confint (analyzer_of country_named_overall) = Ok res
    /\ business_recommendations (analyzer_of country_named_overall) res
       = Raise (KeyError "significant").
Proof.
  destruct (run_ok ztest_ref normal_confint (analyzer_of country_named_overall))
    as [res Hrun]; [discriminate|].
  exists res. split; [exact Hrun|].
  apply (proj1 (@recommendations_outcome ztest_ref normal_confint _ _ Hrun)).
  vm_compute. left. reflexivity.
Defined.

Lemma flt_fin_true (q b : Q) : flt (Fin q) (fin b) = true <-> (q < b)%Q.
Proof. unfold fin. cbn [flt]. now rewrite Qltb_true, Qred_correct. Qed.

Lemma flt_fin_false (q b : Q) : flt (Fin q) (fin b) = false <-> (b <= q)%Q.
Proof. unfold fin. cbn [flt]. now rewrite Qltb_false, Qred_correct. Qed.

Lemma fgt_fin_true (q b : Q) : fgt (Fin q) (fin b) = true <-> (b < q)%Q.
Proof. unfold fgt, fin. cbn [flt]. now rewrite Qltb_true, Qred_correct. Qed.

Lemma fne_fin_true (q b : Q) : fne (Fin q) (fin b) = true <-> ~ (q == b)%Q.
Proof.
  unfold fne, fin. cbn [feq]. rewrite negb_true_iff, Qeq_bool_false.
  now rewrite Qred_correct.
Qed.

Lemma fne_fin_false (q b : Q) : fne (Fin q) (fin b) = false <-> (q == b)%Q.
Proof.
  unfold fne, fin. cbn [feq]. rewrite negb_false_iff, Qeq_bool_iff.
  now rewrite Qred_correct.
Qed.

Lemma recommendations_ok (self : ABTestAnalyzer) (results : results_dict)
      (rec : recommendations) :
  business_recommendations self results = Ok rec ->
  let e := overall_effect rec in
  overall_verdict rec
  = (if flt e (fin (-(2))) then Critical
     else if flt e (of_nat 0) then Warning
     else if fgt e (of_nat 2) then Positive
     else Neutral)
  /\ stop_experiment rec = flt e (fin (-(1)))
  /\ projected rec
     = (if fne e (of_nat 0)
        then Some (fmul (fdiv e (of_nat 100)) (of_nat (conversions (data self))),
                   fmul (fdiv (fmul (fdiv e (of_nat 100))
                                    (of_nat (conversions (data self))))
                              (of_nat (conversions (data self))))
                        (of_nat 100))
        else None).
Proof.
  unfold business_recommendations. cbv zeta.
  destruct (assoc "overall" results) as [o|]; cbn [bind]; [|discriminate].
  destruct (significant o) as [b|]; cbn [bind]; [|discriminate].
  intro H. injection H as <-. cbn [overall_effect overall_verdict stop_experiment projected].
  repeat split; reflexivity.
Qed.

(** X15. The messages of [business_recommendations] agree with one another
    on every results dictionary it accepts: the critical finding always comes
    with the advice to stop the experiment; that advice is only given with
    the critical finding or the warning; an overall effect that is exactly
    zero is reported as neutral, without a projected impact.  A not-a-number
    overall effect fails every comparison: it is reported as neutral, the
    experiment is not stopped, and a projected impact is still printed. *)
Theorem verdict_and_next_steps (self : ABTestAnalyzer) (results : results_dict)
      (rec : recommendations) :
  business_recommendations self results = Ok rec ->
  (overall_verdict rec = Critical -> stop_experiment rec = true)
  /\ (stop_experiment rec = true
      -> overall_verdict rec = Critical \/ overall_verdict rec = Warning)
  /\ (overall_verdict rec = Positive
      -> stop_experiment rec = false /\ projected rec <> None)
  /\ (projected rec = None
      -> overall_verdict rec = Neutral /\ stop_experiment rec = false)
  /\ (is_nan (overall_effect rec) = true
      -> overall_verdict rec = Neutral /\ stop_experiment rec = false
         /\ projected rec <> None)
  /\ (forall q, overall_effect rec = Fin q -> (q == 0)%Q
      -> overall_verdict rec = Neutral /\ stop_experiment rec = false
         /\ projected rec = None).
Proof.
  intro H. pose proof (recommendations_ok _ _ H) as F. cbv zeta in F.
  destruct F as [-> [-> ->]]. clear H.
  destruct (overall_effect rec) as [q| | |].
  - unfold of_nat.
    destruct (flt (Fin q) (fin (-(2)))) eqn:E2;
      [apply flt_fin_true in E2|apply flt_fin_false in E2];
    (destruct (flt (Fin q) (fin (Q_of_nat 0))) eqn:E0;
      [apply flt_fin_true in E0|apply flt_fin_false in E0]);
    (destruct (fgt (Fin q) (fin (Q_of_nat 2))) eqn:Eg;
      [apply fgt_fin_true in Eg|]);
    (destruct (flt (Fin q) (fin (-(1)))) eqn:E1;
      [apply flt_fin_true in E1|apply flt_fin_false in E1]);
    (destruct (fne (Fin q) (fin (Q_of_nat 0))) eqn:Ez;
      [apply fne_fin_true in Ez|apply fne_fin_false in Ez]);
    change (Q_of_nat 0) with 0%Q in *; change (Q_of_nat 2) with 2%Q in *;
    cbn [negb];
    repeat split; intros; try discriminate; try reflexivity;
    try match goal with
        | Hq : Fin _ = Fin _ |- _ => injection Hq as <-
        end;
    try congruence;
    try (left; reflexivity); try (right; reflexivity); try (exfalso; lra);
    try (exfalso; tauto).
  - cbn. repeat split; intros; try discriminate; try reflexivity; try congruence.
  - cbn. repeat split; intros; try discriminate; try reflexivity; try congruence;
      try (left; reflexivity).
  - cbn. repeat split; intros; try discriminate; try reflexivity; try congruence.
Qed.

Lemma verdict_and_next_steps_witness :
  exists rec,
    business_recommendations (analyzer_of two_countries) harmful_results = Ok rec
    /\ overall_verdict rec = Critical
    /\ stop_experiment rec = true.
Proof.
  destruct (business_recommendations (analyzer_of two_countries) harmful_results)
    as [rec|e] eqn:E; [|vm_compute in E; discriminate E].
  assert (V : overall_verdict rec = Critical)
    by (vm_compute in E; injection E as <-; reflexivity).
  exists rec. split; [reflexivity|]. split; [exact V|].
  exact (proj1 (@verdict_and_next_steps (analyzer_of two_countries)
                  harmful_results rec E) V).
Defined.

(** X16. With a finite, non-zero overall effect and at least one conversion
    in the data, the projected change is the effect (as a fraction) times the
    current conversions, and the last line, the change in total conversions
    in percent, is the overall relative effect again (in the exact arithmetic
    of the model; floating point adds rounding).  Without any conversion the
    projected change is 0 and that percentage is not a number. *)
Theorem projected_impact_values (self : ABTestAnalyzer) (results : results_dict)
      (rec : recommendations) (e : Q) :
  business_recommendations self results = Ok rec ->
  overall_effect rec = Fin e ->
  ~ (e == 0)%Q ->
  ((0 < conversions (data self))%nat
   -> projected rec
      = Some (fin (e / 100 * Q_of_nat (conversions (data self))), fin e))
  /\ (conversions (data self) = O -> projected rec = Some (fin 0, NaN)).
Proof.
  intros H He Hne. pose proof (recommendations_ok _ _ H) as F. cbv zeta in F.
  destruct F as [_ [_ ->]]. rewrite He. clear H He.
  assert (Ez : fne (Fin e) (of_nat 0) = true)
    by (unfold of_nat; apply fne_fin_true; exact Hne).
  rewrite Ez.
  assert (E100 : fdiv (Fin e) (of_nat 100) = fin (e / 100)).
  { rewrite fdiv_by_count by lia. reflexivity. }
  rewrite E100. split.
  - intro Hc. set (c := conversions (data self)) in *.
    assert (Qc : (0 < Q_of_nat c)%Q) by now apply Q_of_nat_pos.
    assert (M : fmul (fin (e / 100)) (of_nat c) = fin (e / 100 * Q_of_nat c)).
    { unfold fin, of_nat. cbn [fmul]. apply fin_ext. now rewrite !Qred_correct. }
    rewrite M. unfold fin at 2. rewrite fdiv_by_count by exact Hc.
    do 2 f_equal. unfold fin at 1, of_nat. cbn [fmul]. apply fin_ext.
    rewrite !Qred_correct. change (Q_of_nat 100) with 100%Q. field. lra.
  - intros ->. change (of_nat 0) with (Fin 0).
    assert (Z0 : fmul (fin (e / 100)) (Fin 0) = Fin 0).
    { unfold fin at 1. cbn [fmul]. change (Fin 0) with (fin 0). apply fin_ext. ring. }
    rewrite Z0. reflexivity.
Qed.

Lemma projected_impact_witness :
  exists rec,
    business_recommendations (analyzer_of two_countries) harmful_results = Ok rec
    /\ projected rec = Some (fin (-(3) / 100 * Q_of_nat 3), fin (-(3))).
Proof.
  destruct (business_recommendations (analyzer_of two_countries) harmful_results)
    as [rec|e] eqn:E; [|vm_compute in E; discriminate E].
  assert (V : overall_effect rec = Fin (-(3)))
    by (vm_compute in E; injection E as <-; reflexivity).
  assert (N : ~ (-(3) == 0)%Q) by (intro N; vm_compute in N; discriminate N).
  exists rec. split; [reflexivity|].
  apply (proj1 (@projected_impact_values (analyzer_of two_countries)
                  harmful_results rec (-(3)) E V N)).
  vm_compute. lia.
Defined.
